(** * MoSLoRA adapter layer and adapter injection (peft/tuners/lora.py)

    A shallow embedding of [commonsense_reasoning/peft/src/peft/tuners/lora.py]:
    the adapter layer [Linear] (constructor, [reset_parameters], [train],
    [eval], [forward]), the module-graph matcher [LoraModel._find_and_replace],
    the trainable-mask pass [mark_only_lora_as_trainable] and the adapter
    toggler [LoraModel._set_adapter_layers].

    Modelling conventions.
    - Tensor entries are real numbers: floating-point rounding, overflow
      and the [dtype] casts of [forward] ([.to(dtype)]) are not
      represented.  What is proved of [forward] therefore concerns shapes,
      exceptions and which entries a result is computed from; an identity
      that rests on the laws of real arithmetic is stated as holding in
      exact arithmetic only.
    - Allocation always succeeds: the limits of [torch.empty] on the size
      of a tensor are not represented.
    - A tensor is a shape together with its row-major contents.
    - Python exceptions are values of [exn]; a computation that may raise
      returns a [result].
    - A [torch.nn.Module] is a node carrying its class, its [training] flag,
      its [_parameters] and its [_modules], as in PyTorch; attribute access
      on a missing name yields [AttributeError].
    - Random initialisation and dropout draw from explicit sources passed as
      arguments.  Devices are not represented. *)

From Stdlib Require Import String Ascii Bool Arith ZArith QArith Qreals Reals Lia Lra List.
Import ListNotations.

Close Scope Q_scope.
Close Scope R_scope.
Close Scope Z_scope.
Open Scope string_scope.
Open Scope nat_scope.
Open Scope list_scope.

Set Implicit Arguments.

(** ** Exceptions and results *)

(** [LoraConfig.target_modules]: a single regular expression or a list of
    name suffixes. *)
Inductive target_spec : Type :=
| TargetRegex (pattern : string)
| TargetSuffixes (suffixes : list string).

Inductive exn : Type :=
| AttributeError (attr : string)
| TypeError
| NotImplementedError
| ImportError
| UnboundLocalError (var : string)
| RuntimeError
| EinopsError
| ReError
| ValueError_dropout_probability
| ValueError_unpack
| ValueError_target_modules_not_found (target_modules : option target_spec).

Inductive result (A : Type) : Type :=
| Ok (a : A)
| Err (e : exn).

Arguments Ok {A} a.
Arguments Err {A} e.

Definition bind {A B : Type} (m : result A) (k : A -> result B) : result B :=
  match m with
  | Ok a => k a
  | Err e => Err e
  end.

Notation "x <- m ;; k" := (bind m (fun x => k))
  (at level 61, m at next level, right associativity).
Notation "' pat <- m ;; k" := (bind m (fun x => match x with pat => k end))
  (at level 61, pat pattern, m at next level, right associativity).

Definition is_ok {A : Type} (m : result A) : bool :=
  match m with Ok _ => true | Err _ => false end.

(** ** Tensors *)

Module Tensor.

Record tensor : Type := mkTensor { shape : list nat; data : list R }.

Definition numel (sh : list nat) : nat := fold_right Nat.mul 1 sh.

(** The invariant of every torch tensor: as many entries as the shape says. *)
Definition wf (t : tensor) : Prop := length (data t) = numel (shape t).

(** All multi-indices of a shape, in row-major order. *)
Fixpoint indices (sh : list nat) : list (list nat) :=
  match sh with
  | [] => [[]]
  | n :: sh' => flat_map (fun i => map (cons i) (indices sh')) (seq 0 n)
  end.

(** Row-major offset of a multi-index. *)
Fixpoint ravel (sh idx : list nat) : nat :=
  match sh, idx with
  | n :: sh', i :: idx' => i * numel sh' + ravel sh' idx'
  | _, _ => 0
  end.

Definition tget (t : tensor) (idx : list nat) : R :=
  nth (ravel (shape t) idx) (data t) 0%R.

Definition tabulate (sh : list nat) (f : list nat -> R) : tensor :=
  mkTensor sh (map f (indices sh)).

Definition full (sh : list nat) (v : R) : tensor :=
  mkTensor sh (repeat v (numel sh)).

Definition zeros (sh : list nat) : tensor := full sh 0%R.

Definition tmap (f : R -> R) (t : tensor) : tensor :=
  mkTensor (shape t) (map f (data t)).

(** [t * c] for a Python scalar [c]. *)
Definition mul_scalar (t : tensor) (c : R) : tensor :=
  tmap (fun v => (v * c)%R) t.

Definition Rsum (l : list R) : R := fold_right Rplus 0%R l.

(** [tensor.T]: all dimensions reversed. *)
Definition T (t : tensor) : tensor :=
  tabulate (rev (shape t)) (fun idx => tget t (rev idx)).

(** The value of [F.linear(x, weight, bias)] once the shapes are accepted:
    [weight] is [out_f] by [in_f]. *)
Definition linear_out (x weight : tensor) (bias : option tensor) (out_f in_f : nat) : tensor :=
  tabulate (removelast (shape x) ++ [out_f])
    (fun idx =>
       let lead := removelast idx in
       let j := last idx 0 in
       (Rsum (map (fun k => (tget x (lead ++ [k]) * tget weight [j; k])%R) (seq 0 in_f))
        + match bias with
          | None => 0
          | Some b => tget b [j]
          end)%R).

(** [torch.nn.functional.linear(x, weight, bias)]: contracts the last axis
    of [x] with the second axis of a 2-D [weight], as every weight of an
    [nn.Linear] is. *)
Definition F_linear (x weight : tensor) (bias : option tensor) : result tensor :=
  match shape weight with
  | [out_f; in_f] =>
      let bias_ok :=
        match bias with
        | None => true
        | Some b => if list_eq_dec Nat.eq_dec (shape b) [out_f] then true else false
        end in
      match rev (shape x) with
      | last_dim :: _ =>
          if (last_dim =? in_f) && bias_ok then Ok (linear_out x weight bias out_f in_f)
          else Err RuntimeError
      | [] => Err RuntimeError
      end
  | _ => Err RuntimeError
  end.

(** [torch.softmax(t, dim=-1)]. *)
Definition softmax (t : tensor) : tensor :=
  let n := last (shape t) 1 in
  tabulate (shape t)
    (fun idx =>
       let lead := removelast idx in
       (exp (tget t idx)
        / Rsum (map (fun k => exp (tget t (lead ++ [k]))) (seq 0 n)))%R).

Definition diag_out (t : tensor) (n : nat) : tensor :=
  tabulate (shape t ++ [n])
    (fun idx =>
       let j := last idx 0 in
       let lead_i := removelast idx in
       let i := last lead_i 0 in
       if i =? j then tget t lead_i else 0%R).

(** [torch.diag_embed(t)]: the last axis becomes the diagonal of a new
    trailing square matrix. *)
Definition diag_embed (t : tensor) : result tensor :=
  match rev (shape t) with
  | n :: _ => Ok (diag_out t n)
  | [] => Err RuntimeError
  end.

(** [t.reshape(sh)]: same contents, new shape of the same size. *)
Definition reshape (t : tensor) (sh : list nat) : result tensor :=
  if numel sh =? numel (shape t) then Ok (mkTensor sh (data t))
  else Err RuntimeError.

Definition einsum_out (left gate : tensor) (b n r k : nat) : tensor :=
  tabulate [b; n; k]
    (fun idx =>
       match idx with
       | [bi; ni; ki] =>
           Rsum (map (fun ri => (tget left [bi; ni; ri] * tget gate [bi; ni; ri; ki])%R)
                   (seq 0 r))
       | _ => 0%R
       end).

(** [torch.einsum('bnr, bnrk->bnk', left, gate)]: the operands must have
    three and four dimensions and agree on [b], [n] and [r] (the
    broadcasting of dimensions of size one that [einsum] also allows is
    left out; [forward] feeds it operands of equal sizes). *)
Definition einsum_bnr_bnrk (left gate : tensor) : result tensor :=
  match shape left, shape gate with
  | [b; n; r], [b'; n'; r'; k] =>
      if (b =? b') && (n =? n') && (r =? r') then Ok (einsum_out left gate b n r k)
      else Err RuntimeError
  | _, _ => Err RuntimeError
  end.

Definition split3_out (h : nat) (t : tensor) (b s d : nat) : tensor :=
  tabulate [b * h; s; d]
    (fun idx =>
       match idx with
       | [bh; si; di] => tget t [bh / h; si; (bh mod h) * d + di]
       | _ => 0%R
       end).

(** [rearrange(t, 'b s (h d) -> (b h) s d', h=h)]. *)
Definition rearrange_split3 (h : nat) (t : tensor) : result tensor :=
  match shape t with
  | [b; s; hd] =>
      if (hd mod h =? 0) && negb (h =? 0) then Ok (split3_out h t b s (hd / h))
      else Err EinopsError
  | _ => Err EinopsError
  end.

Definition split2_out (h : nat) (t : tensor) (b d : nat) : tensor :=
  tabulate [b * h; d]
    (fun idx =>
       match idx with
       | [bh; di] => tget t [bh / h; (bh mod h) * d + di]
       | _ => 0%R
       end).

(** [rearrange(t, 'b (h d) -> (b h) d', h=h)]. *)
Definition rearrange_split2 (h : nat) (t : tensor) : result tensor :=
  match shape t with
  | [b; hd] =>
      if (hd mod h =? 0) && negb (h =? 0) then Ok (split2_out h t b (hd / h))
      else Err EinopsError
  | _ => Err EinopsError
  end.

Definition merge3_out (h : nat) (t : tensor) (bh s d : nat) : tensor :=
  tabulate [bh / h; s; h * d]
    (fun idx =>
       match idx with
       | [bi; si; hdi] => tget t [bi * h + hdi / d; si; hdi mod d]
       | _ => 0%R
       end).

(** [rearrange(t, '(b h) s d -> b s (h d)', h=h)]. *)
Definition rearrange_merge3 (h : nat) (t : tensor) : result tensor :=
  match shape t with
  | [bh; s; d] =>
      if (bh mod h =? 0) && negb (h =? 0) then Ok (merge3_out h t bh s d)
      else Err EinopsError
  | _ => Err EinopsError
  end.

Definition merge2_out (h : nat) (t : tensor) (bh d : nat) : tensor :=
  tabulate [bh / h; h * d]
    (fun idx =>
       match idx with
       | [bi; hdi] => tget t [bi * h + hdi / d; hdi mod d]
       | _ => 0%R
       end).

(** [rearrange(t, '(b h) d -> b (h d)', h=h)]. *)
Definition rearrange_merge2 (h : nat) (t : tensor) : result tensor :=
  match shape t with
  | [bh; d] =>
      if (bh mod h =? 0) && negb (h =? 0) then Ok (merge2_out h t bh d)
      else Err EinopsError
  | _ => Err EinopsError
  end.

(** Broadcasting of two shapes, aligned at the trailing dimension; the
    two arguments are the reversed shapes. *)
Fixpoint broadcast_rev (a b : list nat) : option (list nat) :=
  match a, b with
  | [], _ => Some b
  | _, [] => Some a
  | x :: a', y :: b' =>
      match broadcast_rev a' b' with
      | None => None
      | Some c =>
          if x =? y then Some (x :: c)
          else if x =? 1 then Some (y :: c)
          else if y =? 1 then Some (x :: c)
          else None
      end
  end.

Definition broadcast_shapes (a b : list nat) : option (list nat) :=
  option_map (@rev nat) (broadcast_rev (rev a) (rev b)).

(** The index of an operand of shape [sh] that feeds position [idx] of the
    broadcast result. *)
Definition bcast_index (sh idx : list nat) : list nat :=
  map (fun ni => if fst ni =? 1 then 0 else snd ni)
    (combine sh (skipn (List.length idx - List.length sh) idx)).

Definition broadcast_out (op : R -> R -> R) (a b : tensor) (sh : list nat) : tensor :=
  tabulate sh (fun idx => op (tget a (bcast_index (shape a) idx))
                             (tget b (bcast_index (shape b) idx))).

Definition broadcast_op (op : R -> R -> R) (a b : tensor) : result tensor :=
  match broadcast_shapes (shape a) (shape b) with
  | Some sh => Ok (broadcast_out op a b sh)
  | None => Err RuntimeError
  end.

(** [a + b] and [a - b] on tensors. *)
Definition add := broadcast_op Rplus.
Definition sub := broadcast_op Rminus.

End Tensor.

Import Tensor.

(** ** The PyTorch object model *)

(** [torch.nn.Parameter]. *)
Record nn_Parameter : Type := mkParameter { param_data : tensor; requires_grad : bool }.

(** Instance attributes of [Linear(nn.Linear, LoraLayer)] that are neither
    parameters nor sub-modules.  [lora_alpha] is [None] when the
    configuration left it unset; [scaling] is an attribute only when [r > 0];
    [lora_dropout_is_lambda] tells whether [self.lora_dropout] is the
    identity [lambda x: x] (otherwise it is the sub-module ["lora_dropout"],
    an [nn.Dropout]). *)
Record LoraAttrs : Type := mkLoraAttrs {
  in_features : nat;
  out_features : nat;
  r : Z;
  lora_alpha : option Q;
  lora_dropout_is_lambda : bool;
  merged : bool;
  merge_weights : bool;
  disable_adapters : bool;
  fan_in_fan_out : bool;
  lora_router : bool;
  lora_router_mixer : bool;
  scaling : option Q
}.

(** The classes a module of the host network can be an instance of. *)
Inductive mclass : Type :=
| ClsModule                                   (* any other torch.nn.Module *)
| ClsDropout (p : Q)                          (* torch.nn.Dropout *)
| ClsLinear (in_f out_f : nat)                (* torch.nn.Linear *)
| ClsLinear8bitLt (in_f out_f : nat)          (* bnb.nn.Linear8bitLt, a torch.nn.Linear *)
| ClsConv1D                                   (* transformers.pytorch_utils.Conv1D *)
| ClsLoraLinear (a : LoraAttrs).              (* lora.Linear *)

#[local] Unset Elimination Schemes.
Inductive nn_Module : Type :=
| mkModule (cls : mclass) (training : bool)
           (_parameters : list (string * option nn_Parameter))
           (_modules : list (string * nn_Module)).
#[local] Set Elimination Schemes.

Definition cls (m : nn_Module) : mclass :=
  match m with mkModule c _ _ _ => c end.
Definition training (m : nn_Module) : bool :=
  match m with mkModule _ t _ _ => t end.
Definition _parameters (m : nn_Module) : list (string * option nn_Parameter) :=
  match m with mkModule _ _ ps _ => ps end.
Definition _modules (m : nn_Module) : list (string * nn_Module) :=
  match m with mkModule _ _ _ ms => ms end.

(** [isinstance(m, torch.nn.Linear)], [isinstance(m, LoraLayer)], ... *)
Definition isinstance_nn_Linear (m : nn_Module) : bool :=
  match cls m with
  | ClsLinear _ _ | ClsLinear8bitLt _ _ | ClsLoraLinear _ => true
  | _ => false
  end.
Definition isinstance_Linear8bitLt (m : nn_Module) : bool :=
  match cls m with ClsLinear8bitLt _ _ => true | _ => false end.
Definition isinstance_Conv1D (m : nn_Module) : bool :=
  match cls m with ClsConv1D => true | _ => false end.
Definition isinstance_LoraLayer (m : nn_Module) : bool :=
  match cls m with ClsLoraLinear _ => true | _ => false end.

(** Ordered dictionaries with string keys. *)
Section Dict.
Variable V : Type.

Fixpoint dict_get (d : list (string * V)) (k : string) : option V :=
  match d with
  | [] => None
  | (k', v) :: d' => if String.eqb k' k then Some v else dict_get d' k
  end.

Fixpoint dict_set (d : list (string * V)) (k : string) (v : V) : list (string * V) :=
  match d with
  | [] => [(k, v)]
  | (k', v') :: d' =>
      if String.eqb k' k then (k', v) :: d' else (k', v') :: dict_set d' k v
  end.
End Dict.

(** Attribute access [m.name] for a registered parameter; the value may be
    [None] (as [bias] of a layer built with [bias=False]). *)
Definition getattr_parameter (m : nn_Module) (name : string) : result (option nn_Parameter) :=
  match dict_get (_parameters m) name with
  | Some p => Ok p
  | None => Err (AttributeError name)
  end.

(** [m.name.data], [m.name.dtype], ...: the parameter must exist and not be
    [None]. *)
Definition getattr_tensor (m : nn_Module) (name : string) : result nn_Parameter :=
  p <- getattr_parameter m name ;;
  match p with
  | Some p => Ok p
  | None => Err (AttributeError name)
  end.

Definition getattr_module (m : nn_Module) (name : string) : result nn_Module :=
  match dict_get (_modules m) name with
  | Some c => Ok c
  | None => Err (AttributeError name)
  end.

Definition hasattr_module (m : nn_Module) (name : string) : bool :=
  match dict_get (_modules m) name with Some _ => true | None => false end.

Definition setattr_parameter (m : nn_Module) (name : string) (p : option nn_Parameter) : nn_Module :=
  match m with
  | mkModule c t ps ms => mkModule c t (dict_set ps name p) ms
  end.

Definition setattr_module (m : nn_Module) (name : string) (c : nn_Module) : nn_Module :=
  match m with
  | mkModule k t ps ms => mkModule k t ps (dict_set ms name c)
  end.

Definition set_cls (m : nn_Module) (c : mclass) : nn_Module :=
  match m with
  | mkModule _ t ps ms => mkModule c t ps ms
  end.

(** ** Random sources *)

(** A stream of draws; initialisers consume a prefix and return the rest. *)
Definition rng : Type := nat -> R.

Definition rng_fill (g : rng) (sh : list nat) : tensor * rng :=
  (mkTensor sh (map g (seq 0 (numel sh))), fun i => g (numel sh + i)).

(** [nn.init.kaiming_uniform_(t, a=math.sqrt(5))] and [nn.init.uniform_]:
    the contents are replaced by fresh draws (the draws are taken to be
    distributed as the initialiser requires). *)
Definition kaiming_uniform_ (g : rng) (p : nn_Parameter) : nn_Parameter * rng :=
  let '(t, g') := rng_fill g (shape (param_data p)) in
  (mkParameter t (requires_grad p), g').

Definition uniform_ := kaiming_uniform_.

(** [nn.init.zeros_(t)]. *)
Definition zeros_ (p : nn_Parameter) : nn_Parameter :=
  mkParameter (zeros (shape (param_data p))) (requires_grad p).

(** [torch.empty(shape)] wrapped as a trainable parameter; its contents are
    overwritten by [reset_parameters] before any use. *)
Definition empty_parameter (sh : list nat) : nn_Parameter :=
  mkParameter (zeros sh) true.

(** ** [torch.nn.Linear] and [torch.nn.Dropout] *)

(** [torch.nn.Linear.reset_parameters(self)]. *)
Definition nn_Linear_reset_parameters (self : nn_Module) (g : rng)
  : result (nn_Module * rng) :=
  w <- getattr_tensor self "weight" ;;
  let '(w', g) := kaiming_uniform_ g w in
  let self := setattr_parameter self "weight" (Some w') in
  b <- getattr_parameter self "bias" ;;
  match b with
  | None => Ok (self, g)
  | Some b =>
      let '(b', g) := uniform_ g b in
      Ok (setattr_parameter self "bias" (Some b'), g)
  end.

(** [torch.nn.Linear.__init__(self, in_features, out_features, bias=bias)].
    The call [self.reset_parameters()] it ends with is dispatched on the
    instance; for a [lora.Linear] under construction no ["lora_A"] exists
    yet, so the override does exactly what the base method does. *)
Definition nn_Linear_init (in_f out_f : nat) (bias : bool) (g : rng)
  : result (nn_Module * rng) :=
  let self :=
    mkModule (ClsLinear in_f out_f) true
      [("weight", Some (empty_parameter [out_f; in_f]));
       ("bias", if bias then Some (empty_parameter [out_f]) else None)]
      [] in
  nn_Linear_reset_parameters self g.

(** [torch.nn.Dropout.__init__(self, p)]. *)
Definition nn_Dropout_init (p : Q) : result nn_Module :=
  if Qlt_le_dec p 0 then Err ValueError_dropout_probability
  else if Qlt_le_dec 1 p then Err ValueError_dropout_probability
  else Ok (mkModule (ClsDropout p) true [] []).

(** [F.dropout(x, p, training)]: in training mode each entry is kept
    according to the Bernoulli draw [keep] and rescaled by [1/(1-p)]. *)
Definition F_dropout (keep : nat -> bool) (p : Q) (training : bool) (x : tensor) : tensor :=
  if training && (if Qlt_le_dec 0 p then true else false) then
    if Qeq_bool p 1 then zeros (shape x)
    else mkTensor (shape x)
           (map (fun iv => if keep (fst iv) then (snd iv / Q2R (1 - p))%R else 0%R)
              (combine (seq 0 (List.length (data x))) (data x)))
  else x.

(** Modelled from the spec: the [transpose] helper is imported from
    [peft.utils], which is not among the sources at hand; the frozen weight
    is "transposed per the fan-in/fan-out flag". *)
Definition transpose (weight : tensor) (fan_in_fan_out : bool) : tensor :=
  if fan_in_fan_out then T weight else weight.

(** [nn.Linear.forward]: [F.linear(x, self.weight, self.bias)]. *)
Definition nn_Linear_forward (self : nn_Module) (x : tensor) : result tensor :=
  w <- getattr_tensor self "weight" ;;
  b <- getattr_parameter self "bias" ;;
  F_linear x (param_data w) (option_map param_data b).

(** [Conv1D.forward]: [x @ self.weight + self.bias] with [weight] stored
    as (in, out). *)
Definition Conv1D_forward (self : nn_Module) (x : tensor) : result tensor :=
  w <- getattr_tensor self "weight" ;;
  b <- getattr_tensor self "bias" ;;
  F_linear x (T (param_data w)) (Some (param_data b)).

(** ** The adapter layer [Linear(nn.Linear, LoraLayer)] *)

Definition set_merged (a : LoraAttrs) (v : bool) : LoraAttrs :=
  mkLoraAttrs (in_features a) (out_features a) (r a) (lora_alpha a)
    (lora_dropout_is_lambda a) v (merge_weights a) (disable_adapters a)
    (fan_in_fan_out a) (lora_router a) (lora_router_mixer a) (scaling a).

Definition set_disable_adapters (a : LoraAttrs) (v : bool) : LoraAttrs :=
  mkLoraAttrs (in_features a) (out_features a) (r a) (lora_alpha a)
    (lora_dropout_is_lambda a) (merged a) (merge_weights a) v
    (fan_in_fan_out a) (lora_router a) (lora_router_mixer a) (scaling a).

Definition set_scaling (a : LoraAttrs) (v : option Q) : LoraAttrs :=
  mkLoraAttrs (in_features a) (out_features a) (r a) (lora_alpha a)
    (lora_dropout_is_lambda a) (merged a) (merge_weights a) (disable_adapters a)
    (fan_in_fan_out a) (lora_router a) (lora_router_mixer a) v.

(** [LoraLayer.__init__]: the comparison [lora_dropout > 0.0] raises
    [TypeError] on [None]; otherwise [self.lora_dropout] becomes an
    [nn.Dropout] sub-module or the identity lambda.  Returns the instance
    and whether the lambda was chosen. *)
Definition LoraLayer_init (self : nn_Module) (lora_dropout : option Q)
  : result (nn_Module * bool) :=
  match lora_dropout with
  | None => Err TypeError
  | Some p =>
      if Qlt_le_dec 0 p then
        d <- nn_Dropout_init p ;;
        Ok (setattr_module self "lora_dropout" d, false)
      else Ok (self, true)
  end.

(** In-place update of the weight of sub-module [name]. *)
Definition update_child_weight (self : nn_Module) (name : string)
    (f : nn_Parameter -> nn_Parameter) : result nn_Module :=
  c <- getattr_module self name ;;
  w <- getattr_tensor c "weight" ;;
  Ok (setattr_module self name (setattr_parameter c "weight" (Some (f w)))).

(** [Linear.reset_parameters]. *)
Definition Linear_reset_parameters (a : LoraAttrs) (self : nn_Module) (g : rng)
  : result (nn_Module * rng) :=
  '(self, g) <- nn_Linear_reset_parameters self g ;;
  if hasattr_module self "lora_A" then
    lora_A <- getattr_module self "lora_A" ;;
    wA <- getattr_tensor lora_A "weight" ;;
    let '(wA', g) := kaiming_uniform_ g wA in
    let self := setattr_module self "lora_A" (setattr_parameter lora_A "weight" (Some wA')) in
    '(self, g) <-
      (if lora_router a then
         lora_R <- getattr_module self "lora_R" ;;
         wR <- getattr_tensor lora_R "weight" ;;
         let '(wR', g) := kaiming_uniform_ g wR in
         Ok (setattr_module self "lora_R" (setattr_parameter lora_R "weight" (Some wR')), g)
       else Ok (self, g)) ;;
    self <- update_child_weight self "lora_B" zeros_ ;;
    Ok (self, g)
  else Ok (self, g).

(** The hyper-parameter [lora_head = 4] set in [__init__] and in [forward]. *)
Definition lora_head : nat := 4.

(** [Linear.__init__].  [bias] is the keyword forwarded to
    [nn.Linear.__init__] through [**kwargs]. *)
Definition Linear_init (in_f out_f : nat) (r : Z) (lora_alpha lora_dropout : option Q)
    (fan_in_fan_out merge_weights lora_router lora_router_mixer bias : bool) (g : rng)
  : result (nn_Module * rng) :=
  '(self, g) <- nn_Linear_init in_f out_f bias g ;;
  '(self, is_lambda) <- LoraLayer_init self lora_dropout ;;
  let a := mkLoraAttrs in_f out_f r lora_alpha is_lambda false merge_weights false
             fan_in_fan_out lora_router lora_router_mixer None in
  '(self, a, g) <-
    (if (r >? 0)%Z then
       '(lora_A, g) <- nn_Linear_init (in_f / lora_head) (Z.to_nat r) false g ;;
       let self := setattr_module self "lora_A" lora_A in
       '(self, g) <-
         (if lora_router then
            '(lora_R, g) <-
              nn_Linear_init (in_f / lora_head)
                (if lora_router_mixer then Z.to_nat (r ^ 2) else Z.to_nat r) false g ;;
            Ok (setattr_module self "lora_R" lora_R, g)
          else Ok (self, g)) ;;
       '(lora_B, g) <- nn_Linear_init (Z.to_nat r) (out_f / lora_head) false g ;;
       let self := setattr_module self "lora_B" lora_B in
       s <- match lora_alpha with
            | Some alpha => Ok (alpha / inject_Z r)%Q
            | None => Err TypeError
            end ;;
       w <- getattr_tensor self "weight" ;;
       let self := setattr_parameter self "weight" (Some (mkParameter (param_data w) false)) in
       Ok (self, set_scaling a (Some s), g)
     else Ok (self, a, g)) ;;
  '(self, g) <- Linear_reset_parameters a self g ;;
  self <-
    (if fan_in_fan_out then
       w <- getattr_tensor self "weight" ;;
       Ok (setattr_parameter self "weight"
             (Some (mkParameter (T (param_data w)) (requires_grad w))))
     else Ok self) ;;
  Ok (set_cls self (ClsLoraLinear a), g).

(** [nn.Module.train(self, mode)] sets [training] on the module and calls
    [train(mode)] on every child, dispatching on the child's class.
    [Linear.train] overrides it: after the base method it calls [train]
    on [self.lora_A], on [self.lora_R] when [self.lora_router] and on
    [self.lora_B] (each a child the base method has just put in the same
    mode, so only the attribute look-ups can still fail), then clears
    [merged]. *)
Fixpoint train (mode : bool) (self : nn_Module) {struct self} : result nn_Module :=
  match self with
  | mkModule c _ ps ms =>
      ms' <- (fix children (l : list (string * nn_Module)) :=
                match l with
                | [] => Ok []
                | (name, child) :: l' =>
                    child' <- train mode child ;;
                    rest <- children l' ;;
                    Ok ((name, child') :: rest)
                end) ms ;;
      match c with
      | ClsLoraLinear a =>
          let self' := mkModule (ClsLoraLinear (set_merged a false)) mode ps ms' in
          _ <- getattr_module self' "lora_A" ;;
          _ <- (if lora_router a then getattr_module self' "lora_R" else Ok self') ;;
          _ <- getattr_module self' "lora_B" ;;
          Ok self'
      | _ => Ok (mkModule c mode ps ms')
      end
  end.

(** [nn.Module.eval(self)] is [self.train(False)], dispatched on the
    instance. *)
Definition nn_Module_eval (self : nn_Module) : result nn_Module := train false self.

(** [Linear.eval]: [nn.Linear.eval(self)], then [eval()] on the
    sub-projections. *)
Definition Linear_eval (a : LoraAttrs) (self : nn_Module) : result nn_Module :=
  self <- nn_Module_eval self ;;
  lora_A <- getattr_module self "lora_A" ;;
  lora_A <- nn_Module_eval lora_A ;;
  let self := setattr_module self "lora_A" lora_A in
  self <-
    (if lora_router a then
       lora_R <- getattr_module self "lora_R" ;;
       lora_R <- nn_Module_eval lora_R ;;
       Ok (setattr_module self "lora_R" lora_R)
     else Ok self) ;;
  lora_B <- getattr_module self "lora_B" ;;
  lora_B <- nn_Module_eval lora_B ;;
  Ok (setattr_module self "lora_B" lora_B).

(** [eval()] called on a module, dispatched on its class. *)
Definition eval (self : nn_Module) : result nn_Module :=
  match cls self with
  | ClsLoraLinear a => Linear_eval a self
  | _ => nn_Module_eval self
  end.

(** [Linear.forward].  [call_attr name t] stands for the call
    [self.<name>(t)] of a sub-module.  The two [dtype] conversions are
    the identity here, but the attributes they read must exist. *)
Definition Linear_forward (call_attr : string -> tensor -> result tensor)
    (a : LoraAttrs) (self : nn_Module) (x : tensor) : result tensor :=
  (* previous_dtype = self.weight.dtype *)
  _ <- getattr_tensor self "weight" ;;
  if disable_adapters a then Err NotImplementedError
  else
    (* dropout_x = self.lora_dropout(x).to(self.lora_A.weight.dtype) *)
    dropout_x <- (if lora_dropout_is_lambda a then Ok x
                  else call_attr "lora_dropout" x) ;;
    lora_A <- getattr_module self "lora_A" ;;
    _ <- getattr_tensor lora_A "weight" ;;
    let dropout_x_shape := shape dropout_x in
    dropout_x <-
      (if List.length dropout_x_shape =? 3
       then rearrange_split3 lora_head dropout_x
       else rearrange_split2 lora_head dropout_x) ;;
    (* left_result = self.forward_A(dropout_x) *)
    left_result <- call_attr "lora_A" dropout_x ;;
    (* router_weight = self.lora_R(dropout_x), outside any test of lora_router *)
    router_weight <- call_attr "lora_R" dropout_x ;;
    router_weight <-
      (if lora_router a then
         let router_weight := softmax router_weight in
         if negb (lora_router_mixer a) then diag_embed router_weight
         else if (r a <? 0)%Z then Err RuntimeError
         else reshape router_weight
                (removelast (shape router_weight) ++ [Z.to_nat (r a); Z.to_nat (r a)])
       else Ok router_weight) ;;
    (* the 3-D branch calls torch.enisum, an attribute torch does not have *)
    moe_result <-
      (if List.length (shape router_weight) =? 3
       then Err (AttributeError "enisum")
       else einsum_bnr_bnrk left_result router_weight) ;;
    (* lora_result = self.forward_B(moe_result) * self.scaling *)
    b_result <- call_attr "lora_B" moe_result ;;
    s <- match scaling a with
         | Some s => Ok s
         | None => Err (AttributeError "scaling")
         end ;;
    let lora_result := mul_scalar b_result (Q2R s) in
    lora_result <-
      (if List.length dropout_x_shape =? 3
       then rearrange_merge3 lora_head lora_result
       else rearrange_merge2 lora_head lora_result) ;;
    (* org_result = F.linear(x, transpose(self.weight, self.fan_in_fan_out), bias=self.bias) *)
    w <- getattr_tensor self "weight" ;;
    bias <- getattr_parameter self "bias" ;;
    org_result <- F_linear x (transpose (param_data w) (fan_in_fan_out a))
                    (option_map param_data bias) ;;
    add lora_result org_result.

(** Calling a module, [m(x)], dispatched on its class.  [keep] is the
    source of the dropout draws.  A bare [nn.Module] has no [forward]
    ([NotImplementedError]); the 8-bit layer is taken as the dense map it
    quantises, quantisation being as little represented as rounding. *)
Fixpoint call (keep : nat -> bool) (m : nn_Module) (x : tensor) {struct m}
  : result tensor :=
  match m with
  | mkModule c t ps ms =>
      match c with
      | ClsModule => Err NotImplementedError
      | ClsDropout p => Ok (F_dropout keep p t x)
      | ClsLinear _ _ | ClsLinear8bitLt _ _ => nn_Linear_forward m x
      | ClsConv1D => Conv1D_forward m x
      | ClsLoraLinear a =>
          Linear_forward
            (fun name x' =>
               (fix find (l : list (string * nn_Module)) : result tensor :=
                  match l with
                  | [] => Err (AttributeError name)
                  | (n, child) :: l' =>
                      if String.eqb n name then call keep child x' else find l'
                  end) ms)
            a m x
      end
  end.

(** [layer.forward(x)] for a layer of the network. *)
Definition forward (keep : nat -> bool) (self : nn_Module) (x : tensor) : result tensor :=
  call keep self x.

(** The frozen base path of an adapter layer:
    [F.linear(x, transpose(self.weight, self.fan_in_fan_out), bias=self.bias)]. *)
Definition base_path (a : LoraAttrs) (self : nn_Module) (x : tensor) : result tensor :=
  w <- getattr_tensor self "weight" ;;
  bias <- getattr_parameter self "bias" ;;
  F_linear x (transpose (param_data w) (fan_in_fan_out a)) (option_map param_data bias).

(** ** Strings: [in], [endswith], [split] and [join] *)

(** [sub in s]. *)
Definition str_in (sub s : string) : bool :=
  match String.index 0 sub s with Some _ => true | None => false end.

(** [s.endswith(suffix)]. *)
Definition endswith (s suffix : string) : bool :=
  let n := String.length s in
  let k := String.length suffix in
  (k <=? n) && String.eqb (String.substring (n - k) k s) suffix.

(** [s.split(".")]. *)
Fixpoint split_dot (s : string) : list string :=
  match s with
  | EmptyString => [EmptyString]
  | String c s' =>
      let rest := split_dot s' in
      if Ascii.eqb c "."%char then EmptyString :: rest
      else match rest with
           | h :: t => String c h :: t
           | [] => [String c EmptyString]
           end
  end.

(** [".".join(l)]. *)
Definition join_dot (l : list string) : string := String.concat "." l.

(** [prefix + ("." if prefix else "") + name], the name of a child in
    [named_modules] and of a parameter in [named_parameters]. *)
Definition qualify (prefix name : string) : string :=
  (prefix ++ (if String.eqb prefix "" then "" else ".") ++ name)%string.

(** ** Walking the module tree *)

(** [m.named_modules(prefix=prefix)]: the module itself, then its
    descendants in registration order.  The host network is taken to be a
    tree: no module object is registered at two places. *)
Fixpoint named_modules (prefix : string) (m : nn_Module) {struct m}
  : list (string * nn_Module) :=
  match m with
  | mkModule _ _ _ ms =>
      (prefix, m) ::
      (fix children (l : list (string * nn_Module)) :=
         match l with
         | [] => []
         | (name, child) :: l' =>
             named_modules (qualify prefix name) child ++ children l'
         end) ms
  end.

(** [m.modules()]. *)
Definition modules (m : nn_Module) : list nn_Module :=
  map snd (named_modules "" m).

(** The named parameters a single module contributes: entries of
    [_parameters] that are not [None]. *)
Fixpoint own_parameters (prefix : string) (ps : list (string * option nn_Parameter))
  : list (string * nn_Parameter) :=
  match ps with
  | [] => []
  | (k, Some p) :: ps' => (qualify prefix k, p) :: own_parameters prefix ps'
  | (_, None) :: ps' => own_parameters prefix ps'
  end.

(** [m.named_parameters()]. *)
Definition named_parameters (m : nn_Module) : list (string * nn_Parameter) :=
  flat_map (fun nm => own_parameters (fst nm) (_parameters (snd nm)))
    (named_modules "" m).

(** A loop [for name, module in model.named_modules(): ...] whose body
    updates the class attributes and the parameters of [module] only. *)
Fixpoint for_named_modules
    (body : string -> mclass -> list (string * option nn_Parameter)
            -> mclass * list (string * option nn_Parameter))
    (prefix : string) (m : nn_Module) {struct m} : nn_Module :=
  match m with
  | mkModule c t ps ms =>
      let '(c', ps') := body prefix c ps in
      mkModule c' t ps'
        ((fix children (l : list (string * nn_Module)) :=
            match l with
            | [] => []
            | (name, child) :: l' =>
                (name, for_named_modules body (qualify prefix name) child) :: children l'
            end) ms)
  end.

(** A loop [for n, p in model.named_parameters(): p.<...> = ...]. *)
Definition for_named_parameters (f : string -> nn_Parameter -> nn_Parameter)
    (m : nn_Module) : nn_Module :=
  for_named_modules
    (fun prefix c ps =>
       (c, map (fun kv => (fst kv, option_map (f (qualify prefix (fst kv))) (snd kv))) ps))
    "" m.

(** [m.get_submodule(target)]. *)
Fixpoint get_atoms (m : nn_Module) (atoms : list string) : result nn_Module :=
  match atoms with
  | [] => Ok m
  | item :: atoms' =>
      c <- getattr_module m item ;;
      get_atoms c atoms'
  end.

Definition get_submodule (m : nn_Module) (target : string) : result nn_Module :=
  if String.eqb target "" then Ok m else get_atoms m (split_dot target).

(** In-place mutation of the module found at [target]. *)
Fixpoint update_atoms (m : nn_Module) (atoms : list string)
    (f : nn_Module -> nn_Module) : result nn_Module :=
  match atoms with
  | [] => Ok (f m)
  | item :: atoms' =>
      c <- getattr_module m item ;;
      c' <- update_atoms c atoms' f ;;
      Ok (setattr_module m item c')
  end.

Definition update_submodule (m : nn_Module) (target : string)
    (f : nn_Module -> nn_Module) : result nn_Module :=
  if String.eqb target "" then Ok (f m) else update_atoms m (split_dot target) f.

(** ** [LoraConfig], the host network and [LoraModel] *)

Module LoraConfig.
(** The fields of [LoraConfig] read by this file, and [inference_mode]
    inherited from [PeftConfig]. *)
Record t : Type := mk {
  r : Z;
  target_modules : option target_spec;
  lora_alpha : option Q;
  lora_dropout : option Q;
  merge_weights : bool;
  fan_in_fan_out : bool;
  enable_lora : option (list bool);
  bias : string;
  lora_router : bool;
  lora_router_mixer : bool;
  inference_mode : bool
}.

Definition set_fan_in_fan_out (c : t) (v : bool) : t :=
  mk (r c) (target_modules c) (lora_alpha c) (lora_dropout c) (merge_weights c)
     v (enable_lora c) (bias c) (lora_router c) (lora_router_mixer c)
     (inference_mode c).
End LoraConfig.

(** The pretrained model handed to [LoraModel]: its module tree and the two
    attributes probed with [getattr]/[hasattr]. *)
Record HostNetwork : Type := mkHost {
  root : nn_Module;
  is_loaded_in_8bit : bool;
  hf_device_map : bool
}.

(** What the surrounding Python process provides: whether [bitsandbytes]
    can be imported, and [re.fullmatch] (truthiness of its result, or the
    exception it raises on a malformed pattern). *)
Record Env : Type := mkEnv {
  is_bnb_available : bool;
  re_fullmatch : string -> string -> result bool
}.

Record LoraModel : Type := mkLoraModel {
  peft_config : LoraConfig.t;
  model : HostNetwork
}.

Definition set_root (self : LoraModel) (m : nn_Module) : LoraModel :=
  mkLoraModel (peft_config self)
    (mkHost m (is_loaded_in_8bit (model self)) (hf_device_map (model self))).

(** A statement run on a mutable state [S]: the state it leaves behind and
    the exception it raised, if any. *)
Definition outcome (S : Type) : Type := (S * option exn)%type.

(** The test of line 156-159: does [key] match the target selector? *)
Definition target_module_found (env : Env) (cfg : LoraConfig.t) (key : string)
  : result bool :=
  match LoraConfig.target_modules cfg with
  | Some (TargetRegex pattern) => re_fullmatch env pattern key
  | Some (TargetSuffixes suffixes) =>
      Ok (existsb (fun target_key => endswith key target_key) suffixes)
  | None => Err TypeError
  end.

(** [LoraModel._get_submodules]: the parent is returned by its key, since
    it is mutated in place afterwards. *)
Definition _get_submodules (m : nn_Module) (key : string)
  : result (string * nn_Module * string) :=
  let parent_key := join_dot (removelast (split_dot key)) in
  _ <- get_submodule m parent_key ;;
  let target_name := last (split_dot key) "" in
  target <- get_submodule m key ;;
  Ok (parent_key, target, target_name).

(** [target.in_features], [target.out_features]. *)
Definition getattr_features (target : nn_Module) : result (nat * nat) :=
  match cls target with
  | ClsLinear i o | ClsLinear8bitLt i o => Ok (i, o)
  | ClsLoraLinear a => Ok (in_features a, out_features a)
  | _ => Err (AttributeError "in_features")
  end.

(** The local variables of the loop of [_find_and_replace].
    [new_module] lists the places (parent key, child name) at which the
    object bound to [new_module] is installed; it is empty while the
    variable is unbound. *)
Record locals : Type := mkLocals {
  is_target_modules_in_base_model : bool;
  new_module : list (string * string);
  gen : rng
}.

(** Lines 165-195: the construction of [new_module] for a matched
    [target].  [Ok None] when no branch binds the variable. *)
Definition construct_new_module (env : Env) (self : LoraModel) (target : nn_Module)
    (bias : bool) (g : rng) : outcome LoraModel * option (nn_Module * rng) :=
  let cfg := peft_config self in
  let merge_weights :=
    (LoraConfig.merge_weights cfg || LoraConfig.inference_mode cfg)
    && negb (hf_device_map (model self)) in
  if is_loaded_in_8bit (model self) && isinstance_Linear8bitLt target then
    ((self, Some NotImplementedError), None)
  else if isinstance_nn_Linear target
          && match LoraConfig.enable_lora cfg with None => true | Some _ => false end then
    match getattr_features target with
    | Err e => ((self, Some e), None)
    | Ok (in_f, out_f) =>
        match Linear_init in_f out_f (LoraConfig.r cfg) (LoraConfig.lora_alpha cfg)
                (LoraConfig.lora_dropout cfg) (LoraConfig.fan_in_fan_out cfg)
                merge_weights (LoraConfig.lora_router cfg)
                (LoraConfig.lora_router_mixer cfg) bias g with
        | Err e => ((self, Some e), None)
        | Ok (m, g') => ((self, None), Some (m, g'))
        end
    end
  else
    match LoraConfig.enable_lora cfg with
    | Some _ =>
        if isinstance_Conv1D target then
          match getattr_tensor target "weight" with
          | Err e => ((self, Some e), None)
          | Ok w =>
              if List.length (shape (param_data w)) =? 2
              then ((self, Some NotImplementedError), None)
              else ((self, Some ValueError_unpack), None)
          end
        else
          match getattr_features target with
          | Err e => ((self, Some e), None)
          | Ok _ =>
              let self' :=
                if LoraConfig.fan_in_fan_out cfg then
                  mkLoraModel (LoraConfig.set_fan_in_fan_out cfg false) (model self)
                else self in
              ((self', Some NotImplementedError), None)
          end
    | None => ((self, None), None)
    end.

(** [new_module.weight = old_module.weight] and, when the old bias is not
    [None], [new_module.bias = old_module.bias], applied to the object
    installed at one place. *)
Definition transplant (weight bias : option nn_Parameter) (place : string * string)
    (m : nn_Module) : nn_Module :=
  let install (parent : nn_Module) : nn_Module :=
    match dict_get (_modules parent) (snd place) with
    | None => parent
    | Some new =>
        let new := setattr_parameter new "weight" weight in
        let new := match bias with
                   | Some _ => setattr_parameter new "bias" bias
                   | None => new
                   end in
        setattr_module parent (snd place) new
    end in
  match update_submodule m (fst place) install with
  | Ok m' => m'
  | Err _ => m
  end.

(** [LoraModel._replace_module(parent, child_name, new_module, old_module)];
    [places] are the places the object [new_module] is installed at once
    [setattr(parent, child_name, new_module)] has run.  Device placement
    and the [state] of 8-bit layers are not represented. *)
Definition _replace_module (m : nn_Module) (parent_key child_name : string)
    (new : nn_Module) (places : list (string * string)) (old_module : nn_Module)
  : outcome nn_Module :=
  match update_submodule m parent_key (fun parent => setattr_module parent child_name new) with
  | Err e => (m, Some e)
  | Ok m1 =>
      match getattr_parameter old_module "weight" with
      | Err e => (m1, Some e)
      | Ok weight =>
          match getattr_parameter old_module "bias" with
          | Err e => (fold_right (transplant weight None) m1 places, Some e)
          | Ok bias => (fold_right (transplant weight bias) m1 places, None)
          end
      end
  end.

(** The body of the loop [for key in key_list] (lines 156-196). *)
Definition find_and_replace_step (env : Env) (key : string)
    (st : LoraModel * locals) : outcome (LoraModel * locals) :=
  let '(self, loc) := st in
  match target_module_found env (peft_config self) key with
  | Err e => (st, Some e)
  | Ok false => (st, None)
  | Ok true =>
      let loc := mkLocals true (new_module loc) (gen loc) in
      match _get_submodules (root (model self)) key with
      | Err e => ((self, loc), Some e)
      | Ok (parent_key, target, target_name) =>
          match getattr_parameter target "bias" with
          | Err e => ((self, loc), Some e)
          | Ok target_bias =>
              let bias := match target_bias with Some _ => true | None => false end in
              match construct_new_module env self target bias (gen loc) with
              | ((self, Some e), _) => ((self, loc), Some e)
              | ((self, None), built) =>
                  let bound :=
                    match built with
                    | Some (new, g') =>
                        Ok (new, [(parent_key, target_name)], g')
                    | None =>
                        match new_module loc with
                        | [] => Err (UnboundLocalError "new_module")
                        | (pk, cn) :: _ =>
                            parent <- get_submodule (root (model self)) pk ;;
                            new <- getattr_module parent cn ;;
                            Ok (new, (parent_key, target_name) :: new_module loc, gen loc)
                        end
                    end in
                  match bound with
                  | Err e => ((self, loc), Some e)
                  | Ok (new, places, g') =>
                      let '(m', raised) :=
                        _replace_module (root (model self)) parent_key target_name
                          new places target in
                      ((set_root self m', mkLocals true places g'), raised)
                  end
              end
          end
      end
  end.

Fixpoint find_and_replace_loop (env : Env) (key_list : list string)
    (st : LoraModel * locals) : outcome (LoraModel * locals) :=
  match key_list with
  | [] => (st, None)
  | key :: key_list' =>
      match find_and_replace_step env key st with
      | (st', None) => find_and_replace_loop env key_list' st'
      | (st', Some e) => (st', Some e)
      end
  end.

(** [LoraModel._find_and_replace]. *)
Definition _find_and_replace (env : Env) (self : LoraModel) (g : rng)
  : outcome (LoraModel * rng) :=
  let loaded_in_8bit := is_loaded_in_8bit (model self) in
  if loaded_in_8bit && negb (is_bnb_available env) then ((self, g), Some ImportError)
  else
    let key_list := map fst (named_modules "" (root (model self))) in
    match find_and_replace_loop env key_list (self, mkLocals false [] g) with
    | ((self', loc), Some e) => ((self', gen loc), Some e)
    | ((self', loc), None) =>
        if negb (is_target_modules_in_base_model loc) then
          ((self', gen loc),
           Some (ValueError_target_modules_not_found
                   (LoraConfig.target_modules (peft_config self'))))
        else ((self', gen loc), None)
    end.

(** ** The trainable mask and the adapter toggle *)

Definition set_requires_grad (v : bool) (p : nn_Parameter) : nn_Parameter :=
  mkParameter (param_data p) v.

(** [mark_only_lora_as_trainable(model, bias)]. *)
Definition mark_only_lora_as_trainable (m : nn_Module) (bias : string) : outcome nn_Module :=
  let m :=
    for_named_parameters
      (fun n p => if negb (str_in "lora_" n) then set_requires_grad false p else p) m in
  if String.eqb bias "none" then (m, None)
  else if String.eqb bias "all" then
    (for_named_parameters
       (fun n p => if str_in "bias" n then set_requires_grad true p else p) m, None)
  else if String.eqb bias "lora_only" then
    (for_named_modules
       (fun _ c ps =>
          match c, dict_get ps "bias" with
          | ClsLoraLinear _, Some (Some b) =>
              (c, dict_set ps "bias" (Some (set_requires_grad true b)))
          | _, _ => (c, ps)
          end) "" m, None)
  else (m, Some NotImplementedError).

(** [LoraModel._set_adapter_layers(enabled)]. *)
Definition _set_adapter_layers (enabled : bool) (self : LoraModel) : LoraModel :=
  set_root self
    (for_named_modules
       (fun _ c ps =>
          match c with
          | ClsLoraLinear a =>
              (ClsLoraLinear (set_disable_adapters a (if enabled then false else true)), ps)
          | _ => (c, ps)
          end) "" (root (model self))).

Definition enable_adapter_layers (self : LoraModel) : LoraModel :=
  _set_adapter_layers true self.

Definition disable_adapter_layers (self : LoraModel) : LoraModel :=
  _set_adapter_layers false self.

(** [LoraModel.__init__(config, model)]. *)
Definition LoraModel_init (env : Env) (config : LoraConfig.t) (host : HostNetwork) (g : rng)
  : outcome (LoraModel * rng) :=
  let self := mkLoraModel config host in
  match _find_and_replace env self g with
  | (st, Some e) => (st, Some e)
  | ((self, g'), None) =>
      let '(m, raised) :=
        mark_only_lora_as_trainable (root (model self)) (LoraConfig.bias (peft_config self)) in
      ((set_root self m, g'), raised)
  end.


(** ** Well-formed adapter layers *)

(** A bias-free [nn.Linear] as created for the adapter projections. *)
Definition projection (tr : bool) (in_f out_f : nat) (w : nn_Parameter) : nn_Module :=
  mkModule (ClsLinear in_f out_f) tr [("weight", Some w); ("bias", None)] [].


(** The sub-modules of an adapter layer in registration order: the
    [nn.Dropout] (unless [lora_dropout] is the identity lambda), then
    ["lora_A"], ["lora_R"] (when the router is on) and ["lora_B"]. *)
Definition adapter_children (a : LoraAttrs) (p : Q) (tr : bool)
    (wA wR wB : nn_Parameter) : list (string * nn_Module) :=
  (if lora_dropout_is_lambda a then []
   else [("lora_dropout", mkModule (ClsDropout p) tr [] [])])
  ++ (if (r a >? 0)%Z then
        [("lora_A", projection tr (in_features a / lora_head) (Z.to_nat (r a)) wA)]
        ++ (if lora_router a then
              [("lora_R",
                projection tr (in_features a / lora_head)
                  (if lora_router_mixer a then Z.to_nat (r a ^ 2) else Z.to_nat (r a)) wR)]
            else [])
        ++ [("lora_B", projection tr (Z.to_nat (r a)) (out_features a / lora_head) wB)]
      else []).

(** The shape an adapter layer has when it leaves [Linear.__init__]. *)
Definition adapter_layer (a : LoraAttrs) (p : Q)
    (w : nn_Parameter) (b : option nn_Parameter) (wA wR wB : nn_Parameter) : nn_Module :=
  mkModule (ClsLoraLinear a) true [("weight", Some w); ("bias", b)]
    (adapter_children a p true wA wR wB).

(** The call [self.<name>(x)] of a sub-module registered in [ms]. *)
Definition call_attr (keep : nat -> bool) (ms : list (string * nn_Module))
    (name : string) (x : tensor) : result tensor :=
  match dict_get ms name with
  | Some child => call keep child x
  | None => Err (AttributeError name)
  end.

(** ** Sample objects *)

Definition ones : rng := fun _ => 1%R.

Definition sample_input3 : tensor := mkTensor [1; 1; 4] [1%R; 2%R; 3%R; 4%R].
Definition sample_input2 : tensor := mkTensor [1; 4] [1%R; 2%R; 3%R; 4%R].

(** [Linear(4, 4, r=rk, lora_alpha=1, lora_dropout=0.0, merge_weights=True,
    lora_router=router, bias=True)]. *)
Definition sample_layer (rk : Z) (router : bool) : result (nn_Module * rng) :=
  Linear_init 4 4 rk (Some 1%Q) (Some 0%Q) false true router false true ones.

Definition layer_of (built : result (nn_Module * rng)) : nn_Module :=
  match built with
  | Ok (l, _) => l
  | Err _ => mkModule ClsModule false [] []
  end.

Definition sample_dense (in_f out_f : nat) : nn_Module :=
  mkModule (ClsLinear in_f out_f) true
    [("weight", Some (mkParameter (full [out_f; in_f] 1%R) true));
     ("bias", Some (mkParameter (full [out_f] 1%R) true))] [].

(** A host with one block holding two dense layers ["q"] and ["k"], and a
    dense ["head"]. *)
Definition sample_host : HostNetwork :=
  mkHost
    (mkModule ClsModule true []
       [("block", mkModule ClsModule true [] [("q", sample_dense 4 4); ("k", sample_dense 4 4)]);
        ("head", sample_dense 4 2)])
    false false.

Definition sample_env : Env := mkEnv false (fun pattern key => Ok (String.eqb pattern key)).

Definition sample_config (target : option target_spec) : LoraConfig.t :=
  LoraConfig.mk 1 target (Some 1%Q) (Some 0%Q) false false None "none" true false false.

(** The network of [sample_host] after [_find_and_replace] with the
    selector [["q"]]. *)
Definition sample_adapted : nn_Module :=
  root (model (fst (fst (_find_and_replace sample_env
                           (mkLoraModel (sample_config (Some (TargetSuffixes ["q"])))
                              sample_host) ones)))).

(** [sample_host] carrying the marker [is_loaded_in_8bit = True]. *)
Definition sample_host_8bit : HostNetwork := mkHost (root sample_host) true false.

(** An adapter layer in any mode: the frozen weight, the bias, and the
    sub-modules of [adapter_children]. *)
Definition adapter_instance (a : LoraAttrs) (p : Q) (tr : bool)
    (w : nn_Parameter) (b : option nn_Parameter) (wA wR wB : nn_Parameter) : nn_Module :=
  mkModule (ClsLoraLinear a) tr [("weight", Some w); ("bias", b)]
    (adapter_children a p tr wA wR wB).

(** The invariant on the shapes of the parameters of an adapter layer of
    rank [r > 0] with the router on: what [Linear.__init__] establishes and
    an optimiser step preserves. *)
Record adapter_shapes (a : LoraAttrs) (w : nn_Parameter) (b : option nn_Parameter)
    (wA wR wB : nn_Parameter) : Prop := mkAdapterShapes {
  shape_weight :
    shape (param_data w)
    = if fan_in_fan_out a then [in_features a; out_features a]
      else [out_features a; in_features a];
  shape_bias :
    match b with
    | Some pb => shape (param_data pb) = [out_features a]
    | None => True
    end;
  shape_lora_A :
    shape (param_data wA) = [Z.to_nat (r a); in_features a / lora_head];
  shape_lora_R :
    shape (param_data wR)
    = [if lora_router_mixer a then Z.to_nat (r a ^ 2) else Z.to_nat (r a);
       in_features a / lora_head];
  shape_lora_B :
    shape (param_data wB) = [out_features a / lora_head; Z.to_nat (r a)]
}.

(** The gate built from the router output: the softmax, spread on a
    diagonal (plain router) or reshaped to [r] by [r] (mixer). *)
Definition gate_of (a : LoraAttrs) (router_weight : tensor) : tensor :=
  let rn := Z.to_nat (r a) in
  if lora_router_mixer a
  then mkTensor (removelast (shape router_weight) ++ [rn; rn]) (data (softmax router_weight))
  else diag_out (softmax router_weight) rn.

(** The low-rank contribution [lora_result] that [forward] computes for a
    3-D input [x] of shape (bsz, sq, in_features) when every step is
    accepted, for the router-enabled layer with scaling [s]. *)
Definition lora_result_3d (keep : nat -> bool) (a : LoraAttrs) (p : Q) (tr : bool)
    (wA wR wB : tensor) (s : Q) (x : tensor) (bsz sq : nat) : tensor :=
  let in_h := in_features a / lora_head in
  let out_h := out_features a / lora_head in
  let rn := Z.to_nat (r a) in
  let dropout_x := if lora_dropout_is_lambda a then x else F_dropout keep p tr x in
  let dropout_x := split3_out lora_head dropout_x bsz sq in_h in
  let left_result := linear_out dropout_x wA None rn in_h in
  let router_weight :=
    linear_out dropout_x wR None
      (if lora_router_mixer a then Z.to_nat (r a ^ 2) else rn) in_h in
  let moe_result := einsum_out left_result (gate_of a router_weight) (bsz * lora_head) sq rn rn in
  merge3_out lora_head (mul_scalar (linear_out moe_result wB None out_h rn) (Q2R s))
    (bsz * lora_head) sq out_h.

(** The frozen base path on accepted shapes. *)
Definition org_result_of (a : LoraAttrs) (w : tensor) (b : option tensor) (x : tensor) : tensor :=
  linear_out x (transpose w (fan_in_fan_out a)) b (out_features a) (in_features a).

(** The frozen base path of a layer of the network. *)
Definition frozen_base_path (l : nn_Module) (x : tensor) : result tensor :=
  match cls l with
  | ClsLoraLinear a => base_path a l x
  | _ => Err TypeError
  end.

(** The attributes of a layer constructed like [a] but with another
    [lora_alpha]: [scaling] is [lora_alpha / r]. *)
Definition with_alpha (a : LoraAttrs) (alpha : Q) : LoraAttrs :=
  mkLoraAttrs (in_features a) (out_features a) (r a) (Some alpha)
    (lora_dropout_is_lambda a) (merged a) (merge_weights a) (disable_adapters a)
    (fan_in_fan_out a) (lora_router a) (lora_router_mixer a)
    (Some (alpha / inject_Z (r a))%Q).

(** A trained adapter layer: [Linear(4, 4, r=1, lora_alpha=1,
    lora_dropout=0.0, lora_router=True)] whose projections hold non-zero
    weights. *)
Definition sample_attrs : LoraAttrs :=
  mkLoraAttrs 4 4 1 (Some 1%Q) true false true false false true false
    (Some (1 / inject_Z 1)%Q).

Definition sample_instance (a : LoraAttrs) : nn_Module :=
  adapter_instance a 0 true
    (mkParameter (full [4; 4] 1%R) false)
    (Some (mkParameter (full [4] 1%R) true))
    (mkParameter (full [1; 1] 1%R) true)
    (mkParameter (full [1; 1] 1%R) true)
    (mkParameter (full [1; 1] 2%R) true).

(** The adapter attributes of a layer of the network, if it is one. *)
Definition lora_attrs (m : nn_Module) : option LoraAttrs :=
  match cls m with
  | ClsLoraLinear a => Some a
  | _ => None
  end.

(** A layer with two features per head: [Linear(8, 8, r=1, lora_alpha=1,
    lora_dropout=0.0, lora_router=True, bias=False)] with a zero frozen
    weight, [A = [[1, 10]]], [R = [[0, 0]]] and [B = [[1], [2]]]. *)
Definition sample_attrs8 : LoraAttrs :=
  mkLoraAttrs 8 8 1 (Some 1%Q) true false false false false true false
    (Some (1 / inject_Z 1)%Q).

Definition sample_instance8 : nn_Module :=
  adapter_instance sample_attrs8 0 true
    (mkParameter (zeros [8; 8]) false) None
    (mkParameter (mkTensor [1; 2] [1%R; 10%R]) true)
    (mkParameter (zeros [1; 2]) true)
    (mkParameter (mkTensor [2; 1] [1%R; 2%R]) true).

Definition sample_input8 : tensor :=
  mkTensor [1; 1; 8] [1%R; 2%R; 3%R; 4%R; 5%R; 6%R; 7%R; 8%R].

(** ** The loop over the children inside [train] *)

(** [for module in self.children(): module.train(mode)], the loop of
    [nn.Module.train] as it is written inside [train]. *)
Definition train_children (mode : bool) : list (string * nn_Module)
  -> result (list (string * nn_Module)) :=
  fix children (l : list (string * nn_Module)) :=
    match l with
    | [] => Ok []
    | (name, child) :: l' =>
        child' <- train mode child ;;
        rest <- children l' ;;
        Ok ((name, child') :: rest)
    end.

(** The class attributes of a module after [train]: [Linear.train] clears
    [merged], the other classes keep theirs. *)
Definition cls_after_train (c : mclass) : mclass :=
  match c with
  | ClsLoraLinear a => ClsLoraLinear (set_merged a false)
  | _ => c
  end.

(** Every adapter layer of the network has the sub-modules that
    [Linear.train] and [Linear.eval] look up. *)
Definition has_projections (l : nn_Module) : Prop :=
  forall a, cls l = ClsLoraLinear a ->
    hasattr_module l "lora_A" = true
    /\ (lora_router a = true -> hasattr_module l "lora_R" = true)
    /\ hasattr_module l "lora_B" = true.

(** ** Names of registered modules *)

(** [name] contains no ["."]. *)
Fixpoint dot_free (name : string) : bool :=
  match name with
  | EmptyString => true
  | String c s' => negb (Ascii.eqb c "."%char) && dot_free s'
  end.

(** The invariant that [nn.Module.add_module] and the attribute
    dictionaries maintain on a module tree: below every module the child
    names are pairwise distinct, and none is empty or contains a dot. *)
Definition well_named (m : nn_Module) : Prop :=
  forall l, In l (modules m) ->
    NoDup (map fst (_modules l))
    /\ forall n, In n (map fst (_modules l)) -> n <> EmptyString /\ dot_free n = true.

(** The qualified name reached from [prefix] along a path of child names. *)
Definition path_name (prefix : string) (atoms : list string) : string :=
  fold_left qualify atoms prefix.

(** ** Rows of a tensor *)

(** Two tensors agree on the row [(bi, si)] of their last axis. *)
Definition same_row (t t' : tensor) (bi si d : nat) : Prop :=
  forall k, k < d -> tget t [bi; si; k] = tget t' [bi; si; k].

(** ** Further sample objects *)

(** [sample_input3] with the features of the heads 1, 2 and 3 changed. *)
Definition sample_input3_other : tensor := mkTensor [1; 1; 4] [1%R; 7%R; 8%R; 9%R].
(** * Properties *)

(** ** The result monad and dictionaries *)

Lemma bind_ok_inv {A B : Type} (m : result A) (k : A -> result B) (b : B) :
  bind m k = Ok b -> exists a, m = Ok a /\ k a = Ok b.
Proof.
  destruct m as [a|e]; simpl; intros H.
  - exists a. auto.
  - discriminate.
Qed.

Lemma bind_ext {A B : Type} (m : result A) (k k' : A -> result B) :
  (forall a, k a = k' a) -> bind m k = bind m k'.
Proof. intros H. destruct m; simpl; auto. Qed.

Lemma dict_get_set_same {V : Type} (d : list (string * V)) (k : string) (v : V) :
  dict_get (dict_set d k v) k = Some v.
Proof.
  induction d as [|[k' v'] d IH]; simpl.
  - now rewrite String.eqb_refl.
  - destruct (String.eqb k' k) eqn:E; simpl; rewrite E; auto.
Qed.

(** ** Strings *)

(** [str_in] is the substring test: for a non-empty [sub], [sub in s]
    holds exactly when [sub] is read at some position of [s]. *)
Lemma str_in_spec (sub s : string) :
  sub <> EmptyString ->
  (str_in sub s = true <-> exists m, String.substring m (String.length sub) s = sub).
Proof.
  intros Hne. unfold str_in. split.
  - destruct (String.index 0 sub s) as [m|] eqn:E; [|discriminate].
    intros _. exists m. now apply (String.index_correct1 0).
  - intros (m & Hm).
    destruct (String.index 0 sub s) as [k|] eqn:E; [reflexivity|].
    exfalso. apply (String.index_correct3 0 m sub s E Hne); [lia|exact Hm].
Qed.

Lemma substring_append_skip (pre suf : string) :
  String.substring (String.length pre) (String.length suf) (pre ++ suf) = suf.
Proof.
  induction pre as [|c pre IH]; cbn [String.length String.append String.substring].
  - induction suf as [|c suf IHs]; cbn [String.length String.substring]; [reflexivity|].
    now rewrite IHs.
  - exact IH.
Qed.

Lemma length_append (s1 s2 : string) :
  String.length (s1 ++ s2) = String.length s1 + String.length s2.
Proof.
  induction s1 as [|c s1 IH]; cbn [String.length String.append]; [reflexivity|].
  now rewrite IH.
Qed.

(** A name ends with each of its suffixes. *)
Lemma endswith_append (pre suf : string) : endswith (pre ++ suf) suf = true.
Proof.
  unfold endswith. rewrite length_append.
  replace (String.length pre + String.length suf - String.length suf)
    with (String.length pre) by lia.
  rewrite substring_append_skip, String.eqb_refl.
  replace (String.length suf <=? String.length pre + String.length suf) with true
    by (symmetry; apply Nat.leb_le; lia).
  reflexivity.
Qed.

(** ** Tensors: indices, offsets and tabulation *)

Lemma length_flat_map_cons {A : Type} (L : list (list A)) (l : list A) :
  List.length (flat_map (fun i => map (cons i) L) l) = List.length l * List.length L.
Proof.
  induction l as [|i l IH]; simpl; [reflexivity|].
  now rewrite length_app, length_map, IH.
Qed.

Lemma indices_length (sh : list nat) : List.length (indices sh) = numel sh.
Proof.
  induction sh as [|n sh IH]; simpl; [reflexivity|].
  now rewrite length_flat_map_cons, length_seq, IH.
Qed.

Lemma map_add_seq (a n : nat) : map (fun k => a + k) (seq 0 n) = seq a n.
Proof.
  induction n as [|n IH] in a |- *; simpl; [reflexivity|].
  rewrite Nat.add_0_r. f_equal.
  rewrite <- seq_shift, map_map, <- (IH (S a)).
  apply map_ext. intros k. lia.
Qed.

Lemma ravel_indices (sh : list nat) :
  map (ravel sh) (indices sh) = seq 0 (numel sh).
Proof.
  induction sh as [|n sh IH]; [reflexivity|].
  cbn [indices numel fold_right]. fold (numel sh).
  assert (H : forall a m,
             map (ravel (n :: sh))
               (flat_map (fun i => map (cons i) (indices sh)) (seq a m))
             = seq (a * numel sh) (m * numel sh)).
  { intros a m. induction m as [|m IHm] in a |- *; [reflexivity|].
    cbn [seq flat_map]. rewrite map_app, map_map. cbn [ravel].
    rewrite IHm. cbn [Nat.mul]. rewrite seq_app. f_equal.
    - rewrite <- (map_add_seq (a * numel sh)), <- IH, map_map. reflexivity.
    - f_equal. lia. }
  rewrite (H 0 n). reflexivity.
Qed.

Lemma map_nth_seq {A : Type} (l : list A) (d : A) :
  map (fun k => nth k l d) (seq 0 (List.length l)) = l.
Proof.
  induction l as [|x l IH]; [reflexivity|].
  cbn [List.length seq map nth]. f_equal.
  rewrite <- seq_shift, map_map. exact IH.
Qed.

Lemma wf_tabulate (sh : list nat) (f : list nat -> R) : wf (tabulate sh f).
Proof. unfold wf, tabulate; simpl. now rewrite length_map, indices_length. Qed.

Lemma wf_full (sh : list nat) (v : R) : wf (full sh v).
Proof. unfold wf, full; simpl. apply repeat_length. Qed.

Lemma wf_rng_fill (g : rng) (sh : list nat) : wf (fst (rng_fill g sh)).
Proof. unfold wf; simpl. now rewrite length_map, length_seq. Qed.

Lemma wf_tmap (f : R -> R) (t : tensor) : wf t -> wf (tmap f t).
Proof. unfold wf, tmap; simpl. now rewrite length_map. Qed.

(** Reading every position of a tensor rebuilds it. *)
Lemma tabulate_tget (t : tensor) : wf t -> tabulate (shape t) (tget t) = t.
Proof.
  intros H. destruct t as [sh d]. unfold wf in H; simpl in H.
  unfold tabulate, tget; simpl. f_equal.
  rewrite <- (map_map (ravel sh) (fun k => nth k d 0%R)), ravel_indices, <- H.
  apply map_nth_seq.
Qed.

Lemma shape_tabulate (sh : list nat) (f : list nat -> R) : shape (tabulate sh f) = sh.
Proof. reflexivity. Qed.

Lemma tmap_tabulate (g : R -> R) (sh : list nat) (f : list nat -> R) :
  tmap g (tabulate sh f) = tabulate sh (fun idx => g (f idx)).
Proof. unfold tmap, tabulate. cbn [shape data]. now rewrite map_map. Qed.

Lemma tabulate_ext (sh : list nat) (f g : list nat -> R) :
  (forall idx, In idx (indices sh) -> f idx = g idx) -> tabulate sh f = tabulate sh g.
Proof. intros H. unfold tabulate. f_equal. now apply map_ext_in. Qed.

(** Every listed multi-index is within the shape. *)
Lemma indices_spec (sh idx : list nat) :
  In idx (indices sh) -> Forall2 lt idx sh.
Proof.
  induction sh as [|n sh IH] in idx |- *; cbn [indices]; intros H.
  - destruct H as [<-|[]]. constructor.
  - apply in_flat_map in H. destruct H as (i & Hi & H).
    apply in_map_iff in H. destruct H as (idx' & <- & H).
    apply in_seq in Hi. constructor; [lia|now apply IH].
Qed.

Lemma nth_ravel_indices (sh idx d : list nat) :
  In idx (indices sh) -> nth (ravel sh idx) (indices sh) d = idx.
Proof.
  intros H. destruct (In_nth _ _ d H) as (k & Hk & Hnth).
  assert (Hr : ravel sh idx = k).
  { rewrite <- Hnth.
    rewrite <- (map_nth (ravel sh) (indices sh) d k).
    rewrite (nth_indep _ (ravel sh d) 0)
      by (rewrite length_map; exact Hk).
    rewrite ravel_indices. rewrite indices_length in Hk. now rewrite seq_nth. }
  now rewrite Hr.
Qed.

Lemma ravel_lt (sh idx : list nat) :
  In idx (indices sh) -> ravel sh idx < numel sh.
Proof.
  intros H. destruct (In_nth _ _ [] H) as (k & Hk & Hnth).
  rewrite <- Hnth.
  rewrite <- (map_nth (ravel sh) (indices sh) [] k).
  rewrite (nth_indep _ (ravel sh []) 0) by (rewrite length_map; exact Hk).
  rewrite ravel_indices. rewrite indices_length in Hk. rewrite seq_nth; lia.
Qed.

(** Reading a tabulated tensor inside its shape returns the tabulated
    value. *)
Lemma tget_tabulate (sh : list nat) (f : list nat -> R) (idx : list nat) :
  In idx (indices sh) -> tget (tabulate sh f) idx = f idx.
Proof.
  intros H. unfold tget, tabulate. cbn [shape data].
  rewrite (nth_indep _ 0%R (f []))
    by (rewrite length_map, indices_length; now apply ravel_lt).
  rewrite map_nth. now rewrite nth_ravel_indices.
Qed.

Lemma tget_tabulate_zero (sh : list nat) (f : list nat -> R) :
  (forall i, In i (indices sh) -> f i = 0%R) ->
  forall idx, tget (tabulate sh f) idx = 0%R.
Proof.
  intros H idx. unfold tget, tabulate. cbn [shape data].
  destruct (nth_in_or_default (ravel sh idx) (map f (indices sh)) 0%R) as [Hin|Hd];
    [|exact Hd].
  apply in_map_iff in Hin. destruct Hin as (i & <- & Hi). now apply H.
Qed.

Lemma broadcast_rev_refl (l : list nat) : broadcast_rev l l = Some l.
Proof.
  induction l as [|x l IH]; [reflexivity|].
  cbn [broadcast_rev]. now rewrite IH, Nat.eqb_refl.
Qed.

Lemma broadcast_shapes_refl (sh : list nat) : broadcast_shapes sh sh = Some sh.
Proof.
  unfold broadcast_shapes. rewrite broadcast_rev_refl. cbn [option_map].
  now rewrite rev_involutive.
Qed.

Lemma bcast_index_id (sh idx : list nat) :
  In idx (indices sh) -> bcast_index sh idx = idx.
Proof.
  intros H. apply indices_spec in H. unfold bcast_index.
  rewrite (Forall2_length H), Nat.sub_diag. cbn [skipn].
  induction H as [|i n idx sh Hlt H IH]; [reflexivity|].
  cbn [combine map fst snd]. rewrite IH. f_equal.
  destruct (Nat.eqb_spec n 1); lia.
Qed.

Lemma tabulate_empty (sh : list nat) (f : list nat -> R) :
  numel sh = 0 -> tabulate sh f = mkTensor sh [].
Proof.
  intros H. unfold tabulate. f_equal.
  destruct (indices sh) as [|i l] eqn:E; [reflexivity|].
  pose proof (indices_length sh) as Hl. rewrite E, H in Hl. discriminate.
Qed.

(** Broadcasting two 3-D shapes that differ at most in the last
    dimension. *)
Lemma broadcast_shapes_last (b s m o : nat) :
  broadcast_shapes [b; s; m] [b; s; o]
  = if m =? o then Some [b; s; m]
    else if m =? 1 then Some [b; s; o]
    else if o =? 1 then Some [b; s; m]
    else None.
Proof.
  unfold broadcast_shapes. cbn [rev app broadcast_rev]. rewrite !Nat.eqb_refl.
  destruct (m =? o); [reflexivity|].
  destruct (m =? 1); [reflexivity|].
  destruct (o =? 1); reflexivity.
Qed.

(** On operands of one shape a broadcast operation is pointwise. *)
Lemma broadcast_op_same_shape (op : R -> R -> R) (a b : tensor) :
  shape a = shape b ->
  broadcast_op op a b
  = Ok (tabulate (shape a) (fun idx => op (tget a idx) (tget b idx))).
Proof.
  intros Hs. unfold broadcast_op, broadcast_out. rewrite <- Hs, broadcast_shapes_refl.
  f_equal. apply tabulate_ext. intros idx Hin. now rewrite bcast_index_id.
Qed.

(** Reading a rescaled tensor, inside or outside its shape. *)
Lemma tget_mul_scalar (t : tensor) (c : R) (idx : list nat) :
  tget (mul_scalar t c) idx = (tget t idx * c)%R.
Proof.
  unfold tget, mul_scalar, tmap. cbn [shape data].
  rewrite <- (map_nth (fun v => (v * c)%R)). f_equal. lra.
Qed.

Lemma tget_full (sh : list nat) (v : R) (idx : list nat) :
  tget (full sh v) idx = v \/ tget (full sh v) idx = 0%R.
Proof.
  unfold tget, full. cbn [shape data].
  destruct (nth_in_or_default (ravel sh idx) (repeat v (numel sh)) 0%R) as [H|H].
  - left. now apply repeat_spec in H.
  - right. exact H.
Qed.

Lemma tget_zeros (sh idx : list nat) : tget (zeros sh) idx = 0%R.
Proof. destruct (tget_full sh 0%R idx); assumption. Qed.

Lemma Rsum_zero {A : Type} (f : A -> R) (l : list A) :
  (forall a, f a = 0%R) -> Rsum (map f l) = 0%R.
Proof.
  intros H. induction l as [|a l IH]; cbn [map Rsum fold_right]; [reflexivity|].
  fold (Rsum (map f l)). rewrite H, IH. lra.
Qed.

(** ** Tensor operations: accepted shapes and inversion *)

Lemma F_linear_ok (x weight : tensor) (bias : option tensor) (out_f in_f : nat)
    (lead : list nat) :
  shape weight = [out_f; in_f] ->
  shape x = lead ++ [in_f] ->
  match bias with None => True | Some b => shape b = [out_f] end ->
  F_linear x weight bias = Ok (linear_out x weight bias out_f in_f).
Proof.
  intros Hw Hx Hb. unfold F_linear. rewrite Hw, Hx, rev_unit, Nat.eqb_refl.
  destruct bias as [b|]; [|reflexivity].
  destruct (list_eq_dec Nat.eq_dec (shape b) [out_f]); [reflexivity|contradiction].
Qed.

Lemma rearrange_split3_ok (t : tensor) (b s hd : nat) :
  shape t = [b; s; hd] -> hd mod lora_head = 0 ->
  rearrange_split3 lora_head t = Ok (split3_out lora_head t b s (hd / lora_head)).
Proof.
  intros Hs Hm. unfold rearrange_split3. rewrite Hs, Hm. reflexivity.
Qed.

Lemma rearrange_split2_ok (t : tensor) (b hd : nat) :
  shape t = [b; hd] -> hd mod lora_head = 0 ->
  rearrange_split2 lora_head t = Ok (split2_out lora_head t b (hd / lora_head)).
Proof.
  intros Hs Hm. unfold rearrange_split2. rewrite Hs, Hm. reflexivity.
Qed.

Lemma rearrange_merge3_ok (t : tensor) (b s d : nat) :
  shape t = [b * lora_head; s; d] ->
  rearrange_merge3 lora_head t = Ok (merge3_out lora_head t (b * lora_head) s d).
Proof.
  intros Hs. unfold rearrange_merge3. rewrite Hs.
  rewrite Nat.Div0.mod_mul. reflexivity.
Qed.

Lemma einsum_bnr_bnrk_ok (left gate : tensor) (b n r k : nat) :
  shape left = [b; n; r] -> shape gate = [b; n; r; k] ->
  einsum_bnr_bnrk left gate = Ok (einsum_out left gate b n r k).
Proof.
  intros Hl Hg. unfold einsum_bnr_bnrk. rewrite Hl, Hg, !Nat.eqb_refl. reflexivity.
Qed.

Lemma shape_F_dropout (keep : nat -> bool) (p : Q) (tr : bool) (x : tensor) :
  shape (F_dropout keep p tr x) = shape x.
Proof.
  unfold F_dropout.
  destruct (tr && _); [|reflexivity]. destruct (Qeq_bool p 1); reflexivity.
Qed.

Lemma F_linear_inv (x weight : tensor) (bias : option tensor) (y : tensor) :
  F_linear x weight bias = Ok y ->
  exists out_f in_f lead,
    shape weight = [out_f; in_f] /\ shape x = lead ++ [in_f]
    /\ y = linear_out x weight bias out_f in_f.
Proof.
  unfold F_linear.
  destruct (shape weight) as [|o [|i [|]]]; try discriminate.
  destruct (rev (shape x)) as [|d l] eqn:E; [discriminate|].
  destruct (d =? i) eqn:Ed; [|discriminate].
  apply Nat.eqb_eq in Ed. subst d.
  destruct (match bias with None => true | Some _ => _ end); [|discriminate].
  cbn [andb]. intros H. injection H as <-.
  exists o, i, (rev l). repeat split.
  rewrite <- (rev_involutive (shape x)), E. reflexivity.
Qed.

Lemma rearrange_split3_inv (h : nat) (t t' : tensor) :
  rearrange_split3 h t = Ok t' ->
  exists b s hd,
    shape t = [b; s; hd] /\ hd mod h = 0 /\ t' = split3_out h t b s (hd / h).
Proof.
  unfold rearrange_split3.
  destruct (shape t) as [|b [|s [|hd [|]]]]; try discriminate.
  destruct (hd mod h =? 0) eqn:E; [|discriminate].
  destruct (negb (h =? 0)); [|discriminate].
  cbn [andb]. intros H. injection H as <-.
  apply Nat.eqb_eq in E. now exists b, s, hd.
Qed.

Lemma rearrange_split2_inv (h : nat) (t t' : tensor) :
  rearrange_split2 h t = Ok t' ->
  exists b hd,
    shape t = [b; hd] /\ hd mod h = 0 /\ t' = split2_out h t b (hd / h).
Proof.
  unfold rearrange_split2.
  destruct (shape t) as [|b [|hd [|]]]; try discriminate.
  destruct (hd mod h =? 0) eqn:E; [|discriminate].
  destruct (negb (h =? 0)); [|discriminate].
  cbn [andb]. intros H. injection H as <-.
  apply Nat.eqb_eq in E. now exists b, hd.
Qed.

Lemma reshape_inv (t : tensor) (sh : list nat) (t' : tensor) :
  reshape t sh = Ok t' -> shape t' = sh.
Proof.
  unfold reshape. destruct (numel sh =? numel (shape t)); [|discriminate].
  intros H. injection H as <-. reflexivity.
Qed.

Lemma diag_embed_inv (t t' : tensor) :
  diag_embed t = Ok t' -> exists n, shape t' = shape t ++ [n].
Proof.
  unfold diag_embed. destruct (rev (shape t)) as [|n l]; [discriminate|].
  intros H. injection H as <-. now exists n.
Qed.

(** ** Module trees: induction and traversal *)

Lemma nn_Module_ind (P : nn_Module -> Prop) :
  (forall c t ps ms, Forall (fun nc => P (snd nc)) ms -> P (mkModule c t ps ms)) ->
  forall m, P m.
Proof.
  intros H.
  refine (fix IH (m : nn_Module) : P m :=
            match m with
            | mkModule c t ps ms =>
                H c t ps ms
                  ((fix go (l : list (string * nn_Module)) : Forall (fun nc => P (snd nc)) l :=
                      match l with
                      | [] => Forall_nil _
                      | nc :: l' => Forall_cons nc _ (go l')
                      end) ms)
            end).
  destruct nc as [n c']. exact (IH c').
Qed.

Lemma named_modules_eq (prefix : string) (c : mclass) (t : bool)
    (ps : list (string * option nn_Parameter)) (ms : list (string * nn_Module)) :
  named_modules prefix (mkModule c t ps ms)
  = (prefix, mkModule c t ps ms)
    :: flat_map (fun nc => named_modules (qualify prefix (fst nc)) (snd nc)) ms.
Proof.
  cbn [named_modules]. f_equal.
  induction ms as [|[n ch] ms IH]; [reflexivity|].
  cbn [flat_map fst snd]. now rewrite IH.
Qed.

Lemma for_named_modules_eq body (prefix : string) (c : mclass) (t : bool)
    (ps : list (string * option nn_Parameter)) (ms : list (string * nn_Module)) :
  for_named_modules body prefix (mkModule c t ps ms)
  = mkModule (fst (body prefix c ps)) t (snd (body prefix c ps))
      (map (fun nc => (fst nc, for_named_modules body (qualify prefix (fst nc)) (snd nc))) ms).
Proof.
  cbn [for_named_modules]. destruct (body prefix c ps) as [c' ps']. cbn [fst snd]. f_equal.
  induction ms as [|[n ch] ms IH]; [reflexivity|].
  cbn [map fst snd]. now rewrite IH.
Qed.

(** The loop visits every module once and keeps every name. *)
Lemma named_modules_for_named_modules body (m : nn_Module) :
  forall prefix,
    named_modules prefix (for_named_modules body prefix m)
    = map (fun nm => (fst nm, for_named_modules body (fst nm) (snd nm)))
        (named_modules prefix m).
Proof.
  induction m as [c t ps ms IH] using nn_Module_ind. intros prefix.
  rewrite for_named_modules_eq, !named_modules_eq. cbn [map fst snd].
  rewrite for_named_modules_eq. f_equal.
  rewrite flat_map_concat_map, map_map, <- flat_map_concat_map.
  rewrite flat_map_concat_map, (flat_map_concat_map _ ms), concat_map, map_map.
  f_equal. apply map_ext_in. intros [n ch] Hin. cbn [fst snd].
  rewrite Forall_forall in IH. apply (IH _ Hin).
Qed.

Lemma for_named_modules_idempotent body (m : nn_Module) :
  (forall prefix c ps,
      body prefix (fst (body prefix c ps)) (snd (body prefix c ps)) = body prefix c ps) ->
  forall prefix,
    for_named_modules body prefix (for_named_modules body prefix m)
    = for_named_modules body prefix m.
Proof.
  intros Hbody.
  induction m as [c t ps ms IH] using nn_Module_ind. intros prefix.
  rewrite !for_named_modules_eq, Hbody. f_equal.
  rewrite map_map. apply map_ext_in. intros [n ch] Hin. cbn [fst snd].
  rewrite Forall_forall in IH. now rewrite (IH _ Hin).
Qed.

Lemma own_parameters_map (f : string -> nn_Parameter -> nn_Parameter) (prefix : string)
    (ps : list (string * option nn_Parameter)) :
  own_parameters prefix
    (map (fun kv => (fst kv, option_map (f (qualify prefix (fst kv))) (snd kv))) ps)
  = map (fun np => (fst np, f (fst np) (snd np))) (own_parameters prefix ps).
Proof.
  induction ps as [|[k [p|]] ps IH]; cbn [map own_parameters fst snd option_map].
  - reflexivity.
  - now rewrite IH.
  - exact IH.
Qed.

Lemma _parameters_for_named_modules body (prefix : string) (m : nn_Module) :
  _parameters (for_named_modules body prefix m)
  = snd (body prefix (cls m) (_parameters m)).
Proof. destruct m as [c t ps ms]. now rewrite for_named_modules_eq. Qed.

(** A loop over [named_parameters] rewrites each listed parameter and
    nothing else. *)
Lemma named_parameters_for_named_parameters
    (f : string -> nn_Parameter -> nn_Parameter) (m : nn_Module) :
  named_parameters (for_named_parameters f m)
  = map (fun np => (fst np, f (fst np) (snd np))) (named_parameters m).
Proof.
  unfold named_parameters, for_named_parameters.
  rewrite named_modules_for_named_modules.
  rewrite !flat_map_concat_map, concat_map, !map_map. f_equal.
  apply map_ext. intros [n m0]. cbn [fst snd].
  rewrite _parameters_for_named_modules. cbn [snd].
  apply own_parameters_map.
Qed.

(** ** What [nn.Linear.__init__] and [Linear.__init__] build *)

Lemma nn_Linear_init_projection (in_f out_f : nat) (g : rng) :
  nn_Linear_init in_f out_f false g =
  Ok (projection true in_f out_f (mkParameter (fst (rng_fill g [out_f; in_f])) true),
      snd (rng_fill g [out_f; in_f])).
Proof. reflexivity. Qed.

Lemma nn_Linear_init_ok (in_f out_f : nat) (bias : bool) (g : rng) :
  exists w b g',
    nn_Linear_init in_f out_f bias g =
    Ok (mkModule (ClsLinear in_f out_f) true
          [("weight", Some (mkParameter w true));
           ("bias", if bias then Some (mkParameter b true) else None)] [], g')
    /\ shape w = [out_f; in_f] /\ wf w /\ shape b = [out_f] /\ wf b.
Proof.
  destruct bias.
  - exists (fst (rng_fill g [out_f; in_f])),
      (fst (rng_fill (snd (rng_fill g [out_f; in_f])) [out_f])).
    eexists. split; [reflexivity|].
    unfold wf; simpl. rewrite !length_map, !length_seq. auto.
  - exists (fst (rng_fill g [out_f; in_f])), (zeros [out_f]).
    eexists. split; [reflexivity|].
    unfold wf; simpl. rewrite length_map, length_seq, repeat_length. auto.
Qed.

Lemma LoraLayer_init_None (self : nn_Module) :
  LoraLayer_init self None = Err TypeError.
Proof. reflexivity. Qed.

Lemma LoraLayer_init_Some (self : nn_Module) (p : Q) :
  LoraLayer_init self (Some p) = Err ValueError_dropout_probability
  \/ exists self' is_lambda, LoraLayer_init self (Some p) = Ok (self', is_lambda).
Proof.
  unfold LoraLayer_init, nn_Dropout_init.
  destruct (Qlt_le_dec 0 p); [|right; eauto].
  destruct (Qlt_le_dec p 0); [left; reflexivity|].
  destruct (Qlt_le_dec 1 p); [left; reflexivity|].
  right. simpl. eauto.
Qed.

Lemma Linear_init_dropout_None (in_f out_f : nat) (rk : Z) (alpha : option Q)
    (fan merge router mixer bias : bool) (g : rng) :
  Linear_init in_f out_f rk alpha None fan merge router mixer bias g = Err TypeError.
Proof.
  unfold Linear_init.
  destruct (nn_Linear_init_ok in_f out_f bias g) as (w & b & g' & -> & _).
  reflexivity.
Qed.

Ltac fill_missing_tensors :=
  repeat match goal with
         | |- context [shape ?t = ?sh] => is_evar t; unify t (zeros sh)
         end.

Ltac solve_fresh_shapes :=
  fill_missing_tensors;
  repeat split;
  first [ reflexivity
        | apply wf_tabulate
        | apply wf_full
        | apply wf_rng_fill
        | unfold wf; cbn [shape data]; rewrite length_map, length_seq; reflexivity ].

Lemma Linear_init_inv (in_f out_f : nat) (rk : Z) (alpha dropout : option Q)
    (fan merge router mixer bias : bool) (g g' : rng) (l : nn_Module) :
  Linear_init in_f out_f rk alpha dropout fan merge router mixer bias g = Ok (l, g') ->
  exists p tW tb tA tR,
    dropout = Some p
    /\ ((rk > 0)%Z -> exists alpha', alpha = Some alpha')
    /\ let a := mkLoraAttrs in_f out_f rk alpha
                  (if Qlt_le_dec 0 p then false else true) false merge false
                  fan router mixer
                  (if (rk >? 0)%Z
                   then option_map (fun al => (al / inject_Z rk)%Q) alpha else None) in
       l = adapter_layer a p
             (mkParameter tW (negb (rk >? 0)%Z))
             (if bias then Some (mkParameter tb true) else None)
             (mkParameter tA true) (mkParameter tR true)
             (mkParameter (zeros [out_f / lora_head; Z.to_nat rk]) true)
       /\ shape tW = (if fan then [in_f; out_f] else [out_f; in_f]) /\ wf tW
       /\ shape tb = [out_f] /\ wf tb
       /\ shape tA = [Z.to_nat rk; in_f / lora_head] /\ wf tA
       /\ shape tR = [if mixer then Z.to_nat (rk ^ 2) else Z.to_nat rk; in_f / lora_head]
       /\ wf tR.
Proof.
  unfold Linear_init, nn_Linear_init, nn_Linear_reset_parameters.
  destruct dropout as [p|]; [|destruct bias; discriminate].
  intros H. exists p. revert H.
  unfold LoraLayer_init, nn_Dropout_init, adapter_layer, adapter_children.
  cbn [lora_dropout_is_lambda r lora_router lora_router_mixer in_features out_features].
  destruct (Qlt_le_dec 0 p) as [Hp|Hp].
  - destruct (Qlt_le_dec p 0); [destruct bias; discriminate|].
    destruct (Qlt_le_dec 1 p); [destruct bias; discriminate|].
    destruct (rk >? 0)%Z eqn:Hr.
    + destruct alpha as [al|]; [|destruct bias, router; discriminate].
      destruct bias, router, fan; intros H; cbn -[Nat.div Z.pow numel T zeros] in H;
        injection H as <- _.
      all: eexists _, _, _, _; split; [reflexivity|]; split; [intros _; eexists; reflexivity|].
      all: cbn -[Nat.div Z.pow numel T zeros]; split; [reflexivity|].
      all: solve_fresh_shapes.
    + rewrite Z.gtb_ltb in Hr; apply Z.ltb_ge in Hr.
      destruct bias, fan; intros H; cbn -[Nat.div Z.pow numel T zeros] in H;
        injection H as <- _.
      all: eexists _, _, _, _; split; [reflexivity|]; split; [intros Hpos; lia|].
      all: cbn -[Nat.div Z.pow numel T zeros]; split; [reflexivity|].
      all: solve_fresh_shapes.
  - destruct (rk >? 0)%Z eqn:Hr.
    + destruct alpha as [al|]; [|destruct bias, router; discriminate].
      destruct bias, router, fan; intros H; cbn -[Nat.div Z.pow numel T zeros] in H;
        injection H as <- _.
      all: eexists _, _, _, _; split; [reflexivity|]; split; [intros _; eexists; reflexivity|].
      all: cbn -[Nat.div Z.pow numel T zeros]; split; [reflexivity|].
      all: solve_fresh_shapes.
    + rewrite Z.gtb_ltb in Hr; apply Z.ltb_ge in Hr.
      destruct bias, fan; intros H; cbn -[Nat.div Z.pow numel T zeros] in H;
        injection H as <- _.
      all: eexists _, _, _, _; split; [reflexivity|]; split; [intros Hpos; lia|].
      all: cbn -[Nat.div Z.pow numel T zeros]; split; [reflexivity|].
      all: solve_fresh_shapes.
Qed.

(** A layer returned by [Linear.__init__] with [r > 0] is an adapter
    instance in training mode that satisfies the shape invariant, is not
    disabled, and has the zero matrix as ["lora_B"]. *)
Lemma Linear_init_fresh (in_f out_f : nat) (rk : Z) (alpha dropout : option Q)
    (fan merge router mixer bias : bool) (g g' : rng) (l : nn_Module) :
  (rk > 0)%Z ->
  Linear_init in_f out_f rk alpha dropout fan merge router mixer bias g = Ok (l, g') ->
  exists a p w b wA wR al,
    l = adapter_instance a p true w b wA wR
          (mkParameter (zeros [out_f / lora_head; Z.to_nat rk]) true)
    /\ adapter_shapes a w b wA wR
         (mkParameter (zeros [out_f / lora_head; Z.to_nat rk]) true)
    /\ in_features a = in_f /\ out_features a = out_f /\ r a = rk
    /\ lora_router a = router /\ lora_router_mixer a = mixer
    /\ fan_in_fan_out a = fan /\ merge_weights a = merge
    /\ disable_adapters a = false /\ merged a = false
    /\ alpha = Some al /\ lora_alpha a = Some al
    /\ scaling a = Some (al / inject_Z rk)%Q.
Proof.
  intros Hr Hinit. apply Linear_init_inv in Hinit.
  destruct Hinit as (p & tW & tb & tA & tR & _ & Hal & Hl).
  destruct (Hal Hr) as (al & ->). cbv zeta in Hl.
  destruct Hl as (-> & HsW & _ & Hsb & _ & HsA & _ & HsR & _).
  apply Z.gt_lt, Z.gtb_lt in Hr. rewrite Hr. cbn [option_map negb].
  eexists _, p, _, _, _, _, al.
  split; [reflexivity|]. split.
  - constructor; cbn [in_features out_features r fan_in_fan_out lora_router_mixer param_data];
      try assumption; try reflexivity.
    destruct bias; [exact Hsb|exact I].
  - repeat split.
Qed.

Lemma sample_adapter_shapes :
  adapter_shapes sample_attrs
    (mkParameter (full [4; 4] 1%R) false)
    (Some (mkParameter (full [4] 1%R) true))
    (mkParameter (full [1; 1] 1%R) true)
    (mkParameter (full [1; 1] 1%R) true)
    (mkParameter (full [1; 1] 2%R) true).
Proof. constructor; reflexivity. Qed.

(** ** [train] and [eval] on an adapter layer *)

Lemma adapter_children_set_merged (a : LoraAttrs) (v : bool) (p : Q) (tr : bool)
    (wA wR wB : nn_Parameter) :
  adapter_children (set_merged a v) p tr wA wR wB = adapter_children a p tr wA wR wB.
Proof. reflexivity. Qed.

(** [train(mode)] on an adapter layer of positive rank: every module is put
    in [mode], [merged] is cleared, nothing else changes. *)
Lemma train_adapter_instance (mode : bool) (a : LoraAttrs) (p : Q) (tr : bool)
    (w : nn_Parameter) (b : option nn_Parameter) (wA wR wB : nn_Parameter) :
  (r a > 0)%Z ->
  train mode (adapter_instance a p tr w b wA wR wB)
  = Ok (adapter_instance (set_merged a false) p mode w b wA wR wB).
Proof.
  intros Hr. apply Z.gt_lt, Z.gtb_lt in Hr.
  destruct a as [i o rk al lam mg mw da fan router mixer sc].
  unfold adapter_instance, adapter_children.
  cbn [set_merged r lora_dropout_is_lambda lora_router lora_router_mixer
       in_features out_features] in Hr |- *.
  rewrite Hr.
  destruct lam, router; reflexivity.
Qed.

Lemma Linear_eval_adapter_instance (a : LoraAttrs) (p : Q) (tr : bool)
    (w : nn_Parameter) (b : option nn_Parameter) (wA wR wB : nn_Parameter) :
  (r a > 0)%Z ->
  eval (adapter_instance a p tr w b wA wR wB)
  = Ok (adapter_instance (set_merged a false) p false w b wA wR wB).
Proof.
  intros Hr. unfold eval. cbn [cls adapter_instance].
  unfold Linear_eval, nn_Module_eval.
  change (mkModule (ClsLoraLinear a) tr [("weight", Some w); ("bias", b)]
            (adapter_children a p tr wA wR wB))
    with (adapter_instance a p tr w b wA wR wB).
  rewrite train_adapter_instance by exact Hr.
  apply Z.gt_lt, Z.gtb_lt in Hr.
  destruct a as [i o rk al lam mg mw da fan router mixer sc].
  unfold adapter_instance, adapter_children.
  cbn [set_merged r lora_dropout_is_lambda lora_router lora_router_mixer
       in_features out_features] in Hr |- *.
  rewrite Hr.
  destruct lam, router; reflexivity.
Qed.

(** ** Unfolding [forward] *)

Lemma Linear_forward_ext (f f' : string -> tensor -> result tensor)
    (a : LoraAttrs) (self : nn_Module) (x : tensor) :
  (forall name t, f name t = f' name t) ->
  Linear_forward f a self x = Linear_forward f' a self x.
Proof.
  intros H. unfold Linear_forward.
  apply bind_ext; intros _.
  destruct (disable_adapters a); [reflexivity|].
  rewrite (H "lora_dropout").
  repeat (apply bind_ext; intros; rewrite ?H).
  reflexivity.
Qed.

Lemma call_LoraLinear (keep : nat -> bool) (a : LoraAttrs) (t : bool)
    (ps : list (string * option nn_Parameter)) (ms : list (string * nn_Module))
    (x : tensor) :
  call keep (mkModule (ClsLoraLinear a) t ps ms) x
  = Linear_forward (call_attr keep ms) a (mkModule (ClsLoraLinear a) t ps ms) x.
Proof.
  cbn [call]. apply Linear_forward_ext. intros name x'.
  unfold call_attr.
  induction ms as [|[n c] ms IH]; [reflexivity|].
  cbn [dict_get]. destruct (String.eqb n name); [reflexivity|exact IH].
Qed.

Lemma call_projection (keep : nat -> bool) (tr : bool) (in_f out_f : nat)
    (w : nn_Parameter) (t : tensor) :
  call keep (projection tr in_f out_f w) t = F_linear t (param_data w) None.
Proof. reflexivity. Qed.

Section AdapterChildren.
Variables (keep : nat -> bool) (a : LoraAttrs) (p : Q) (tr : bool).
Variables (wA wR wB : nn_Parameter).
Hypothesis Hr : (r a > 0)%Z.

Local Abbreviation ms := (adapter_children a p tr wA wR wB).

Lemma dict_get_lora_A :
  dict_get ms "lora_A"
  = Some (projection tr (in_features a / lora_head) (Z.to_nat (r a)) wA).
Proof.
  unfold adapter_children.
  apply Z.gt_lt, Z.gtb_lt in Hr. rewrite Hr.
  destruct (lora_dropout_is_lambda a); reflexivity.
Qed.

Lemma dict_get_lora_B :
  dict_get ms "lora_B"
  = Some (projection tr (Z.to_nat (r a)) (out_features a / lora_head) wB).
Proof.
  unfold adapter_children.
  apply Z.gt_lt, Z.gtb_lt in Hr. rewrite Hr.
  destruct (lora_dropout_is_lambda a), (lora_router a); reflexivity.
Qed.

Lemma dict_get_lora_R :
  dict_get ms "lora_R"
  = if lora_router a
    then Some (projection tr (in_features a / lora_head)
                 (if lora_router_mixer a then Z.to_nat (r a ^ 2) else Z.to_nat (r a)) wR)
    else None.
Proof.
  unfold adapter_children.
  apply Z.gt_lt, Z.gtb_lt in Hr. rewrite Hr.
  destruct (lora_dropout_is_lambda a), (lora_router a); reflexivity.
Qed.

Lemma dict_get_lora_dropout :
  dict_get ms "lora_dropout"
  = if lora_dropout_is_lambda a then None else Some (mkModule (ClsDropout p) tr [] []).
Proof.
  unfold adapter_children.
  apply Z.gt_lt, Z.gtb_lt in Hr. rewrite Hr.
  destruct (lora_dropout_is_lambda a), (lora_router a); reflexivity.
Qed.

Lemma call_attr_lora_A (t : tensor) :
  call_attr keep ms "lora_A" t = F_linear t (param_data wA) None.
Proof. unfold call_attr. now rewrite dict_get_lora_A. Qed.

Lemma call_attr_lora_B (t : tensor) :
  call_attr keep ms "lora_B" t = F_linear t (param_data wB) None.
Proof. unfold call_attr. now rewrite dict_get_lora_B. Qed.

Lemma call_attr_lora_R (t : tensor) :
  call_attr keep ms "lora_R" t
  = if lora_router a then F_linear t (param_data wR) None
    else Err (AttributeError "lora_R").
Proof.
  unfold call_attr. rewrite dict_get_lora_R. now destruct (lora_router a).
Qed.

Lemma call_attr_lora_dropout (t : tensor) :
  lora_dropout_is_lambda a = false ->
  call_attr keep ms "lora_dropout" t = Ok (F_dropout keep p tr t).
Proof. intros H. unfold call_attr. now rewrite dict_get_lora_dropout, H. Qed.

(** [forward] of an adapter layer of positive rank, with the attribute
    look-ups resolved. *)
Lemma forward_adapter_instance (w : nn_Parameter) (b : option nn_Parameter) (x : tensor) :
  forward keep (adapter_instance a p tr w b wA wR wB) x
  = if disable_adapters a then Err NotImplementedError
    else
      let dropout_x := if lora_dropout_is_lambda a then x else F_dropout keep p tr x in
      let dropout_x_shape := shape dropout_x in
      dropout_x <-
        (if List.length dropout_x_shape =? 3
         then rearrange_split3 lora_head dropout_x
         else rearrange_split2 lora_head dropout_x) ;;
      left_result <- F_linear dropout_x (param_data wA) None ;;
      router_weight <-
        (if lora_router a then F_linear dropout_x (param_data wR) None
         else Err (AttributeError "lora_R")) ;;
      router_weight <-
        (if lora_router a then
           let router_weight := softmax router_weight in
           if negb (lora_router_mixer a) then diag_embed router_weight
           else if (r a <? 0)%Z then Err RuntimeError
           else reshape router_weight
                  (removelast (shape router_weight) ++ [Z.to_nat (r a); Z.to_nat (r a)])
         else Ok router_weight) ;;
      moe_result <-
        (if List.length (shape router_weight) =? 3
         then Err (AttributeError "enisum")
         else einsum_bnr_bnrk left_result router_weight) ;;
      b_result <- F_linear moe_result (param_data wB) None ;;
      s <- match scaling a with
           | Some s => Ok s
           | None => Err (AttributeError "scaling")
           end ;;
      let lora_result := mul_scalar b_result (Q2R s) in
      lora_result <-
        (if List.length dropout_x_shape =? 3
         then rearrange_merge3 lora_head lora_result
         else rearrange_merge2 lora_head lora_result) ;;
      org_result <- F_linear x (transpose (param_data w) (fan_in_fan_out a))
                      (option_map param_data b) ;;
      add lora_result org_result.
Proof.
  unfold forward, adapter_instance. rewrite call_LoraLinear.
  unfold Linear_forward.
  cbn [getattr_tensor getattr_parameter getattr_module _parameters _modules dict_get
       String.eqb Ascii.eqb Bool.eqb bind].
  destruct (disable_adapters a); [reflexivity|].
  unfold getattr_module. cbn [_modules]. rewrite dict_get_lora_A.
  assert (Hd : (if lora_dropout_is_lambda a then Ok x else call_attr keep ms "lora_dropout" x)
               = Ok (if lora_dropout_is_lambda a then x else F_dropout keep p tr x)).
  { destruct (lora_dropout_is_lambda a) eqn:E; [reflexivity|].
    now apply call_attr_lora_dropout. }
  rewrite Hd.
  cbn [bind projection getattr_tensor getattr_parameter _parameters dict_get
       String.eqb Ascii.eqb Bool.eqb].
  apply bind_ext; intros dx. rewrite call_attr_lora_A.
  apply bind_ext; intros left_result. rewrite call_attr_lora_R.
  apply bind_ext; intros rw. apply bind_ext; intros rw'.
  apply bind_ext; intros moe. rewrite call_attr_lora_B.
  reflexivity.
Qed.
End AdapterChildren.

Lemma forward_disabled (keep : nat -> bool) (m : nn_Module) (a : LoraAttrs)
    (w : nn_Parameter) (x : tensor) :
  cls m = ClsLoraLinear a ->
  getattr_tensor m "weight" = Ok w ->
  disable_adapters a = true ->
  forward keep m x = Err NotImplementedError.
Proof.
  destruct m as [c t ps ms]. cbn [cls]. intros -> Hw Hd.
  unfold forward. rewrite call_LoraLinear. unfold Linear_forward.
  rewrite Hw, Hd. reflexivity.
Qed.

Lemma shape_transpose_weight (a : LoraAttrs) (w : tensor) :
  shape w = (if fan_in_fan_out a then [in_features a; out_features a]
             else [out_features a; in_features a]) ->
  shape (transpose w (fan_in_fan_out a)) = [out_features a; in_features a].
Proof.
  unfold transpose. destruct (fan_in_fan_out a); intros H; [|exact H].
  unfold T, tabulate. cbn [shape]. now rewrite H.
Qed.

Lemma base_path_ok (a : LoraAttrs) (p : Q) (tr : bool) (w : nn_Parameter)
    (b : option nn_Parameter) (wA wR wB : nn_Parameter) (x : tensor) (lead : list nat) :
  adapter_shapes a w b wA wR wB ->
  shape x = lead ++ [in_features a] ->
  base_path a (adapter_instance a p tr w b wA wR wB) x
  = Ok (org_result_of a (param_data w) (option_map param_data b) x).
Proof.
  intros Hs Hx. unfold base_path, adapter_instance, org_result_of.
  cbn [getattr_tensor getattr_parameter _parameters dict_get String.eqb Ascii.eqb
       Bool.eqb bind].
  apply (F_linear_ok _ _ _ lead).
  - apply shape_transpose_weight, (shape_weight Hs).
  - exact Hx.
  - destruct b as [pb|]; [exact (shape_bias Hs)|exact I].
Qed.

(** ** [forward] on 3-D and 2-D inputs *)

Lemma Z_to_nat_square (z : Z) : (0 < z)%Z -> Z.to_nat (z ^ 2) = Z.to_nat z * Z.to_nat z.
Proof.
  intros H. replace (z ^ 2)%Z with (z * z)%Z by ring.
  apply Z2Nat.inj_mul; lia.
Qed.

Lemma forward_3d_router_steps (keep : nat -> bool) (a : LoraAttrs) (p : Q) (tr : bool)
    (w : nn_Parameter) (b : option nn_Parameter) (wA wR wB : nn_Parameter)
    (s : Q) (x : tensor) (bsz sq : nat) :
  (r a > 0)%Z ->
  disable_adapters a = false ->
  lora_router a = true ->
  scaling a = Some s ->
  adapter_shapes a w b wA wR wB ->
  in_features a mod lora_head = 0 ->
  shape x = [bsz; sq; in_features a] ->
  forward keep (adapter_instance a p tr w b wA wR wB) x
  = add (lora_result_3d keep a p tr (param_data wA) (param_data wR) (param_data wB)
           s x bsz sq)
        (org_result_of a (param_data w) (option_map param_data b) x).
Proof.
  intros Hr Hdis Hrouter Hsc Hs Hin Hx.
  rewrite forward_adapter_instance by exact Hr.
  rewrite Hdis, Hrouter, Hsc. cbv zeta.
  unfold lora_result_3d, gate_of, org_result_of.
  set (DX := if lora_dropout_is_lambda a then x else F_dropout keep p tr x).
  assert (HDX : shape DX = [bsz; sq; in_features a]).
  { subst DX. destruct (lora_dropout_is_lambda a); [exact Hx|].
    now rewrite shape_F_dropout. }
  rewrite HDX. cbn [List.length Nat.eqb].
  rewrite (rearrange_split3_ok _ HDX Hin). cbn [bind].
  set (DX' := split3_out lora_head DX bsz sq (in_features a / lora_head)).
  rewrite (@F_linear_ok DX' _ None _ _ [bsz * lora_head; sq] (shape_lora_A Hs) eq_refl I).
  cbn [bind].
  rewrite (@F_linear_ok DX' _ None _ _ [bsz * lora_head; sq] (shape_lora_R Hs) eq_refl I).
  cbn [bind].
  set (LEFT := linear_out DX' (param_data wA) None _ _).
  set (RW := linear_out DX' (param_data wR) None _ _).
  set (rn := Z.to_nat (r a)) in *.
  set (GATE := if lora_router_mixer a
               then mkTensor (removelast (shape RW) ++ [rn; rn]) (data (softmax RW))
               else diag_out (softmax RW) rn).
  assert (HG : (if negb (lora_router_mixer a) then diag_embed (softmax RW)
                else if (r a <? 0)%Z then Err RuntimeError
                     else reshape (softmax RW) (removelast (shape (softmax RW)) ++ [rn; rn]))
               = Ok GATE
               /\ shape GATE = [bsz * lora_head; sq; rn; rn]).
  { subst GATE RW. destruct (lora_router_mixer a); cbn [negb].
    - assert (Hneg : (r a <? 0)%Z = false) by (apply Z.ltb_ge; lia).
      rewrite Hneg. unfold reshape.
      cbn [softmax shape tabulate linear_out split3_out DX' removelast app numel fold_right].
      subst DX'. cbn [shape split3_out tabulate removelast app numel fold_right].
      rewrite Z_to_nat_square by lia. fold rn.
      replace (bsz * lora_head * (sq * (rn * (rn * 1))) =? bsz * lora_head * (sq * (rn * rn * 1)))
        with true by (symmetry; apply Nat.eqb_eq; lia).
      split; reflexivity.
    - unfold diag_embed. subst DX'.
      cbn [softmax shape tabulate linear_out split3_out removelast app rev].
      split; reflexivity. }
  destruct HG as [HG HGs]. rewrite HG. cbn [bind]. rewrite HGs.
  cbn [List.length Nat.eqb].
  rewrite (@einsum_bnr_bnrk_ok LEFT GATE (bsz * lora_head) sq rn rn eq_refl HGs).
  cbn [bind].
  set (MOE := einsum_out LEFT GATE (bsz * lora_head) sq rn rn).
  rewrite (@F_linear_ok MOE _ None _ _ [bsz * lora_head; sq] (shape_lora_B Hs) eq_refl I).
  cbn [bind].
  erewrite (@rearrange_merge3_ok _ bsz sq (out_features a / lora_head)) by reflexivity.
  cbn [bind].
  rewrite (@F_linear_ok x _ (option_map param_data b) (out_features a) (in_features a)
             [bsz; sq]).
  2: { apply shape_transpose_weight, (shape_weight Hs). }
  2: { exact Hx. }
  2: { pose proof (shape_bias Hs) as Hb. destruct b; [exact Hb|exact I]. }
  reflexivity.
Qed.

Lemma shape_lora_result_3d_raw (keep : nat -> bool) (a : LoraAttrs) (p : Q) (tr : bool)
    (wA wR wB : tensor) (s : Q) (x : tensor) (bsz sq : nat) :
  shape (lora_result_3d keep a p tr wA wR wB s x bsz sq)
  = [bsz; sq; lora_head * (out_features a / lora_head)].
Proof.
  unfold lora_result_3d, merge3_out. cbn [shape tabulate].
  now rewrite Nat.div_mul by (unfold lora_head; lia).
Qed.

Lemma shape_lora_result_3d (keep : nat -> bool) (a : LoraAttrs) (p : Q) (tr : bool)
    (wA wR wB : tensor) (s : Q) (x : tensor) (bsz sq : nat) :
  out_features a mod lora_head = 0 ->
  shape (lora_result_3d keep a p tr wA wR wB s x bsz sq) = [bsz; sq; out_features a].
Proof.
  intros Hout. rewrite shape_lora_result_3d_raw.
  f_equal. f_equal. f_equal. symmetry. now apply Nat.Div0.div_exact.
Qed.

Lemma shape_org_result_of (a : LoraAttrs) (w : tensor) (b : option tensor) (x : tensor)
    (lead : list nat) (d : nat) :
  shape x = lead ++ [d] ->
  shape (org_result_of a w b x) = lead ++ [out_features a].
Proof.
  intros Hx. unfold org_result_of, linear_out. cbn [shape tabulate].
  now rewrite Hx, removelast_last.
Qed.

Lemma forward_3d_router (keep : nat -> bool) (a : LoraAttrs) (p : Q) (tr : bool)
    (w : nn_Parameter) (b : option nn_Parameter) (wA wR wB : nn_Parameter)
    (s : Q) (x : tensor) (bsz sq : nat) :
  (r a > 0)%Z ->
  disable_adapters a = false ->
  lora_router a = true ->
  scaling a = Some s ->
  adapter_shapes a w b wA wR wB ->
  in_features a mod lora_head = 0 ->
  out_features a mod lora_head = 0 ->
  shape x = [bsz; sq; in_features a] ->
  forward keep (adapter_instance a p tr w b wA wR wB) x
  = Ok (tabulate [bsz; sq; out_features a]
          (fun idx =>
             (tget (lora_result_3d keep a p tr (param_data wA) (param_data wR)
                      (param_data wB) s x bsz sq) idx
              + tget (org_result_of a (param_data w) (option_map param_data b) x) idx)%R)).
Proof.
  intros Hr Hdis Hrouter Hsc Hs Hin Hout Hx.
  rewrite (@forward_3d_router_steps keep a p tr w b wA wR wB s x bsz sq) by assumption.
  unfold add. rewrite broadcast_op_same_shape.
  - now rewrite shape_lora_result_3d.
  - rewrite shape_lora_result_3d by exact Hout.
    now rewrite (@shape_org_result_of a _ _ x [bsz; sq] (in_features a) Hx).
Qed.

(** A worked instance.  [sample_instance sample_attrs] has [W] and the bias
    all ones, [A = R = [[1]]], [B = [[2]]] and scaling 1; on the input
    [[[1, 2, 3, 4]]] each of the four heads holds one feature, the gate is
    the 1-by-1 softmax [1], so the low-rank path yields [2, 4, 6, 8] and the
    base path [11] everywhere. *)
Example forward_sample_value :
  forward (fun _ => true) (sample_instance sample_attrs) sample_input3
  = Ok (mkTensor [1; 1; 4] [13%R; 15%R; 17%R; 19%R]).
Proof.
  unfold sample_instance.
  rewrite (@forward_3d_router (fun _ => true) sample_attrs 0 true _ _ _ _ _ _ sample_input3 1 1
             eq_refl eq_refl eq_refl eq_refl sample_adapter_shapes eq_refl eq_refl eq_refl).
  unfold tabulate. f_equal. f_equal.
  cbv -[exp Rplus Rmult Rdiv Rinv Q2R IZR].
  assert (HQ : Q2R 1 = 1%R) by (unfold Q2R; cbn; lra).
  rewrite HQ.
  repeat f_equal;
    match goal with
    | |- context [exp ?t] =>
        let H := fresh in pose proof (exp_pos t) as H; generalize dependent (exp t); intros
    end; field; lra.
Qed.

(** The head split at work: with two features per head, head [h] reads
    the features [2h] and [2h+1] of the input and writes the outputs [2h]
    and [2h+1]. *)
Example forward_head_split_value :
  forward (fun _ => true) sample_instance8 sample_input8
  = Ok (mkTensor [1; 1; 8]
          [21%R; 42%R; 43%R; 86%R; 65%R; 130%R; 87%R; 174%R]).
Proof.
  unfold sample_instance8.
  rewrite (@forward_3d_router (fun _ => true) sample_attrs8 0 true _ _ _ _ _ _ sample_input8 1 1
             eq_refl eq_refl eq_refl eq_refl);
    [|constructor; reflexivity || exact I|reflexivity|reflexivity|reflexivity].
  unfold tabulate. f_equal. f_equal.
  cbv -[exp Rplus Rmult Rdiv Rinv Q2R IZR].
  assert (HQ : Q2R 1 = 1%R) by (unfold Q2R; cbn; lra).
  rewrite HQ.
  repeat f_equal;
    match goal with
    | |- context [exp ?t] =>
        let H := fresh in pose proof (exp_pos t) as H; generalize dependent (exp t); intros
    end; field; lra.
Qed.

(** On a 3-D input the router-enabled layer does return a tensor of the
    shape of the input with [out_features] as last dimension. *)
Lemma forward_3d_router_shape (keep : nat -> bool) (a : LoraAttrs) (p : Q) (tr : bool)
    (w : nn_Parameter) (b : option nn_Parameter) (wA wR wB : nn_Parameter)
    (s : Q) (x : tensor) (bsz sq : nat) :
  (r a > 0)%Z ->
  disable_adapters a = false ->
  lora_router a = true ->
  scaling a = Some s ->
  adapter_shapes a w b wA wR wB ->
  in_features a mod lora_head = 0 ->
  out_features a mod lora_head = 0 ->
  shape x = [bsz; sq; in_features a] ->
  exists y,
    forward keep (adapter_instance a p tr w b wA wR wB) x = Ok y
    /\ shape y = [bsz; sq; out_features a] /\ wf y.
Proof.
  intros. eexists. split; [eapply forward_3d_router; eassumption|].
  split; [reflexivity|apply wf_tabulate].
Qed.

(** On a 2-D input the gate of a router-enabled layer has three
    dimensions, and [forward] takes the branch that calls [torch.enisum], a
    name [torch] does not have. *)
Lemma forward_2d_router_raises (keep : nat -> bool) (a : LoraAttrs) (p : Q) (tr : bool)
    (w : nn_Parameter) (b : option nn_Parameter) (wA wR wB : nn_Parameter)
    (x : tensor) (bsz : nat) :
  (r a > 0)%Z ->
  disable_adapters a = false ->
  lora_router a = true ->
  adapter_shapes a w b wA wR wB ->
  in_features a mod lora_head = 0 ->
  shape x = [bsz; in_features a] ->
  forward keep (adapter_instance a p tr w b wA wR wB) x = Err (AttributeError "enisum").
Proof.
  intros Hr Hdis Hrouter Hs Hin Hx.
  rewrite forward_adapter_instance by exact Hr.
  rewrite Hdis, Hrouter. cbv zeta.
  set (DX := if lora_dropout_is_lambda a then x else F_dropout keep p tr x).
  assert (HDX : shape DX = [bsz; in_features a]).
  { subst DX. destruct (lora_dropout_is_lambda a); [exact Hx|].
    now rewrite shape_F_dropout. }
  rewrite HDX. cbn [List.length Nat.eqb].
  rewrite (rearrange_split2_ok _ HDX Hin). cbn [bind].
  set (DX' := split2_out lora_head DX bsz (in_features a / lora_head)).
  rewrite (@F_linear_ok DX' _ None _ _ [bsz * lora_head] (shape_lora_A Hs) eq_refl I).
  cbn [bind].
  rewrite (@F_linear_ok DX' _ None _ _ [bsz * lora_head] (shape_lora_R Hs) eq_refl I).
  cbn [bind].
  set (RW := linear_out DX' (param_data wR) None _ _).
  set (rn := Z.to_nat (r a)) in *.
  destruct (lora_router_mixer a); cbn [negb].
  - assert (Hneg : (r a <? 0)%Z = false) by (apply Z.ltb_ge; lia).
    rewrite Hneg. unfold reshape. subst RW DX'.
    cbn [softmax shape tabulate linear_out split2_out removelast app numel fold_right].
    rewrite Z_to_nat_square by lia. fold rn.
    replace (bsz * lora_head * (rn * (rn * 1)) =? bsz * lora_head * (rn * rn * 1))
      with true by (symmetry; apply Nat.eqb_eq; lia).
    reflexivity.
  - unfold diag_embed. subst RW DX'.
    cbn [softmax shape tabulate linear_out split2_out removelast app rev].
    reflexivity.
Qed.

(** With the router off, [forward] still calls [self.lora_R], which
    [__init__] did not create. *)
Lemma forward_router_off_raises (keep : nat -> bool) (a : LoraAttrs) (p : Q) (tr : bool)
    (w : nn_Parameter) (b : option nn_Parameter) (wA wR wB : nn_Parameter)
    (x : tensor) (bsz sq : nat) :
  (r a > 0)%Z ->
  disable_adapters a = false ->
  lora_router a = false ->
  shape (param_data wA) = [Z.to_nat (r a); in_features a / lora_head] ->
  in_features a mod lora_head = 0 ->
  shape x = [bsz; sq; in_features a] \/ shape x = [bsz; in_features a] ->
  forward keep (adapter_instance a p tr w b wA wR wB) x = Err (AttributeError "lora_R").
Proof.
  intros Hr Hdis Hrouter HsA Hin Hx.
  rewrite forward_adapter_instance by exact Hr.
  rewrite Hdis, Hrouter. cbv zeta.
  set (DX := if lora_dropout_is_lambda a then x else F_dropout keep p tr x).
  assert (HDX : shape DX = shape x).
  { subst DX. destruct (lora_dropout_is_lambda a); [reflexivity|].
    now rewrite shape_F_dropout. }
  rewrite HDX. destruct Hx as [Hx|Hx]; rewrite Hx in HDX |- *; cbn [List.length Nat.eqb].
  - rewrite (rearrange_split3_ok _ HDX Hin). cbn [bind].
    erewrite (@F_linear_ok _ _ None _ _ [bsz * lora_head; sq] HsA) by reflexivity || exact I.
    reflexivity.
  - rewrite (rearrange_split2_ok _ HDX Hin). cbn [bind].
    erewrite (@F_linear_ok _ _ None _ _ [bsz * lora_head] HsA) by reflexivity || exact I.
    reflexivity.
Qed.

(** [forward] returns only for a 3-D input of the right width on an
    enabled layer whose router is on. *)
Lemma forward_ok_inv (keep : nat -> bool) (a : LoraAttrs) (p : Q) (tr : bool)
    (w : nn_Parameter) (b : option nn_Parameter) (wA wR wB : nn_Parameter)
    (x y : tensor) :
  (r a > 0)%Z ->
  adapter_shapes a w b wA wR wB ->
  forward keep (adapter_instance a p tr w b wA wR wB) x = Ok y ->
  disable_adapters a = false /\ lora_router a = true
  /\ (exists s, scaling a = Some s)
  /\ exists bsz sq,
       shape x = [bsz; sq; in_features a] /\ in_features a mod lora_head = 0.
Proof.
  intros Hr Hs H.
  rewrite forward_adapter_instance in H by exact Hr.
  destruct (disable_adapters a); [discriminate|]. cbv zeta in H.
  set (DX := if lora_dropout_is_lambda a then x else F_dropout keep p tr x) in H.
  assert (HDX : shape DX = shape x).
  { subst DX. destruct (lora_dropout_is_lambda a); [reflexivity|].
    now rewrite shape_F_dropout. }
  apply bind_ok_inv in H. destruct H as (dx & Hsplit & H).
  apply bind_ok_inv in H. destruct H as (left & HA & H).
  apply bind_ok_inv in H. destruct H as (rw & HR & H).
  apply bind_ok_inv in H. destruct H as (gate & HG & H).
  apply bind_ok_inv in H. destruct H as (moe & HM & H).
  apply bind_ok_inv in H. destruct H as (bres & HB & H).
  apply bind_ok_inv in H. destruct H as (s & Hsc & H).
  apply bind_ok_inv in H. destruct H as (lora & Hmerge & H).
  apply bind_ok_inv in H. destruct H as (org & Horg & Hadd).
  destruct (lora_router a); [|discriminate].
  destruct (scaling a) as [s0|]; [|discriminate].
  split; [reflexivity|]. split; [reflexivity|]. split; [now exists s0|].
  apply F_linear_inv in Horg. destruct Horg as (o & i & lead & HsW & Hx & _).
  rewrite (shape_transpose_weight a _ (shape_weight Hs)) in HsW.
  injection HsW as <- <-.
  apply F_linear_inv in HR. destruct HR as (oR & iR & leadR & _ & HdxR & ->).
  destruct (List.length (shape DX) =? 3) eqn:Hlen.
  - apply rearrange_split3_inv in Hsplit.
    destruct Hsplit as (bsz & sq & hd & HsDX & Hmod & ->).
    rewrite HDX, Hx in HsDX.
    assert (Hhd : hd = in_features a /\ lead = [bsz; sq]).
    { change [bsz; sq; hd] with ([bsz; sq] ++ [hd]) in HsDX.
      apply app_inj_tail in HsDX. destruct HsDX as [-> ->]. auto. }
    destruct Hhd as [-> ->]. exists bsz, sq. split; [exact Hx|exact Hmod].
  - exfalso.
    apply rearrange_split2_inv in Hsplit.
    destruct Hsplit as (bsz & hd & HsDX & Hmod & ->).
    cbn [shape split2_out tabulate] in HdxR.
    assert (HsRW : exists n, shape (linear_out (split2_out lora_head DX bsz (hd / lora_head))
                                      (param_data wR) None oR iR) = [bsz * lora_head; n]).
    { exists oR. reflexivity. }
    destruct HsRW as (n & HsRW).
    destruct (negb (lora_router_mixer a)).
    + apply diag_embed_inv in HG. destruct HG as (m & HG).
      cbn [softmax shape tabulate] in HG. rewrite HsRW in HG.
      rewrite HG in HM. discriminate.
    + destruct (r a <? 0)%Z; [discriminate|].
      apply reshape_inv in HG.
      cbn [softmax shape tabulate] in HG. rewrite HsRW in HG.
      rewrite HG in HM. discriminate.
Qed.

(** A zero ["lora_B"] makes the whole low-rank contribution zero. *)
Lemma lora_result_3d_zero_B (keep : nat -> bool) (a : LoraAttrs) (p : Q) (tr : bool)
    (wA wR : tensor) (sh : list nat) (s : Q) (x : tensor) (bsz sq : nat) (idx : list nat) :
  tget (lora_result_3d keep a p tr wA wR (zeros sh) s x bsz sq) idx = 0%R.
Proof.
  unfold lora_result_3d, merge3_out.
  apply tget_tabulate_zero. intros i _.
  destruct i as [|bi [|si [|hdi [|]]]]; try reflexivity.
  rewrite tget_mul_scalar.
  unfold linear_out at 1. rewrite tget_tabulate_zero; [lra|].
  intros j _. rewrite Rsum_zero; [lra|].
  intros k. rewrite tget_zeros. lra.
Qed.

(** On a 3-D input a router-enabled layer fresh from the constructor
    returns the frozen base path. *)
Lemma forward_fresh_3d (in_f out_f : nat) (rk : Z) (alpha dropout : option Q)
    (fan merge mixer bias : bool) (g g' : rng) (l : nn_Module)
    (keep : nat -> bool) (x : tensor) (bsz sq : nat) :
  (rk > 0)%Z ->
  Linear_init in_f out_f rk alpha dropout fan merge true mixer bias g = Ok (l, g') ->
  in_f mod lora_head = 0 ->
  out_f mod lora_head = 0 ->
  shape x = [bsz; sq; in_f] ->
  exists org,
    frozen_base_path l x = Ok org /\ forward keep l x = Ok org.
Proof.
  intros Hr Hinit Hin Hout Hx.
  destruct (Linear_init_fresh _ _ _ _ _ _ _ _ _ _ Hr Hinit)
    as (a & p & w & b & wA & wR & al & -> & Hs & Hi & Ho & Hra & Hrouter & _ & _ & _
        & Hdis & _ & _ & _ & Hsc).
  subst in_f out_f rk.
  exists (org_result_of a (param_data w) (option_map param_data b) x).
  split.
  - unfold frozen_base_path. cbn [cls adapter_instance].
    apply (@base_path_ok a p true w b wA wR _ x [bsz; sq] Hs Hx).
  - rewrite (@forward_3d_router keep a p true w b wA wR _ _ x bsz sq
               Hr Hdis Hrouter Hsc Hs Hin Hout Hx).
    f_equal. cbn [param_data].
    rewrite (tabulate_ext _ _ (tget (org_result_of a (param_data w) (option_map param_data b) x))).
    + replace [bsz; sq; out_features a]
        with (shape (org_result_of a (param_data w) (option_map param_data b) x)).
      * apply tabulate_tget, wf_tabulate.
      * unfold org_result_of, linear_out. cbn [shape tabulate]. now rewrite Hx.
    + intros idx _. rewrite lora_result_3d_zero_B. lra.
Qed.

(** ** Scaling *)

Lemma adapter_shapes_with_alpha (a : LoraAttrs) (alpha : Q) (w : nn_Parameter)
    (b : option nn_Parameter) (wA wR wB : nn_Parameter) :
  adapter_shapes a w b wA wR wB -> adapter_shapes (with_alpha a alpha) w b wA wR wB.
Proof. intros [H1 H2 H3 H4 H5]. constructor; assumption. Qed.

Lemma Q2R_half_scaling (alpha : Q) (rk : Z) :
  Q2R ((alpha / 2) / inject_Z rk) = (Q2R (alpha / inject_Z rk) / 2)%R.
Proof.
  transitivity (Q2R ((alpha / inject_Z rk) * / 2)).
  - apply Qeq_eqR. unfold Qdiv. ring.
  - rewrite Q2R_mult, Q2R_inv by discriminate.
    unfold Rdiv. f_equal. f_equal. unfold Q2R. cbn. lra.
Qed.

(** Reading the low-rank contribution inside its shape: the scaling is a
    factor of every entry. *)
Lemma tget_lora_result_3d_scaling (keep : nat -> bool) (a : LoraAttrs) (p : Q) (tr : bool)
    (wA wR wB : tensor) (s s' : Q) (c : R) (x : tensor) (bsz sq : nat) (idx : list nat) :
  out_features a mod lora_head = 0 ->
  Q2R s' = (Q2R s * c)%R ->
  In idx (indices [bsz; sq; out_features a]) ->
  tget (lora_result_3d keep a p tr wA wR wB s' x bsz sq) idx
  = (tget (lora_result_3d keep a p tr wA wR wB s x bsz sq) idx * c)%R.
Proof.
  intros Hout Hc Hin.
  rewrite <- (shape_lora_result_3d keep a p tr wA wR wB s x bsz sq Hout) in Hin.
  unfold lora_result_3d, merge3_out in *. cbn [shape tabulate] in Hin.
  rewrite !tget_tabulate by exact Hin.
  destruct idx as [|bi [|si [|hdi [|]]]]; try lra.
  rewrite !tget_mul_scalar, Hc. lra.
Qed.

(** Whether the steps after the [B] projection succeed does not depend on
    the scaling. *)
Lemma forward_tail_error (c c' : R) (three_d : bool) (bres x wT : tensor)
    (bias : option tensor) (e : exn) :
  (lora_result <-
     (if three_d then rearrange_merge3 lora_head (mul_scalar bres c)
      else rearrange_merge2 lora_head (mul_scalar bres c)) ;;
   org_result <- F_linear x wT bias ;;
   add lora_result org_result) = Err e ->
  (lora_result <-
     (if three_d then rearrange_merge3 lora_head (mul_scalar bres c')
      else rearrange_merge2 lora_head (mul_scalar bres c')) ;;
   org_result <- F_linear x wT bias ;;
   add lora_result org_result) = Err e.
Proof.
  unfold rearrange_merge3, rearrange_merge2, add, broadcast_op.
  cbn [shape mul_scalar tmap].
  destruct three_d.
  - destruct (shape bres) as [|bh [|s [|d [|]]]]; try (intros H; exact H).
    destruct ((bh mod lora_head =? 0) && negb (lora_head =? 0)); [|intros H; exact H].
    cbn [bind]. destruct (F_linear x wT bias) as [org|e']; [|intros H; exact H].
    cbn [bind shape merge3_out tabulate].
    destruct (broadcast_shapes _ (shape org)); [discriminate|intros H; exact H].
  - destruct (shape bres) as [|bh [|d [|]]]; try (intros H; exact H).
    destruct ((bh mod lora_head =? 0) && negb (lora_head =? 0)); [|intros H; exact H].
    cbn [bind]. destruct (F_linear x wT bias) as [org|e']; [|intros H; exact H].
    cbn [bind shape merge2_out tabulate].
    destruct (broadcast_shapes _ (shape org)); [discriminate|intros H; exact H].
Qed.

(** ** The matching loop *)

Lemma find_and_replace_loop_no_match (env : Env) (key_list : list string)
    (self : LoraModel) (loc : locals) :
  (forall key, In key key_list ->
     target_module_found env (peft_config self) key = Ok false) ->
  find_and_replace_loop env key_list (self, loc) = ((self, loc), None).
Proof.
  induction key_list as [|key key_list IH]; intros H; [reflexivity|].
  cbn [find_and_replace_loop find_and_replace_step].
  rewrite (H key (or_introl eq_refl)).
  apply IH. intros k Hk. apply H. now right.
Qed.

(** With [lora_dropout] unset no iteration of the matching loop can
    complete on a match: it either raises or leaves everything as it was. *)
Lemma find_and_replace_step_dropout_None (env : Env) (key : string)
    (self : LoraModel) (loc : locals) :
  LoraConfig.lora_dropout (peft_config self) = None ->
  new_module loc = [] ->
  snd (find_and_replace_step env key (self, loc)) = None ->
  find_and_replace_step env key (self, loc) = ((self, loc), None).
Proof.
  intros Hd Hn. unfold find_and_replace_step.
  destruct (target_module_found env (peft_config self) key) as [[|]|e];
    [|reflexivity|discriminate].
  destruct (_get_submodules (root (model self)) key) as [[[pk target] tn]|e];
    [|discriminate].
  destruct (getattr_parameter target "bias") as [tb|e]; [|discriminate].
  unfold construct_new_module. rewrite Hd, Hn.
  destruct (is_loaded_in_8bit (model self) && isinstance_Linear8bitLt target);
    [discriminate|].
  destruct (isinstance_nn_Linear target
            && match LoraConfig.enable_lora (peft_config self) with
               | Some _ => false
               | None => true
               end).
  - destruct (getattr_features target) as [[i o]|e]; [|discriminate].
    rewrite Linear_init_dropout_None. discriminate.
  - destruct (LoraConfig.enable_lora (peft_config self)); [|discriminate].
    destruct (isinstance_Conv1D target).
    + destruct (getattr_tensor target "weight") as [w|e]; [|discriminate].
      destruct (List.length (shape (param_data w)) =? 2); discriminate.
    + destruct (getattr_features target) as [[i o]|e]; discriminate.
Qed.

Lemma find_and_replace_loop_dropout_None (env : Env) (key_list : list string)
    (self : LoraModel) (loc : locals) :
  LoraConfig.lora_dropout (peft_config self) = None ->
  new_module loc = [] ->
  snd (find_and_replace_loop env key_list (self, loc)) = None ->
  find_and_replace_loop env key_list (self, loc) = ((self, loc), None).
Proof.
  intros Hd Hn. induction key_list as [|key key_list IH]; [reflexivity|].
  cbn [find_and_replace_loop].
  destruct (find_and_replace_step env key (self, loc)) as [st' [e|]] eqn:E.
  - discriminate.
  - rewrite (find_and_replace_step_dropout_None env key self loc Hd Hn) in E
      by (now rewrite E).
    injection E as <-. exact IH.
Qed.

Lemma LoraModel_init_dropout_None (env : Env) (config : LoraConfig.t)
    (host : HostNetwork) (g : rng) :
  LoraConfig.lora_dropout config = None ->
  snd (LoraModel_init env config host g) <> None.
Proof.
  intros Hd. unfold LoraModel_init, _find_and_replace. cbn [model peft_config].
  destruct (is_loaded_in_8bit host && negb (is_bnb_available env)); [discriminate|].
  destruct (find_and_replace_loop env (map fst (named_modules "" (root host)))
              (mkLoraModel config host, mkLocals false [] g)) as [[self' loc'] [e|]] eqn:E.
  - discriminate.
  - rewrite (find_and_replace_loop_dropout_None env _ (mkLoraModel config host)
               (mkLocals false [] g) Hd eq_refl) in E by (now rewrite E).
    injection E as <- <-. cbn. discriminate.
Qed.

(** * The claims *)

(** ** C1: rank zero *)

(** C1: on a layer built with [r = 0], [forward] does not return the frozen
    base path: [__init__] creates ["lora_A"] only when [r > 0], and [forward]
    reads [self.lora_A] unconditionally, so every call raises
    [AttributeError]. *)
Theorem C1_rank_zero_forward_raises :
  forall (in_f out_f : nat) (alpha dropout : option Q)
         (fan merge router mixer bias : bool) (g g' : rng) (l : nn_Module),
    Linear_init in_f out_f 0 alpha dropout fan merge router mixer bias g = Ok (l, g') ->
    forall (keep : nat -> bool) (x : tensor),
      forward keep l x = Err (AttributeError "lora_A").
Proof.
  intros in_f out_f alpha dropout fan merge router mixer bias g g' l Hinit keep x.
  apply Linear_init_inv in Hinit.
  destruct Hinit as (p & tW & tb & tA & tR & _ & _ & Hl).
  cbv zeta in Hl. destruct Hl as (-> & _).
  unfold forward, adapter_layer. rewrite call_LoraLinear.
  unfold Linear_forward, adapter_children.
  cbn [lora_dropout_is_lambda r disable_adapters Z.gtb Z.compare].
  destruct (Qlt_le_dec 0 p); reflexivity.
Qed.

Lemma C1_rank_zero_forward_raises_witness :
  forward (fun _ => true) (layer_of (sample_layer 0 false)) sample_input2
  = Err (AttributeError "lora_A").
Proof.
  eapply (@C1_rank_zero_forward_raises 4 4 (Some 1%Q) (Some 0%Q) false true false false true
            ones).
  reflexivity.
Defined.

(** ** C2: output shape *)

(** C2: the claim fails on every 2-D input.  For an adapter layer of
    positive rank whose [in_features] is divisible by 4 and an input of
    shape (batch, in_features), [forward] returns no tensor: with the
    router on it reaches the call of [torch.enisum] (a misspelling of
    [torch.einsum]) and raises [AttributeError]; with the router off it
    raises [AttributeError] at [self.lora_R], which was never created. *)
Theorem C2_two_dim_input_raises :
  forall (keep : nat -> bool) (a : LoraAttrs) (p : Q) (tr : bool)
         (w : nn_Parameter) (b : option nn_Parameter) (wA wR wB : nn_Parameter)
         (x : tensor) (bsz : nat),
    (r a > 0)%Z ->
    disable_adapters a = false ->
    adapter_shapes a w b wA wR wB ->
    in_features a mod lora_head = 0 ->
    shape x = [bsz; in_features a] ->
    forward keep (adapter_instance a p tr w b wA wR wB) x
    = Err (AttributeError (if lora_router a then "enisum" else "lora_R")).
Proof.
  intros keep a p tr w b wA wR wB x bsz Hr Hdis Hs Hin Hx.
  destruct (lora_router a) eqn:Hrouter.
  - now apply forward_2d_router_raises with (bsz := bsz).
  - apply forward_router_off_raises with (bsz := bsz) (sq := 0); try assumption.
    + exact (shape_lora_A Hs).
    + now right.
Qed.

Lemma C2_two_dim_input_raises_witness :
  forward (fun _ => true) (sample_instance sample_attrs) sample_input2
  = Err (AttributeError "enisum").
Proof.
  apply (@C2_two_dim_input_raises (fun _ => true) sample_attrs 0 true _ _ _ _ _
           sample_input2 1).
  - reflexivity.
  - reflexivity.
  - exact sample_adapter_shapes.
  - reflexivity.
  - reflexivity.
Defined.

(** ** C3: routing disabled *)

(** C3: the claim fails on every layer it is about.  [forward] does call
    [self.lora_R] whatever the routing flag is, as the claim says, but
    [__init__] creates ["lora_R"] only when the flag is set.  On a layer
    built with [r > 0] and the flag off the attribute is missing: [forward]
    returns on no input at all, and on every 2-D or 3-D input of the right
    width it raises [AttributeError] at [self.lora_R]. *)
Theorem C3_router_off_forward_raises :
  forall (in_f out_f : nat) (rk : Z) (alpha dropout : option Q)
         (fan merge mixer bias : bool) (g g' : rng) (l : nn_Module),
    (rk > 0)%Z ->
    Linear_init in_f out_f rk alpha dropout fan merge false mixer bias g = Ok (l, g') ->
    getattr_module l "lora_R" = Err (AttributeError "lora_R")
    /\ (forall keep x, is_ok (forward keep l x) = false)
    /\ (forall keep x bsz sq,
          in_f mod lora_head = 0 ->
          shape x = [bsz; sq; in_f] \/ shape x = [bsz; in_f] ->
          forward keep l x = Err (AttributeError "lora_R")).
Proof.
  intros in_f out_f rk alpha dropout fan merge mixer bias g g' l Hr Hinit.
  destruct (Linear_init_fresh _ _ _ _ _ _ _ _ _ _ Hr Hinit)
    as (a & p & w & b & wA & wR & al & -> & Hs & Hi & _ & Hra & Hrouter & _ & _ & _ & Hdis & _).
  rewrite <- Hra in Hr. split; [|split].
  - unfold getattr_module, adapter_instance. cbn [_modules].
    rewrite dict_get_lora_R by exact Hr. now rewrite Hrouter.
  - intros keep x.
    destruct (forward keep
                (adapter_instance a p true w b wA wR
                   (mkParameter (zeros [out_f / lora_head; Z.to_nat rk]) true)) x)
      as [y|e] eqn:E; [|reflexivity].
    destruct (@forward_ok_inv keep a p true w b wA wR _ x y Hr Hs E) as (_ & Hon & _).
    rewrite Hrouter in Hon. discriminate.
  - intros keep x bsz sq Hin Hx. subst in_f.
    apply (@forward_router_off_raises keep a p true w b wA wR _ x bsz sq Hr Hdis Hrouter);
      [apply Hs|exact Hin|exact Hx].
Qed.

Lemma C3_router_off_forward_raises_witness :
  forward (fun _ => true) (layer_of (sample_layer 1 false)) sample_input3
  = Err (AttributeError "lora_R").
Proof.
  eapply (proj2 (proj2 (@C3_router_off_forward_raises 4 4 1 (Some 1%Q) (Some 0%Q)
                          false true false true ones
                          (snd (match sample_layer 1 false with
                                | Ok lg => lg
                                | Err _ => (mkModule ClsModule false [] [], ones)
                                end))
                          (layer_of (sample_layer 1 false)) ltac:(reflexivity) eq_refl))).
  - reflexivity.
  - left. reflexivity.
Defined.

(** ** C4: merging on [eval] *)

(** C4, as the code has it: no merge arithmetic exists.  On an adapter
    layer of positive rank, whatever [merge_weights] is, [eval] leaves the
    frozen weight and every other parameter untouched and leaves
    [merged = False]; a following [train] again leaves the parameters
    untouched and sets [merged = False].  Only the [training] flags
    change. *)
Theorem C4_eval_train_never_merge :
  forall (a : LoraAttrs) (p : Q) (tr mode : bool)
         (w : nn_Parameter) (b : option nn_Parameter) (wA wR wB : nn_Parameter),
    (r a > 0)%Z ->
    eval (adapter_instance a p tr w b wA wR wB)
    = Ok (adapter_instance (set_merged a false) p false w b wA wR wB)
    /\ train mode (adapter_instance (set_merged a false) p false w b wA wR wB)
       = Ok (adapter_instance (set_merged a false) p mode w b wA wR wB)
    /\ getattr_tensor (adapter_instance (set_merged a false) p false w b wA wR wB) "weight"
       = Ok w
    /\ getattr_tensor (adapter_instance (set_merged a false) p mode w b wA wR wB) "weight"
       = Ok w
    /\ merged (set_merged a false) = false.
Proof.
  intros a p tr mode w b wA wR wB Hr.
  split; [now apply Linear_eval_adapter_instance|].
  split; [now apply (train_adapter_instance mode (set_merged a false))|].
  repeat split.
Qed.

Lemma C4_eval_train_never_merge_witness :
  eval (sample_instance sample_attrs)
  = Ok (adapter_instance (set_merged sample_attrs false) 0 false
          (mkParameter (full [4; 4] 1%R) false)
          (Some (mkParameter (full [4] 1%R) true))
          (mkParameter (full [1; 1] 1%R) true)
          (mkParameter (full [1; 1] 1%R) true)
          (mkParameter (full [1; 1] 2%R) true)).
Proof.
  apply (proj1 (@C4_eval_train_never_merge sample_attrs 0 true true _ _ _ _ _ eq_refl)).
Defined.

(** The claim fails as stated: the layer
    [Linear(4, 4, r=1, lora_alpha=1, lora_dropout=0.0, merge_weights=True,
    lora_router=True)] comes out of [eval()] with [merged = False] and with
    the parameters it went in with. *)
Lemma C4_merge_on_eval_counterexample :
  option_map merge_weights (lora_attrs (layer_of (sample_layer 1 true))) = Some true
  /\ option_map r (lora_attrs (layer_of (sample_layer 1 true))) = Some 1%Z
  /\ exists l',
       eval (layer_of (sample_layer 1 true)) = Ok l'
       /\ option_map merged (lora_attrs l') = Some false
       /\ option_map merged (lora_attrs l') <> Some true
       /\ _parameters l' = _parameters (layer_of (sample_layer 1 true)).
Proof.
  split; [reflexivity|]. split; [reflexivity|].
  eexists. split; [reflexivity|]. split; [reflexivity|]. split; [discriminate|reflexivity].
Qed.

(** ** C5: a selector that matches nothing *)

(** C5, as the code has it: the missing-dependency guard runs first, so a
    host marked as loaded in 8 bit without [bitsandbytes] raises
    [ImportError] whatever the selector; in every other case a selector
    that matches none of the module names makes the construction raise the
    [ValueError] that names [target_modules].  Either way the model, its
    module tree and the configuration are exactly what was passed in. *)
Theorem C5_no_match_is_fatal :
  forall (env : Env) (config : LoraConfig.t) (host : HostNetwork) (g : rng),
    (is_loaded_in_8bit host && negb (is_bnb_available env) = true ->
     LoraModel_init env config host g = ((mkLoraModel config host, g), Some ImportError))
    /\ (is_loaded_in_8bit host && negb (is_bnb_available env) = false ->
        (forall key, In key (map fst (named_modules "" (root host))) ->
           target_module_found env config key = Ok false) ->
        LoraModel_init env config host g
        = ((mkLoraModel config host, g),
           Some (ValueError_target_modules_not_found (LoraConfig.target_modules config)))).
Proof.
  intros env config host g. unfold LoraModel_init, _find_and_replace.
  cbn [model peft_config]. split.
  - intros ->. reflexivity.
  - intros -> Hno.
    rewrite find_and_replace_loop_no_match by exact Hno.
    reflexivity.
Qed.

Lemma C5_no_match_is_fatal_witness :
  LoraModel_init sample_env (sample_config (Some (TargetSuffixes ["z"]))) sample_host ones
  = ((mkLoraModel (sample_config (Some (TargetSuffixes ["z"]))) sample_host, ones),
     Some (ValueError_target_modules_not_found (Some (TargetSuffixes ["z"])))).
Proof.
  apply (proj2 (C5_no_match_is_fatal sample_env (sample_config (Some (TargetSuffixes ["z"])))
                  sample_host ones)).
  - reflexivity.
  - intros key Hin. cbn in Hin.
    repeat (destruct Hin as [<-|Hin]; [reflexivity|]). destruct Hin.
Defined.

(** The claim fails as stated: the selector [["z"]] matches no module of
    [sample_host_8bit], yet with the 8-bit marker set and [bitsandbytes]
    missing the construction raises [ImportError], not the [ValueError]
    that names the selector. *)
Lemma C5_import_error_counterexample :
  forallb (fun key =>
             match target_module_found sample_env
                     (sample_config (Some (TargetSuffixes ["z"]))) key with
             | Ok false => true
             | _ => false
             end)
    (map fst (named_modules "" (root sample_host_8bit))) = true
  /\ snd (LoraModel_init sample_env (sample_config (Some (TargetSuffixes ["z"])))
            sample_host_8bit ones) = Some ImportError
  /\ snd (LoraModel_init sample_env (sample_config (Some (TargetSuffixes ["z"])))
            sample_host_8bit ones)
     <> Some (ValueError_target_modules_not_found (Some (TargetSuffixes ["z"]))).
Proof.
  split; [reflexivity|]. split; [reflexivity|]. discriminate.
Qed.

(** ** C6: the trainable mask *)

(** C6: if every parameter is trainable beforehand, then after
    [mark_only_lora_as_trainable(model, "none")] the parameters keep their
    names and a parameter is trainable exactly when its name contains
    ["lora_"]. *)
Theorem C6_only_lora_trainable :
  forall m : nn_Module,
    (forall n p, In (n, p) (named_parameters m) -> requires_grad p = true) ->
    exists m',
      mark_only_lora_as_trainable m "none" = (m', None)
      /\ map fst (named_parameters m') = map fst (named_parameters m)
      /\ forall n p, In (n, p) (named_parameters m') ->
           (requires_grad p = true <-> str_in "lora_" n = true).
Proof.
  intros m Hall. eexists. split; [reflexivity|].
  rewrite named_parameters_for_named_parameters. split.
  - rewrite map_map. reflexivity.
  - intros n p Hin. apply in_map_iff in Hin. destruct Hin as ([n0 p0] & Heq & Hin).
    cbn [fst snd] in Heq. injection Heq as -> <-.
    specialize (Hall _ _ Hin).
    destruct (str_in "lora_" n); cbn [negb].
    + tauto.
    + cbn [set_requires_grad requires_grad]. split; discriminate.
Qed.

Lemma C6_only_lora_trainable_witness :
  exists m',
    mark_only_lora_as_trainable sample_adapted "none" = (m', None)
    /\ map fst (named_parameters m') = map fst (named_parameters sample_adapted)
    /\ forall n p, In (n, p) (named_parameters m') ->
         (requires_grad p = true <-> str_in "lora_" n = true).
Proof.
  apply (C6_only_lora_trainable sample_adapted).
  intros n p Hin.
  assert (Hall : forallb (fun np => requires_grad (snd np)) (named_parameters sample_adapted)
                 = true) by reflexivity.
  rewrite forallb_forall in Hall. exact (Hall (n, p) Hin).
Defined.

(** ** C7: disabling the adapters *)

(** C7: [disable_adapter_layers] keeps every module of the network in
    place, sets [disable_adapters] on each adapter layer, and calling it
    twice is the same as calling it once; an adapter layer whose flag is
    set raises [NotImplementedError] on every call of [forward]. *)
Theorem C7_disable_adapter_layers :
  forall self : LoraModel,
    map fst (named_modules "" (root (model (disable_adapter_layers self))))
    = map fst (named_modules "" (root (model self)))
    /\ (forall m, In m (modules (root (model self))) ->
          isinstance_LoraLayer m = true ->
          exists m' a,
            In m' (modules (root (model (disable_adapter_layers self))))
            /\ cls m' = ClsLoraLinear a /\ disable_adapters a = true
            /\ _parameters m' = _parameters m)
    /\ (forall m a, In m (modules (root (model (disable_adapter_layers self)))) ->
          cls m = ClsLoraLinear a -> disable_adapters a = true)
    /\ disable_adapter_layers (disable_adapter_layers self) = disable_adapter_layers self
    /\ (forall keep m a w x,
          cls m = ClsLoraLinear a ->
          getattr_tensor m "weight" = Ok w ->
          disable_adapters a = true ->
          forward keep m x = Err NotImplementedError).
Proof.
  intros self.
  unfold disable_adapter_layers, _set_adapter_layers, modules.
  cbn [model root set_root].
  rewrite named_modules_for_named_modules.
  split; [|split; [|split; [|split]]].
  - rewrite map_map. reflexivity.
  - intros m Hin Hl. apply in_map_iff in Hin. destruct Hin as ([n m0] & <- & Hin).
    cbn [snd] in Hl |- *.
    destruct m0 as [c t ps ms]. unfold isinstance_LoraLayer in Hl. cbn [cls] in Hl.
    destruct c as [ | | | | |a]; try discriminate.
    eexists _, _. split.
    + apply in_map_iff. eexists (n, _). split; [reflexivity|].
      apply in_map_iff. exists (n, mkModule (ClsLoraLinear a) t ps ms).
      split; [reflexivity|exact Hin].
    + cbn [fst snd]. rewrite for_named_modules_eq. cbn [cls fst snd _parameters].
      repeat split.
  - intros m a Hin Hc. apply in_map_iff in Hin. destruct Hin as ([n m1] & <- & Hin).
    apply in_map_iff in Hin. destruct Hin as ([n0 m0] & Heq & _).
    injection Heq as <- <-. cbn [fst snd] in Hc.
    destruct m0 as [c t ps ms]. rewrite for_named_modules_eq in Hc. cbn [cls] in Hc.
    destruct c; cbn [fst] in Hc; try discriminate.
    injection Hc as <-. reflexivity.
  - unfold set_root. cbn [peft_config model root is_loaded_in_8bit hf_device_map].
    rewrite for_named_modules_idempotent; [reflexivity|].
    intros prefix c ps. destruct c; reflexivity.
  - intros keep m a w x. apply forward_disabled.
Qed.

Lemma C7_disable_adapter_layers_witness :
  forward (fun _ => true)
    (root (model (disable_adapter_layers
                    (mkLoraModel (sample_config None)
                       (mkHost (layer_of (sample_layer 1 true)) false false)))))
    sample_input3
  = Err NotImplementedError.
Proof.
  eapply (proj2 (proj2 (proj2 (proj2
            (C7_disable_adapter_layers
               (mkLoraModel (sample_config None)
                  (mkHost (layer_of (sample_layer 1 true)) false false))))))).
  - reflexivity.
  - reflexivity.
  - reflexivity.
Defined.

(** ** Halving [lora_alpha] in exact arithmetic *)

(** In exact arithmetic, that is with the real-valued entries of this
    embedding and not with the rounded sums of floating-point tensors:
    take an adapter layer of positive rank obeying the shape invariant,
    with [scaling = lora_alpha / r], and the layer that differs from it
    only in [lora_alpha], halved.  On every input and with the same dropout
    draws: if the first layer returns [y], the second returns some [y'],
    and [y' - org] is [y - org] with every entry divided by two, [org]
    being the frozen base path; and if the first raises, the second raises
    the same exception. *)
Lemma halving_alpha_exact_arithmetic :
  forall (keep : nat -> bool) (a : LoraAttrs) (p : Q) (tr : bool)
         (w : nn_Parameter) (b : option nn_Parameter) (wA wR wB : nn_Parameter)
         (alpha : Q) (x : tensor),
    (r a > 0)%Z ->
    lora_alpha a = Some alpha ->
    scaling a = Some (alpha / inject_Z (r a))%Q ->
    adapter_shapes a w b wA wR wB ->
    (forall y,
        forward keep (adapter_instance a p tr w b wA wR wB) x = Ok y ->
        exists org y' d d',
          frozen_base_path (adapter_instance a p tr w b wA wR wB) x = Ok org
          /\ forward keep (adapter_instance (with_alpha a (alpha / 2)) p tr w b wA wR wB) x
             = Ok y'
          /\ sub y org = Ok d /\ sub y' org = Ok d'
          /\ d' = tmap (fun v => (v / 2)%R) d)
    /\ (forall e,
          forward keep (adapter_instance a p tr w b wA wR wB) x = Err e ->
          forward keep (adapter_instance (with_alpha a (alpha / 2)) p tr w b wA wR wB) x
          = Err e).
Proof.
  intros keep a p tr w b wA wR wB alpha x Hr Hal Hsc Hs. split.
  - intros y Hy.
    destruct (@forward_ok_inv keep a p tr w b wA wR wB x y Hr Hs Hy)
      as (Hdis & Hrouter & _ & bsz & sq & Hx & Hin).
    set (org := org_result_of a (param_data w) (option_map param_data b) x).
    assert (Hsorg : shape org = [bsz; sq; out_features a])
      by exact (@shape_org_result_of a _ _ x [bsz; sq] (in_features a) Hx).
    assert (Hbase : frozen_base_path (adapter_instance a p tr w b wA wR wB) x = Ok org).
    { unfold frozen_base_path. cbn [cls adapter_instance].
      apply (@base_path_ok a p tr w b wA wR wB x [bsz; sq] Hs Hx). }
    destruct (Nat.eq_dec (out_features a mod lora_head) 0) as [Hout|Hout].
    + (* the shapes of the two paths agree *)
      rewrite (@forward_3d_router keep a p tr w b wA wR wB _ x bsz sq
                 Hr Hdis Hrouter Hsc Hs Hin Hout Hx) in Hy.
      injection Hy as <-.
      eexists org, _, _, _. split; [exact Hbase|]. split; [|split; [|split]].
      * apply (@forward_3d_router keep (with_alpha a (alpha / 2)) p tr w b wA wR wB
                 (alpha / 2 / inject_Z (r a))%Q x bsz sq);
          try assumption; try reflexivity.
        now apply adapter_shapes_with_alpha.
      * unfold sub. rewrite broadcast_op_same_shape by (now rewrite shape_tabulate, Hsorg).
        reflexivity.
      * unfold sub. rewrite broadcast_op_same_shape by (now rewrite shape_tabulate, Hsorg).
        reflexivity.
      * rewrite !shape_tabulate, tmap_tabulate.
        change (out_features (with_alpha a (alpha / 2))) with (out_features a).
        apply tabulate_ext. intros idx Hidx.
        rewrite !tget_tabulate by exact Hidx.
        change (org_result_of (with_alpha a (alpha / 2)) (param_data w)
                  (option_map param_data b) x) with org.
        change (lora_result_3d keep (with_alpha a (alpha / 2)) p tr (param_data wA)
                  (param_data wR) (param_data wB) (alpha / 2 / inject_Z (r a)) x bsz sq)
          with (lora_result_3d keep a p tr (param_data wA) (param_data wR) (param_data wB)
                  (alpha / 2 / inject_Z (r a)) x bsz sq).
        rewrite (@tget_lora_result_3d_scaling keep a p tr (param_data wA) (param_data wR)
                   (param_data wB) (alpha / inject_Z (r a)) (alpha / 2 / inject_Z (r a))
                   (/ 2)%R x bsz sq idx Hout).
        -- fold org. lra.
        -- rewrite Q2R_half_scaling. reflexivity.
        -- exact Hidx.
    + (* [out_features] is not a multiple of 4: the sum is accepted only
         when it is empty *)
      rewrite (@forward_3d_router_steps keep a p tr w b wA wR wB _ x bsz sq
                 Hr Hdis Hrouter Hsc Hs Hin Hx) in Hy.
      fold org in Hy. unfold add, broadcast_op in Hy.
      rewrite shape_lora_result_3d_raw, Hsorg, broadcast_shapes_last in Hy.
      assert (Hm : lora_head * (out_features a / lora_head) <> out_features a).
      { intros E. apply Hout. apply Nat.Div0.div_exact. now symmetry. }
      assert (Hm1 : lora_head * (out_features a / lora_head) <> 1)
        by (unfold lora_head; lia).
      apply Nat.eqb_neq in Hm, Hm1. rewrite Hm, Hm1 in Hy.
      destruct (out_features a =? 1) eqn:Hob; [|discriminate].
      pose proof (proj1 (Nat.eqb_eq _ _) Hob) as Ho. injection Hy as <-.
      assert (Hz : lora_head * (out_features a / lora_head) = 0) by (now rewrite Ho).
      assert (Hempty : forall f, tabulate [bsz; sq; lora_head * (out_features a / lora_head)] f
                                 = mkTensor [bsz; sq; 0] []).
      { intros f. rewrite Hz. apply tabulate_empty. cbn [numel fold_right]. lia. }
      assert (Hsub : forall t, shape t = [bsz; sq; 0] ->
                               sub t org = Ok (mkTensor [bsz; sq; 0] [])).
      { intros t Ht. unfold sub, broadcast_op, broadcast_out.
        rewrite Ht, Hsorg, broadcast_shapes_last, Hob.
        destruct (0 =? out_features a); cbn [Nat.eqb];
          f_equal; apply tabulate_empty; cbn [numel fold_right]; lia. }
      exists org, (mkTensor [bsz; sq; 0] []), (mkTensor [bsz; sq; 0] []),
        (mkTensor [bsz; sq; 0] []).
      split; [exact Hbase|]. split; [|split; [|split]].
      * rewrite (@forward_3d_router_steps keep (with_alpha a (alpha / 2)) p tr w b wA wR wB
                   (alpha / 2 / inject_Z (r a))%Q x bsz sq);
          try assumption; try reflexivity; [|now apply adapter_shapes_with_alpha].
        change (org_result_of (with_alpha a (alpha / 2)) (param_data w)
                  (option_map param_data b) x) with org.
        unfold add, broadcast_op, broadcast_out.
        rewrite shape_lora_result_3d_raw, Hsorg.
        change (out_features (with_alpha a (alpha / 2))) with (out_features a).
        rewrite broadcast_shapes_last, Hm, Hm1, Hob. now rewrite Hempty.
      * unfold broadcast_out. rewrite Hempty. now apply Hsub.
      * now apply Hsub.
      * reflexivity.
  - intros e He.
    rewrite forward_adapter_instance in He |- * by exact Hr.
    cbn [with_alpha disable_adapters lora_dropout_is_lambda lora_router lora_router_mixer
         r scaling fan_in_fan_out].
    destruct (disable_adapters a); [exact He|].
    cbv zeta in He |- *. rewrite Hsc in He.
    set (DX := if lora_dropout_is_lambda a then x else F_dropout keep p tr x) in *.
    destruct (if List.length (shape DX) =? 3
              then rearrange_split3 lora_head DX
              else rearrange_split2 lora_head DX) as [dx|e1]; [|exact He].
    cbn [bind] in He |- *.
    destruct (F_linear dx (param_data wA) None) as [left|e2]; [|exact He].
    cbn [bind] in He |- *.
    destruct (if lora_router a then F_linear dx (param_data wR) None
              else Err (AttributeError "lora_R")) as [rw|e3]; [|exact He].
    cbn [bind] in He |- *.
    match goal with
    | |- bind ?G _ = _ => destruct G as [gate|e4]; [|exact He]
    end.
    cbn [bind] in He |- *.
    destruct (if List.length (shape gate) =? 3
              then Err (AttributeError "enisum")
              else einsum_bnr_bnrk left gate) as [moe|e5]; [|exact He].
    cbn [bind] in He |- *.
    destruct (F_linear moe (param_data wB) None) as [bres|e6]; [|exact He].
    cbn [bind] in He |- *.
    eapply forward_tail_error. exact He.
Qed.

Lemma halving_alpha_exact_arithmetic_sample :
  exists y,
    forward (fun _ => true) (sample_instance sample_attrs) sample_input3 = Ok y
    /\ exists org y' d d',
         frozen_base_path (sample_instance sample_attrs) sample_input3 = Ok org
         /\ forward (fun _ => true) (sample_instance (with_alpha sample_attrs (1 / 2)))
              sample_input3 = Ok y'
         /\ sub y org = Ok d /\ sub y' org = Ok d'
         /\ d' = tmap (fun v => (v / 2)%R) d.
Proof.
  eexists. split; [reflexivity|].
  apply (proj1 (@halving_alpha_exact_arithmetic (fun _ => true) sample_attrs 0 true
                  _ _ _ _ _ 1%Q sample_input3
                  eq_refl eq_refl eq_refl sample_adapter_shapes)).
  reflexivity.
Defined.

(** ** C9: layers fresh from the constructor *)

(** C9: the claim fails on every 2-D input.  A router-enabled layer of
    positive rank fresh from the constructor, with [in_features] divisible
    by 4, raises [AttributeError] on an input of shape (batch,
    in_features), although the frozen base path accepts that input. *)
Theorem C9_fresh_layer_two_dim_raises :
  forall (in_f out_f : nat) (rk : Z) (alpha dropout : option Q)
         (fan merge mixer bias : bool) (g g' : rng) (l : nn_Module)
         (keep : nat -> bool) (x : tensor) (bsz : nat),
    (rk > 0)%Z ->
    Linear_init in_f out_f rk alpha dropout fan merge true mixer bias g = Ok (l, g') ->
    in_f mod lora_head = 0 ->
    shape x = [bsz; in_f] ->
    forward keep l x = Err (AttributeError "enisum")
    /\ is_ok (frozen_base_path l x) = true.
Proof.
  intros in_f out_f rk alpha dropout fan merge mixer bias g g' l keep x bsz
         Hr Hinit Hin Hx.
  destruct (Linear_init_fresh _ _ _ _ _ _ _ _ _ _ Hr Hinit)
    as (a & p & w & b & wA & wR & al & -> & Hs & Hi & Ho & Hra & Hrouter & _ & _ & _
        & Hdis & _).
  subst in_f out_f rk. split.
  - now apply (@forward_2d_router_raises keep a p true w b wA wR _ x bsz).
  - unfold frozen_base_path. cbn [cls adapter_instance].
    now rewrite (@base_path_ok a p true w b wA wR _ x [bsz] Hs Hx).
Qed.

Lemma C9_fresh_layer_two_dim_raises_witness :
  forward (fun _ => true) (layer_of (sample_layer 1 true)) sample_input2
  = Err (AttributeError "enisum")
  /\ is_ok (frozen_base_path (layer_of (sample_layer 1 true)) sample_input2) = true.
Proof.
  eapply (@C9_fresh_layer_two_dim_raises 4 4 1 (Some 1%Q) (Some 0%Q) false true false true
            ones _ _ (fun _ => true) sample_input2 1); reflexivity.
Defined.

(** ** C10: unset hyper-parameters *)

(** C10: with [lora_dropout] left at [None] the constructor of the adapter
    layer raises [TypeError], whatever the other arguments, and it does so
    in [LoraLayer.__init__], before any adapter projection is created;
    building a [LoraModel] from such a configuration always ends in an
    exception.  With [r > 0] and [lora_alpha] left at [None] the
    constructor fails too, with the [TypeError] of
    [self.lora_alpha / self.r] whenever the dropout probability itself is
    accepted. *)
Theorem C10_unset_dropout_or_alpha_fails :
  forall (in_f out_f : nat) (rk : Z) (fan merge router mixer bias : bool) (g : rng),
    (forall self, LoraLayer_init self None = Err TypeError)
    /\ (forall alpha,
          Linear_init in_f out_f rk alpha None fan merge router mixer bias g = Err TypeError)
    /\ (forall env config host,
          LoraConfig.lora_dropout config = None ->
          snd (LoraModel_init env config host g) <> None)
    /\ (forall p,
          (rk > 0)%Z ->
          is_ok (Linear_init in_f out_f rk None (Some p) fan merge router mixer bias g) = false
          /\ ((p <= 1)%Q ->
              Linear_init in_f out_f rk None (Some p) fan merge router mixer bias g
              = Err TypeError)).
Proof.
  intros in_f out_f rk fan merge router mixer bias g.
  split; [reflexivity|]. split; [intros alpha; apply Linear_init_dropout_None|].
  split; [intros env config host; apply LoraModel_init_dropout_None|].
  intros p Hr. apply Z.gt_lt, Z.gtb_lt in Hr.
  unfold Linear_init.
  destruct (nn_Linear_init_ok in_f out_f bias g) as (w & b & g' & -> & _).
  cbn [bind].
  unfold LoraLayer_init, nn_Dropout_init.
  destruct (Qlt_le_dec 0 p) as [Hp|Hp].
  - destruct (Qlt_le_dec p 0) as [Hp0|Hp0].
    { exfalso. apply (Qlt_irrefl 0). now apply Qlt_trans with p. }
    destruct (Qlt_le_dec 1 p) as [Hp1|Hp1].
    + split; [reflexivity|]. intros Hle. exfalso.
      apply (Qlt_irrefl 1). now apply Qlt_le_trans with p.
    + cbn [bind]. rewrite Hr. rewrite !nn_Linear_init_projection.
      destruct router; split; reflexivity || (intros _; reflexivity).
  - cbn [bind]. rewrite Hr. rewrite !nn_Linear_init_projection.
    destruct router; split; reflexivity || (intros _; reflexivity).
Qed.

Lemma C10_unset_dropout_or_alpha_fails_witness :
  (8 > 0)%Z /\ (0 <= 1)%Q
  /\ Linear_init 768 768 8 None (Some 0%Q) false false true false true ones = Err TypeError
  /\ snd (LoraModel_init sample_env
            (LoraConfig.mk 8 (Some (TargetSuffixes ["q"])) (Some 16%Q) None
               false false None "none" true false false)
            sample_host ones) <> None.
Proof.
  split; [reflexivity|]. split; [discriminate|]. split.
  - apply (proj2 (proj2 (proj2
             (C10_unset_dropout_or_alpha_fails 768 768 8 false false true false true ones)))).
    + reflexivity.
    + discriminate.
  - apply (proj1 (proj2 (proj2
             (C10_unset_dropout_or_alpha_fails 768 768 8 false false true false true ones)))).
    reflexivity.
Defined.


(** * Further properties of the code *)

(** ** [mark_only_lora_as_trainable] in its other modes *)

Lemma dict_get_map {V W : Type} (g : string -> V -> W) (d : list (string * V)) (k : string) :
  dict_get (map (fun kv => (fst kv, g (fst kv) (snd kv))) d) k
  = option_map (g k) (dict_get d k).
Proof.
  induction d as [|[k' v] d IH]; [reflexivity|].
  cbn [map dict_get fst snd]. destruct (String.eqb_spec k' k) as [->|Hne]; [reflexivity|].
  exact IH.
Qed.

Lemma dict_get_set_other {V : Type} (d : list (string * V)) (k k' : string) (v : V) :
  k <> k' -> dict_get (dict_set d k v) k' = dict_get d k'.
Proof.
  intros Hne. induction d as [|[k0 v0] d IH]; cbn [dict_set dict_get].
  - destruct (String.eqb_spec k k'); [contradiction|reflexivity].
  - destruct (String.eqb_spec k0 k) as [->|H0]; cbn [dict_get].
    + destruct (String.eqb_spec k k'); [contradiction|reflexivity].
    + destruct (String.eqb_spec k0 k'); [reflexivity|exact IH].
Qed.

(** The freezing loop alone. *)
Lemma named_parameters_freeze (m : nn_Module) :
  named_parameters
    (for_named_parameters
       (fun n p => if negb (str_in "lora_" n) then set_requires_grad false p else p) m)
  = map (fun np => (fst np,
                    mkParameter (param_data (snd np))
                      (str_in "lora_" (fst np) && requires_grad (snd np))))
      (named_parameters m).
Proof.
  rewrite named_parameters_for_named_parameters.
  apply map_ext. intros [n [d rg]]. cbn [fst snd param_data requires_grad].
  destruct (str_in "lora_" n); reflexivity.
Qed.

(** X1: with [bias="all"] the pass keeps every parameter's name and
    contents and leaves a parameter trainable exactly when its name
    contains ["bias"], or contains ["lora_"] and the parameter was
    trainable before; biases of modules that were not adapted are unfrozen
    too. *)
Theorem X1_mark_bias_all :
  forall m : nn_Module,
    snd (mark_only_lora_as_trainable m "all") = None
    /\ named_parameters (fst (mark_only_lora_as_trainable m "all"))
       = map (fun np =>
                (fst np,
                 mkParameter (param_data (snd np))
                   (str_in "bias" (fst np)
                    || (str_in "lora_" (fst np) && requires_grad (snd np)))))
           (named_parameters m).
Proof.
  intros m. split; [reflexivity|].
  cbn [mark_only_lora_as_trainable String.eqb Ascii.eqb Bool.eqb fst].
  rewrite named_parameters_for_named_parameters, named_parameters_freeze, map_map.
  apply map_ext. intros [n [d rg]]. cbn [fst snd param_data requires_grad].
  destruct (str_in "bias" n); reflexivity.
Qed.

(** X3: any other [bias] string raises [NotImplementedError], but only
    after the freezing loop has run: the model is left with every
    parameter whose name lacks ["lora_"] frozen. *)
Theorem X3_mark_unknown_bias_raises_after_freezing :
  forall (m : nn_Module) (bias : string),
    bias <> "none" -> bias <> "all" -> bias <> "lora_only" ->
    snd (mark_only_lora_as_trainable m bias) = Some NotImplementedError
    /\ named_parameters (fst (mark_only_lora_as_trainable m bias))
       = map (fun np => (fst np,
                         mkParameter (param_data (snd np))
                           (str_in "lora_" (fst np) && requires_grad (snd np))))
           (named_parameters m).
Proof.
  intros m bias H1 H2 H3. unfold mark_only_lora_as_trainable.
  apply String.eqb_neq in H1, H2, H3. rewrite H1, H2, H3.
  cbn [fst snd]. split; [reflexivity|apply named_parameters_freeze].
Qed.

Lemma X3_mark_unknown_bias_raises_after_freezing_witness :
  snd (mark_only_lora_as_trainable sample_adapted "adapter-only") = Some NotImplementedError.
Proof.
  apply (@X3_mark_unknown_bias_raises_after_freezing sample_adapted "adapter-only");
    discriminate.
Defined.

Lemma Forall2_map_self {A B : Type} (R : A -> B -> Prop) (G : A -> B) (l : list A) :
  (forall x, R x (G x)) -> Forall2 R l (map G l).
Proof. intros H. induction l; cbn [map]; constructor; auto. Qed.

Lemma getattr_parameter_eq (c : mclass) (t : bool)
    (ps : list (string * option nn_Parameter)) (ms : list (string * nn_Module)) (k : string) :
  getattr_parameter (mkModule c t ps ms) k
  = match dict_get ps k with Some p => Ok p | None => Err (AttributeError k) end.
Proof. reflexivity. Qed.

(** X2: with [bias="lora_only"] the pass keeps every module's name and
    class, and module by module leaves a parameter trainable exactly when
    it is the [bias] of an adapter layer, or its qualified name contains
    ["lora_"] and it was trainable before.  A [bias] that is [None] stays
    [None] and a missing attribute stays missing. *)
Theorem X2_mark_bias_lora_only :
  forall m : nn_Module,
    snd (mark_only_lora_as_trainable m "lora_only") = None
    /\ Forall2
         (fun nm nm' =>
            fst nm' = fst nm
            /\ cls (snd nm') = cls (snd nm)
            /\ forall k,
                getattr_parameter (snd nm') k
                = match getattr_parameter (snd nm) k with
                  | Ok (Some p) =>
                      Ok (Some (mkParameter (param_data p)
                                  ((isinstance_LoraLayer (snd nm) && String.eqb k "bias")
                                   || (str_in "lora_" (qualify (fst nm) k)
                                       && requires_grad p))))
                  | other => other
                  end)
         (named_modules "" m)
         (named_modules "" (fst (mark_only_lora_as_trainable m "lora_only"))).
Proof.
  intros m. split; [reflexivity|].
  cbn [mark_only_lora_as_trainable String.eqb Ascii.eqb Bool.eqb fst].
  unfold for_named_parameters.
  rewrite !named_modules_for_named_modules, map_map.
  apply Forall2_map_self. intros [key [c t ps ms]]. cbn [fst snd].
  rewrite !for_named_modules_eq. cbn [fst snd cls].
  set (ps1 := map _ ps).
  assert (Hps1 : forall k,
             dict_get ps1 k
             = option_map
                 (option_map (fun p => mkParameter (param_data p)
                                         (str_in "lora_" (qualify key k) && requires_grad p)))
                 (dict_get ps k)).
  { intros k. subst ps1.
    rewrite (dict_get_map
               (fun k0 v => option_map
                              (fun p => if negb (str_in "lora_" (qualify key k0))
                                        then set_requires_grad false p else p) v)).
    destruct (dict_get ps k) as [[[d rg]|]|]; cbn [option_map]; try reflexivity.
    cbn [param_data requires_grad]. unfold set_requires_grad.
    destruct (str_in "lora_" (qualify key k)); reflexivity. }
  split; [reflexivity|].
  assert (Hplain : forall k,
             match dict_get ps1 k with Some p => Ok p | None => Err (AttributeError k) end
             = match match dict_get ps k with
                     | Some p => Ok p | None => Err (AttributeError k) end with
               | Ok (Some p) =>
                   Ok (Some (mkParameter (param_data p)
                               (false || (str_in "lora_" (qualify key k) && requires_grad p))))
               | other => other
               end).
  { intros k. rewrite Hps1. destruct (dict_get ps k) as [[p|]|]; reflexivity. }
  unfold isinstance_LoraLayer. cbn [cls].
  destruct c as [| | | | |a];
    try (split; [destruct (dict_get ps1 "bias") as [[?|]|]; reflexivity|];
         intros k; rewrite !getattr_parameter_eq;
         destruct (dict_get ps1 "bias") as [[?|]|]; cbn [snd andb]; apply Hplain).
  pose proof (Hps1 "bias") as Hb.
  destruct (dict_get ps1 "bias") as [[b1|]|] eqn:Eb; cbn [fst snd];
    (split; [reflexivity|]); intros k; rewrite !getattr_parameter_eq.
  - destruct (String.eqb_spec k "bias") as [->|Hne].
    + rewrite dict_get_set_same. cbn [andb orb].
      destruct (dict_get ps "bias") as [[p|]|]; cbn [option_map] in Hb; try discriminate.
      injection Hb as ->. reflexivity.
    + rewrite dict_get_set_other by congruence. cbn [andb]. apply Hplain.
  - destruct (String.eqb_spec k "bias") as [->|Hne]; cbn [andb]; [|apply Hplain].
    rewrite Eb. destruct (dict_get ps "bias") as [[p|]|]; cbn [option_map] in Hb;
      try discriminate. reflexivity.
  - destruct (String.eqb_spec k "bias") as [->|Hne]; cbn [andb]; [|apply Hplain].
    rewrite Eb. destruct (dict_get ps "bias") as [[p|]|]; cbn [option_map] in Hb;
      try discriminate. reflexivity.
Qed.

Lemma map_data_dict_set (d : list (string * option nn_Parameter)) (k : string)
    (b b' : nn_Parameter) :
  dict_get d k = Some (Some b) -> param_data b' = param_data b ->
  map (fun kv => (fst kv, option_map param_data (snd kv))) (dict_set d k (Some b'))
  = map (fun kv => (fst kv, option_map param_data (snd kv))) d.
Proof.
  intros Hget Hdata. induction d as [|[k0 v0] d IH]; [discriminate|].
  cbn [dict_get] in Hget. cbn [dict_set].
  destruct (String.eqb k0 k); cbn [map fst snd option_map].
  - injection Hget as ->. cbn [option_map]. now rewrite Hdata.
  - now rewrite IH.
Qed.

Lemma map_data_loop (f : string -> nn_Parameter -> nn_Parameter) (prefix : string)
    (ps : list (string * option nn_Parameter)) :
  (forall n p, param_data (f n p) = param_data p) ->
  map (fun kv => (fst kv, option_map param_data (snd kv)))
    (map (fun kv => (fst kv, option_map (f (qualify prefix (fst kv))) (snd kv))) ps)
  = map (fun kv => (fst kv, option_map param_data (snd kv))) ps.
Proof.
  intros Hf. rewrite map_map. apply map_ext. intros [k [p|]]; cbn [fst snd option_map].
  - now rewrite Hf.
  - reflexivity.
Qed.

(** X4: whatever the [bias] string, valid or not, the pass touches
    [requires_grad] flags only: module names, classes, training flags,
    parameter names, [None] entries and tensor contents are those of the
    input model. *)
Theorem X4_mark_touches_flags_only :
  forall (m : nn_Module) (bias : string),
    Forall2
      (fun nm nm' =>
         fst nm' = fst nm
         /\ cls (snd nm') = cls (snd nm)
         /\ training (snd nm') = training (snd nm)
         /\ map (fun kv => (fst kv, option_map param_data (snd kv))) (_parameters (snd nm'))
            = map (fun kv => (fst kv, option_map param_data (snd kv))) (_parameters (snd nm)))
      (named_modules "" m)
      (named_modules "" (fst (mark_only_lora_as_trainable m bias))).
Proof.
  intros m bias. unfold mark_only_lora_as_trainable, for_named_parameters.
  set (ffreeze := fun n p => if negb (str_in "lora_" n) then set_requires_grad false p else p).
  set (fbias := fun n p => if str_in "bias" n then set_requires_grad true p else p).
  assert (Hfreeze : forall n p, param_data (ffreeze n p) = param_data p).
  { intros n p. unfold ffreeze. destruct (negb (str_in "lora_" n)); reflexivity. }
  assert (Hbias : forall n p, param_data (fbias n p) = param_data p).
  { intros n p. unfold fbias. destruct (str_in "bias" n); reflexivity. }
  destruct (String.eqb bias "none"); [|destruct (String.eqb bias "all");
                                        [|destruct (String.eqb bias "lora_only")]];
    cbn [fst]; rewrite !named_modules_for_named_modules, ?map_map;
    apply Forall2_map_self; intros [key [c t ps ms]]; cbn [fst snd];
    rewrite !for_named_modules_eq; cbn [fst snd cls training _parameters];
    (split; [reflexivity|]).
  - repeat split. exact (@map_data_loop ffreeze key ps Hfreeze).
  - repeat split.
    rewrite (@map_data_loop fbias key _ Hbias).
    exact (@map_data_loop ffreeze key ps Hfreeze).
  - pose proof (@map_data_loop ffreeze key ps Hfreeze) as H1.
    set (ps1 := map _ ps) in *.
    destruct c; destruct (dict_get ps1 "bias") as [[b|]|] eqn:Eb; cbn [fst snd];
      repeat split; try exact H1.
    rewrite (@map_data_dict_set ps1 "bias" b); auto.
  - repeat split. exact (@map_data_loop ffreeze key ps Hfreeze).
Qed.

(** ** Switching the adapters on and off *)

Lemma for_named_modules_compose body1 body2 (m : nn_Module) :
  forall prefix,
    for_named_modules body2 prefix (for_named_modules body1 prefix m)
    = for_named_modules
        (fun p c ps => body2 p (fst (body1 p c ps)) (snd (body1 p c ps))) prefix m.
Proof.
  induction m as [c t ps ms IH] using nn_Module_ind. intros prefix.
  rewrite !for_named_modules_eq. f_equal.
  rewrite map_map. apply map_ext_in. intros [n ch] Hin. cbn [fst snd].
  rewrite Forall_forall in IH. now rewrite (IH _ Hin).
Qed.

Lemma for_named_modules_ext body1 body2 (m : nn_Module) :
  (forall p c ps, body1 p c ps = body2 p c ps) ->
  forall prefix, for_named_modules body1 prefix m = for_named_modules body2 prefix m.
Proof.
  intros Hext.
  induction m as [c t ps ms IH] using nn_Module_ind. intros prefix.
  rewrite !for_named_modules_eq, Hext. f_equal.
  apply map_ext_in. intros [n ch] Hin. cbn [fst snd].
  rewrite Forall_forall in IH. now rewrite (IH _ Hin).
Qed.

(** The modules of a tree do not depend on the prefix their names carry. *)
Lemma map_snd_named_modules (m : nn_Module) :
  forall p p', map snd (named_modules p m) = map snd (named_modules p' m).
Proof.
  induction m as [c t ps ms IH] using nn_Module_ind. intros p p'.
  rewrite !named_modules_eq. cbn [map snd]. f_equal.
  rewrite !flat_map_concat_map, !concat_map, !map_map. f_equal.
  apply map_ext_in. intros [n ch] Hin. cbn [fst snd].
  rewrite Forall_forall in IH. apply (IH _ Hin).
Qed.

Lemma In_modules_child (c : mclass) (t : bool) (ps : list (string * option nn_Parameter))
    (ms : list (string * nn_Module)) (n : string) (ch m : nn_Module) :
  In (n, ch) ms -> In m (modules ch) -> In m (modules (mkModule c t ps ms)).
Proof.
  intros Hin Hm. unfold modules in *. rewrite named_modules_eq. cbn [map snd]. right.
  rewrite (map_snd_named_modules ch "" (qualify "" n)) in Hm.
  apply in_map_iff in Hm. destruct Hm as [[k m0] [Hk Hm]]. cbn [snd] in Hk. subst m0.
  apply in_map_iff. exists (k, m). split; [reflexivity|].
  apply in_flat_map. exists (n, ch). split; [exact Hin|exact Hm].
Qed.

Lemma In_modules_self (m : nn_Module) : In m (modules m).
Proof. destruct m as [c t ps ms]. unfold modules. rewrite named_modules_eq. now left. Qed.

(** A loop whose body changes no module of the tree leaves the tree as it is. *)
Lemma for_named_modules_id body (m : nn_Module) :
  (forall p m0, In m0 (modules m) ->
     body p (cls m0) (_parameters m0) = (cls m0, _parameters m0)) ->
  forall prefix, for_named_modules body prefix m = m.
Proof.
  induction m as [c t ps ms IH] using nn_Module_ind. intros Hbody prefix.
  rewrite for_named_modules_eq.
  pose proof (Hbody prefix (mkModule c t ps ms) (In_modules_self _)) as Hself.
  cbn [cls _parameters] in Hself. rewrite Hself. cbn [fst snd].
  f_equal. rewrite <- (map_id ms) at 2. apply map_ext_in. intros [n ch] Hin. cbn [fst snd].
  rewrite Forall_forall in IH. rewrite (IH _ Hin); [reflexivity|].
  intros p m0 Hm0. apply Hbody. eapply In_modules_child; eauto.
Qed.

Lemma set_disable_adapters_twice (a : LoraAttrs) (u v : bool) :
  set_disable_adapters (set_disable_adapters a u) v = set_disable_adapters a v.
Proof. reflexivity. Qed.

Lemma set_adapter_layers_twice (u v : bool) (self : LoraModel) :
  _set_adapter_layers v (_set_adapter_layers u self) = _set_adapter_layers v self.
Proof.
  unfold _set_adapter_layers, set_root. cbn [model root peft_config is_loaded_in_8bit
                                              hf_device_map].
  f_equal. f_equal. rewrite for_named_modules_compose.
  apply for_named_modules_ext. intros p c ps. destruct c; reflexivity.
Qed.

(** X5: the last switch wins: enabling after disabling is the same as
    enabling, and disabling after enabling the same as disabling.  On a
    model none of whose adapter layers was disabled, disabling and then
    enabling gives back the model exactly (weights, flags and
    configuration); and after enabling no adapter layer is disabled. *)
Theorem X5_enable_after_disable :
  forall self : LoraModel,
    enable_adapter_layers (disable_adapter_layers self) = enable_adapter_layers self
    /\ disable_adapter_layers (enable_adapter_layers self) = disable_adapter_layers self
    /\ ((forall m a, In m (modules (root (model self))) ->
           cls m = ClsLoraLinear a -> disable_adapters a = false) ->
        enable_adapter_layers (disable_adapter_layers self) = self)
    /\ (forall m a, In m (modules (root (model (enable_adapter_layers self)))) ->
          cls m = ClsLoraLinear a -> disable_adapters a = false).
Proof.
  intros self. unfold enable_adapter_layers, disable_adapter_layers.
  rewrite !set_adapter_layers_twice. repeat split.
  - intros Hoff. destruct self as [cfg [rt l8 dm]].
    unfold _set_adapter_layers, set_root.
    cbn [model root peft_config is_loaded_in_8bit hf_device_map] in *.
    rewrite for_named_modules_id; [reflexivity|].
    intros p m0 Hin. destruct (cls m0) as [| | | | |a] eqn:Ec; try reflexivity.
    specialize (Hoff m0 a Hin Ec). destruct a. cbn in Hoff. subst. reflexivity.
  - intros m a Hin Hc. unfold _set_adapter_layers, set_root, modules in Hin.
    cbn [model root] in Hin. rewrite named_modules_for_named_modules, map_map in Hin.
    apply in_map_iff in Hin. destruct Hin as [[k [c t ps ms]] [<- _]].
    cbn [fst snd] in Hc. rewrite for_named_modules_eq in Hc. cbn [cls] in Hc.
    destruct c; cbn [fst] in Hc; try discriminate. injection Hc as <-. reflexivity.
Qed.

Lemma X5_enable_after_disable_witness :
  enable_adapter_layers
    (disable_adapter_layers
       (mkLoraModel (sample_config None) (mkHost sample_adapted false false)))
  = mkLoraModel (sample_config None) (mkHost sample_adapted false false).
Proof.
  apply (proj1 (proj2 (proj2
           (X5_enable_after_disable
              (mkLoraModel (sample_config None) (mkHost sample_adapted false false)))))).
  intros m a Hin Hc.
  assert (Hall : forallb (fun m0 => match cls m0 with
                                    | ClsLoraLinear a0 => negb (disable_adapters a0)
                                    | _ => true
                                    end)
                   (modules (root (model (mkLoraModel (sample_config None)
                                            (mkHost sample_adapted false false))))) = true)
    by reflexivity.
  rewrite forallb_forall in Hall. specialize (Hall m Hin). rewrite Hc in Hall.
  now destruct (disable_adapters a).
Defined.

(** ** The constructor of the adapter layer *)


Lemma Linear_init_accepts (in_f out_f : nat) (rk : Z) (alpha : option Q) (p : Q)
    (fan merge router mixer bias : bool) (g : rng) :
  (p <= 1)%Q -> ((rk > 0)%Z -> alpha <> None) ->
  is_ok (Linear_init in_f out_f rk alpha (Some p) fan merge router mixer bias g) = true.
Proof.
  intros Hp Hal.
  unfold Linear_init, nn_Linear_init, nn_Linear_reset_parameters, LoraLayer_init,
    nn_Dropout_init.
  destruct (Qlt_le_dec 0 p) as [H0|H0].
  - destruct (Qlt_le_dec p 0) as [Hn|Hn].
    { exfalso. apply (Qlt_irrefl 0). eapply Qlt_trans; eauto. }
    destruct (Qlt_le_dec 1 p) as [H1|H1].
    { exfalso. apply (Qlt_irrefl 1). eapply Qlt_le_trans; eauto. }
    destruct (rk >? 0)%Z eqn:Hr.
    + destruct alpha as [al|].
      * destruct bias, router, fan; reflexivity.
      * exfalso. apply Hal; [|reflexivity]. apply Z.lt_gt, Z.gtb_lt, Hr.
    + destruct bias, fan; reflexivity.
  - destruct (rk >? 0)%Z eqn:Hr.
    + destruct alpha as [al|].
      * destruct bias, router, fan; reflexivity.
      * exfalso. apply Hal; [|reflexivity]. apply Z.lt_gt, Z.gtb_lt, Hr.
    + destruct bias, fan; reflexivity.
Qed.



(** X7: the parameter table of a layer fresh from the constructor with
    [r > 0]: names in registration order, shapes and [requires_grad].
    Only the frozen [weight] is not trainable (the [bias], when present,
    still is); [lora_R.weight] is present exactly when the router is on,
    and has [r * r] rows with the mixer. *)
Theorem X7_fresh_layer_parameter_table :
  forall (in_f out_f : nat) (rk : Z) (alpha dropout : option Q)
         (fan merge router mixer bias : bool) (g g' : rng) (l : nn_Module),
    (rk > 0)%Z ->
    Linear_init in_f out_f rk alpha dropout fan merge router mixer bias g = Ok (l, g') ->
    map (fun np => (fst np, shape (param_data (snd np)), requires_grad (snd np)))
      (named_parameters l)
    = [("weight", if fan then [in_f; out_f] else [out_f; in_f], false)]
      ++ (if bias then [("bias", [out_f], true)] else [])
      ++ [("lora_A.weight", [Z.to_nat rk; in_f / lora_head], true)]
      ++ (if router
          then [("lora_R.weight",
                 [if mixer then Z.to_nat (rk ^ 2) else Z.to_nat rk; in_f / lora_head], true)]
          else [])
      ++ [("lora_B.weight", [out_f / lora_head; Z.to_nat rk], true)].
Proof.
  intros in_f out_f rk alpha dropout fan merge router mixer bias g g' l Hr Hinit.
  apply Linear_init_inv in Hinit.
  destruct Hinit as (p & tW & tb & tA & tR & _ & _ & Hl). cbv zeta in Hl.
  destruct Hl as (-> & HsW & _ & Hsb & _ & HsA & _ & HsR & _).
  apply Z.gt_lt, Z.gtb_lt in Hr.
  unfold adapter_layer, adapter_children, projection, named_parameters.
  cbn [lora_dropout_is_lambda r lora_router lora_router_mixer in_features out_features].
  rewrite Hr.
  destruct (Qlt_le_dec 0 p), bias, router;
    cbn -[Nat.div Z.pow Z.to_nat zeros]; rewrite ?HsW, ?Hsb, ?HsA, ?HsR; reflexivity.
Qed.

Lemma X7_fresh_layer_parameter_table_witness :
  map (fun np => (fst np, shape (param_data (snd np)), requires_grad (snd np)))
    (named_parameters (layer_of (sample_layer 2 true)))
  = [("weight", [4; 4], false); ("bias", [4], true);
     ("lora_A.weight", [2; 1], true); ("lora_R.weight", [2; 1], true);
     ("lora_B.weight", [1; 2], true)].
Proof.
  apply (@X7_fresh_layer_parameter_table 4 4 2 (Some 1%Q) (Some 0%Q) false true true false
           true ones (snd (match sample_layer 2 true with
                           | Ok lg => lg
                           | Err _ => (mkModule ClsModule false [] [], ones)
                           end))
           (layer_of (sample_layer 2 true))).
  - reflexivity.
  - reflexivity.
Defined.

(** ** [train] and [eval] on a network *)

Lemma In_modules_inv (c : mclass) (t : bool) (ps : list (string * option nn_Parameter))
    (ms : list (string * nn_Module)) (m : nn_Module) :
  In m (modules (mkModule c t ps ms)) ->
  m = mkModule c t ps ms \/ exists n ch, In (n, ch) ms /\ In m (modules ch).
Proof.
  unfold modules. rewrite named_modules_eq. cbn [map snd]. intros [H|H]; [now left|right].
  apply in_map_iff in H. destruct H as [[k m0] [Hk H]]. cbn [snd] in Hk. subst m0.
  apply in_flat_map in H. destruct H as [[n ch] [Hin H]]. cbn [fst snd] in H.
  exists n, ch. split; [exact Hin|].
  rewrite (map_snd_named_modules ch "" (qualify "" n)).
  apply in_map_iff. exists (k, m). split; [reflexivity|exact H].
Qed.

(** [train] on a module fails as soon as it fails on one of its children. *)
Lemma train_child_fails (mode : bool) (c : mclass) (t : bool)
    (ps : list (string * option nn_Parameter)) (ms : list (string * nn_Module))
    (n : string) (ch : nn_Module) :
  In (n, ch) ms -> is_ok (train mode ch) = false ->
  is_ok (train mode (mkModule c t ps ms)) = false.
Proof.
  intros Hin Hf. cbn [train].
  match goal with
  | |- is_ok (bind ?X _) = false => assert (HX : is_ok X = false)
  end.
  { clear c t ps. induction ms as [|[n0 c0] ms IH]; [destruct Hin|].
    destruct Hin as [Heq|Hin].
    - injection Heq as -> ->. destruct (train mode ch); [discriminate|reflexivity].
    - destruct (train mode c0); [|reflexivity]. cbn [bind].
      specialize (IH Hin).
      match type of IH with
      | is_ok ?Y = false => destruct Y; [discriminate|reflexivity]
      end. }
  match type of HX with
  | is_ok ?Y = false => destruct Y; [discriminate|reflexivity]
  end.
Qed.

Lemma train_fails_inside (mode : bool) (l : nn_Module) :
  is_ok (train mode l) = false ->
  forall m, In l (modules m) -> is_ok (train mode m) = false.
Proof.
  intros Hl m. induction m as [c t ps ms IH] using nn_Module_ind. intros Hin.
  apply In_modules_inv in Hin. destruct Hin as [->|(n & ch & Hch & Hin)]; [exact Hl|].
  rewrite Forall_forall in IH.
  apply (train_child_fails mode c t ps ms n ch Hch). exact (IH _ Hch Hin).
Qed.

Lemma eval_fails_with_train (m : nn_Module) :
  is_ok (train false m) = false -> is_ok (eval m) = false.
Proof.
  intros H. unfold eval, Linear_eval, nn_Module_eval.
  destruct (cls m); try exact H.
  destruct (train false m); [discriminate|reflexivity].
Qed.

(** X11: a layer built with [r <= 0] has no ["lora_A"], so [train] and
    [eval] raise [AttributeError] on it, in either mode; and [train] and
    [eval] called on any network that contains such a layer raise as
    well. *)
Theorem X11_rank_zero_layer_blocks_train_and_eval :
  forall (in_f out_f : nat) (rk : Z) (alpha dropout : option Q)
         (fan merge router mixer bias : bool) (g g' : rng) (l : nn_Module),
    (rk <= 0)%Z ->
    Linear_init in_f out_f rk alpha dropout fan merge router mixer bias g = Ok (l, g') ->
    (forall mode, train mode l = Err (AttributeError "lora_A"))
    /\ eval l = Err (AttributeError "lora_A")
    /\ (forall m mode, In l (modules m) ->
          is_ok (train mode m) = false /\ is_ok (eval m) = false).
Proof.
  intros in_f out_f rk alpha dropout fan merge router mixer bias g g' l Hr Hinit.
  apply Linear_init_inv in Hinit.
  destruct Hinit as (p & tW & tb & tA & tR & _ & _ & Hl). cbv zeta in Hl.
  destruct Hl as (-> & _).
  assert (Hr' : (rk >? 0)%Z = false).
  { rewrite Z.gtb_ltb. apply Z.ltb_ge. exact Hr. }
  assert (Htrain : forall mode,
             train mode
               (adapter_layer
                  (mkLoraAttrs in_f out_f rk alpha (if Qlt_le_dec 0 p then false else true)
                     false merge false fan router mixer
                     (if (rk >? 0)%Z
                      then option_map (fun al => (al / inject_Z rk)%Q) alpha else None)) p
                  (mkParameter tW (negb (rk >? 0)%Z))
                  (if bias then Some (mkParameter tb true) else None)
                  (mkParameter tA true) (mkParameter tR true)
                  (mkParameter (zeros [out_f / lora_head; Z.to_nat rk]) true))
             = Err (AttributeError "lora_A")).
  { intros mode. unfold adapter_layer, adapter_children.
    cbn [lora_dropout_is_lambda r lora_router lora_router_mixer in_features out_features].
    rewrite Hr'. destruct (Qlt_le_dec 0 p); reflexivity. }
  split; [exact Htrain|]. split.
  - unfold eval, adapter_layer. cbn [cls]. unfold Linear_eval, nn_Module_eval.
    fold (adapter_layer
            (mkLoraAttrs in_f out_f rk alpha (if Qlt_le_dec 0 p then false else true)
               false merge false fan router mixer
               (if (rk >? 0)%Z
                then option_map (fun al => (al / inject_Z rk)%Q) alpha else None)) p
            (mkParameter tW (negb (rk >? 0)%Z))
            (if bias then Some (mkParameter tb true) else None)
            (mkParameter tA true) (mkParameter tR true)
            (mkParameter (zeros [out_f / lora_head; Z.to_nat rk]) true)).
    rewrite Htrain. reflexivity.
  - intros m mode Hin. split.
    + apply (train_fails_inside mode) with (2 := Hin). now rewrite Htrain.
    + apply eval_fails_with_train.
      apply (train_fails_inside false) with (2 := Hin). now rewrite Htrain.
Qed.

Lemma X11_rank_zero_layer_blocks_train_and_eval_witness :
  eval (layer_of (sample_layer 0 true)) = Err (AttributeError "lora_A").
Proof.
  apply (proj1 (proj2
           (@X11_rank_zero_layer_blocks_train_and_eval 4 4 0 (Some 1%Q) (Some 0%Q)
              false true true false true ones
              (snd (match sample_layer 0 true with
                    | Ok lg => lg
                    | Err _ => (mkModule ClsModule false [] [], ones)
                    end))
              (layer_of (sample_layer 0 true)) ltac:(discriminate) eq_refl))).
Defined.

(** ** The inputs [forward] accepts *)

(** X8: for a layer of positive rank obeying the shape invariant whose
    [out_features] is divisible by 4, [forward] returns a tensor exactly
    when the adapters are not disabled, the router flag is on, [scaling] is
    set, [in_features] is divisible by 4 and the input has shape (batch,
    seq, in_features); the result then has shape (batch, seq,
    out_features).  In particular a layer with the router flag off accepts
    no input at all. *)
Theorem X8_forward_accepts_exactly_3d_with_router :
  forall (keep : nat -> bool) (a : LoraAttrs) (p : Q) (tr : bool)
         (w : nn_Parameter) (b : option nn_Parameter) (wA wR wB : nn_Parameter)
         (x : tensor),
    (r a > 0)%Z ->
    adapter_shapes a w b wA wR wB ->
    out_features a mod lora_head = 0 ->
    (is_ok (forward keep (adapter_instance a p tr w b wA wR wB) x) = true
     <-> disable_adapters a = false /\ lora_router a = true /\ scaling a <> None
         /\ in_features a mod lora_head = 0
         /\ exists bsz sq, shape x = [bsz; sq; in_features a])
    /\ (forall y, forward keep (adapter_instance a p tr w b wA wR wB) x = Ok y ->
          exists bsz sq,
            shape x = [bsz; sq; in_features a]
            /\ shape y = [bsz; sq; out_features a] /\ wf y).
Proof.
  intros keep a p tr w b wA wR wB x Hr Hs Hout. split; [split|].
  - intros Hok.
    destruct (forward keep (adapter_instance a p tr w b wA wR wB) x) as [y|e] eqn:E;
      [|discriminate].
    destruct (@forward_ok_inv keep a p tr w b wA wR wB x y Hr Hs E) as (Hdis & Hrt & (s & Hsc) & bsz & sq & Hx & Hin).
    repeat split; try assumption.
    + rewrite Hsc. discriminate.
    + exists bsz, sq. exact Hx.
  - intros (Hdis & Hrt & Hsc & Hin & bsz & sq & Hx).
    destruct (scaling a) as [s|] eqn:Es; [|contradiction].
    destruct (@forward_3d_router_shape keep a p tr w b wA wR wB s x bsz sq
                Hr Hdis Hrt Es Hs Hin Hout Hx) as (y & -> & _).
    reflexivity.
  - intros y E.
    destruct (@forward_ok_inv keep a p tr w b wA wR wB x y Hr Hs E) as (Hdis & Hrt & (s & Hsc) & bsz & sq & Hx & Hin).
    exists bsz, sq. split; [exact Hx|].
    destruct (@forward_3d_router_shape keep a p tr w b wA wR wB s x bsz sq
                Hr Hdis Hrt Hsc Hs Hin Hout Hx) as (y' & E' & Hsh & Hwf).
    rewrite E in E'. injection E' as <-. split; assumption.
Qed.

Lemma X8_forward_accepts_exactly_3d_with_router_witness :
  is_ok (forward (fun _ => true) (sample_instance sample_attrs) sample_input3) = true.
Proof.
  apply (proj2 (proj1 (@X8_forward_accepts_exactly_3d_with_router
                         (fun _ => true) sample_attrs 0 true
                         (mkParameter (full [4; 4] 1%R) false)
                         (Some (mkParameter (full [4] 1%R) true))
                         (mkParameter (full [1; 1] 1%R) true)
                         (mkParameter (full [1; 1] 1%R) true)
                         (mkParameter (full [1; 1] 2%R) true)
                         sample_input3 ltac:(reflexivity) sample_adapter_shapes eq_refl))).
  repeat split; try reflexivity.
  - discriminate.
  - exists 1, 1. reflexivity.
Defined.

(** ** [reset_parameters] *)



(** ** Dropout draws *)

(** X10: the dropout draws matter in training mode only: in eval mode, or
    when [lora_dropout] is the identity lambda (a probability that is not
    positive), [forward] returns the same result, or raises the same
    exception, for any two sequences of draws. *)
Theorem X10_forward_ignores_draws_outside_training :
  forall (keep keep' : nat -> bool) (a : LoraAttrs) (p : Q) (tr : bool)
         (w : nn_Parameter) (b : option nn_Parameter) (wA wR wB : nn_Parameter)
         (x : tensor),
    (r a > 0)%Z ->
    tr = false \/ lora_dropout_is_lambda a = true \/ (p <= 0)%Q ->
    forward keep (adapter_instance a p tr w b wA wR wB) x
    = forward keep' (adapter_instance a p tr w b wA wR wB) x.
Proof.
  intros keep keep' a p tr w b wA wR wB x Hr Hmode.
  rewrite !forward_adapter_instance by exact Hr.
  assert (Hd : (if lora_dropout_is_lambda a then x else F_dropout keep p tr x)
               = (if lora_dropout_is_lambda a then x else F_dropout keep' p tr x)).
  { destruct Hmode as [->|[->|Hp]]; [|reflexivity|].
    - unfold F_dropout. cbn [andb]. reflexivity.
    - destruct (lora_dropout_is_lambda a); [reflexivity|].
      unfold F_dropout. destruct (Qlt_le_dec 0 p) as [H0|H0].
      + exfalso. apply (Qlt_irrefl 0). eapply Qlt_le_trans; eauto.
      + now rewrite andb_false_r. }
  cbv zeta. rewrite Hd. reflexivity.
Qed.

Lemma X10_forward_ignores_draws_outside_training_witness :
  forward (fun _ => true) (sample_instance sample_attrs) sample_input3
  = forward (fun _ => false) (sample_instance sample_attrs) sample_input3.
Proof.
  apply (@X10_forward_ignores_draws_outside_training (fun _ => true) (fun _ => false)
           sample_attrs 0 true
           (mkParameter (full [4; 4] 1%R) false)
           (Some (mkParameter (full [4] 1%R) true))
           (mkParameter (full [1; 1] 1%R) true)
           (mkParameter (full [1; 1] 1%R) true)
           (mkParameter (full [1; 1] 2%R) true)
           sample_input3 ltac:(reflexivity)).
  right. left. reflexivity.
Defined.

(** ** The selector of target modules *)

Lemma substring_zero_length (m : nat) (s : string) : String.substring m 0 s = EmptyString.
Proof.
  revert m. induction s as [|c s IH]; intros [|m]; cbn [String.substring]; auto.
Qed.

Lemma substring_split (s : string) :
  forall m, m <= String.length s ->
    s = (String.substring 0 m s ++ String.substring m (String.length s - m) s)%string.
Proof.
  induction s as [|c s IH]; intros m Hm.
  - cbn [String.length] in Hm. assert (m = 0) by lia. subst. reflexivity.
  - destruct m as [|m].
    + cbn [String.substring String.append String.length Nat.sub]. f_equal.
      specialize (IH 0 (Nat.le_0_l _)).
      rewrite substring_zero_length, Nat.sub_0_r in IH. exact IH.
    + cbn [String.length] in Hm.
      cbn [String.substring String.append String.length Nat.sub]. f_equal.
      apply IH. lia.
Qed.

Lemma endswith_inv (s suf : string) :
  endswith s suf = true -> exists pre, s = (pre ++ suf)%string.
Proof.
  unfold endswith. intros H. apply andb_prop in H. destruct H as [Hle Heq].
  apply Nat.leb_le in Hle. apply String.eqb_eq in Heq.
  exists (String.substring 0 (String.length s - String.length suf) s).
  assert (Hm : String.length s - String.length suf <= String.length s) by lia.
  pose proof (@substring_split s (String.length s - String.length suf) Hm) as Hs.
  replace (String.length s - (String.length s - String.length suf))
    with (String.length suf) in Hs by lia.
  rewrite Heq in Hs. exact Hs.
Qed.

(** X16: with a list of names as selector, a module is a target exactly
    when its qualified name ends, as a string, with one of the listed
    names; the test never raises.  The match is on characters, not on
    dotted components: a listed name also selects every module whose name
    merely ends in the same letters, and the empty name selects every
    module. *)
Theorem X16_suffix_selector :
  forall (env : Env) (cfg : LoraConfig.t) (suffixes : list string) (key : string),
    LoraConfig.target_modules cfg = Some (TargetSuffixes suffixes) ->
    (target_module_found env cfg key = Ok true
     <-> exists t pre, In t suffixes /\ key = (pre ++ t)%string)
    /\ (target_module_found env cfg key = Ok false
        <-> forall t pre, In t suffixes -> key <> (pre ++ t)%string)
    /\ (In EmptyString suffixes -> target_module_found env cfg key = Ok true).
Proof.
  intros env cfg suffixes key Hsel. unfold target_module_found. rewrite Hsel.
  assert (Hex : existsb (fun target_key => endswith key target_key) suffixes = true
                <-> exists t pre, In t suffixes /\ key = (pre ++ t)%string).
  { rewrite existsb_exists. split.
    - intros (t & Hin & He). destruct (endswith_inv _ _ He) as (pre & Hpre).
      exists t, pre. split; assumption.
    - intros (t & pre & Hin & ->). exists t. split; [exact Hin|apply endswith_append]. }
  split; [|split].
  - rewrite <- Hex. split; [intros H; injection H as H; exact H|intros ->; reflexivity].
  - split.
    + intros H t pre Hin Heq. injection H as H.
      assert (Ht : existsb (fun target_key => endswith key target_key) suffixes = true).
      { apply Hex. exists t, pre. split; assumption. }
      rewrite H in Ht. discriminate.
    + intros H.
      destruct (existsb (fun target_key => endswith key target_key) suffixes) eqn:E;
        [|reflexivity].
      destruct (proj1 Hex eq_refl) as (t & pre & Hin & Heq). elim (H t pre Hin Heq).
  - intros Hin. f_equal. apply Hex. exists EmptyString, key. split; [exact Hin|].
    clear. induction key as [|c key IH]; cbn [String.append]; [reflexivity|].
    now rewrite <- IH.
Qed.

Lemma X16_suffix_selector_witness :
  target_module_found sample_env (sample_config (Some (TargetSuffixes ["q"]))) "block.kq"
  = Ok true.
Proof.
  apply (proj1 (@X16_suffix_selector sample_env (sample_config (Some (TargetSuffixes ["q"])))
                  ["q"] "block.kq" eq_refl)).
  exists "q", "block.k". split; [left; reflexivity|reflexivity].
Defined.

(** ** [_find_and_replace] with [enable_lora] set *)

(** With [enable_lora] set no adapter layer is ever built: every branch
    ends in an exception, and at most [fan_in_fan_out] of the
    configuration changes. *)
Lemma construct_new_module_enable_lora (env : Env) (self : LoraModel) (target : nn_Module)
    (bias : bool) (g : rng) (el : list bool) :
  LoraConfig.enable_lora (peft_config self) = Some el ->
  exists self' e,
    construct_new_module env self target bias g = ((self', Some e), None)
    /\ model self' = model self
    /\ LoraConfig.enable_lora (peft_config self') = Some el.
Proof.
  intros Hel. unfold construct_new_module. rewrite Hel.
  destruct (is_loaded_in_8bit (model self) && isinstance_Linear8bitLt target).
  { eexists _, _. repeat split. exact Hel. }
  rewrite andb_false_r.
  destruct (isinstance_Conv1D target).
  { destruct (getattr_tensor target "weight") as [w|e].
    - destruct (List.length (shape (param_data w)) =? 2); eexists _, _; repeat split;
        exact Hel.
    - eexists _, _. repeat split. exact Hel. }
  destruct (getattr_features target) as [io|e].
  - destruct (LoraConfig.fan_in_fan_out (peft_config self)); eexists _, _; repeat split;
      exact Hel.
  - eexists _, _. repeat split. exact Hel.
Qed.

Lemma find_and_replace_step_enable_lora (env : Env) (key : string)
    (self : LoraModel) (loc : locals) (el : list bool) :
  LoraConfig.enable_lora (peft_config self) = Some el ->
  (find_and_replace_step env key (self, loc) = ((self, loc), None))
  \/ exists self' loc' e,
       find_and_replace_step env key (self, loc) = ((self', loc'), Some e)
       /\ model self' = model self.
Proof.
  intros Hel. unfold find_and_replace_step.
  destruct (target_module_found env (peft_config self) key) as [[|]|e].
  - right.
    destruct (_get_submodules (root (model self)) key) as [[[pk target] tn]|e];
      [|eexists _, _, _; split; reflexivity].
    destruct (getattr_parameter target "bias") as [tb|e];
      [|eexists _, _, _; split; reflexivity].
    cbn [gen new_module].
    destruct (construct_new_module_enable_lora env self target
                (match tb with Some _ => true | None => false end) (gen loc) Hel)
      as (self' & e & -> & Hm & _).
    eexists _, _, _. split; [reflexivity|exact Hm].
  - left. reflexivity.
  - right. eexists _, _, _. split; reflexivity.
Qed.

Lemma find_and_replace_loop_enable_lora (env : Env) (key_list : list string)
    (self : LoraModel) (loc : locals) (el : list bool) :
  LoraConfig.enable_lora (peft_config self) = Some el ->
  (find_and_replace_loop env key_list (self, loc) = ((self, loc), None))
  \/ exists self' loc' e,
       find_and_replace_loop env key_list (self, loc) = ((self', loc'), Some e)
       /\ model self' = model self.
Proof.
  intros Hel. induction key_list as [|key key_list IH]; [left; reflexivity|].
  cbn [find_and_replace_loop].
  destruct (find_and_replace_step_enable_lora env key self loc Hel)
    as [->|(self' & loc' & e & -> & Hm)].
  - exact IH.
  - right. eexists _, _, _. split; [reflexivity|exact Hm].
Qed.

(** X12: with [enable_lora] set in the configuration, building a
    [LoraModel] always ends in an exception, whatever the host network and
    the selector, and the host network is left exactly as it was passed
    in: no module is ever replaced. *)
Theorem X12_enable_lora_always_fails :
  forall (env : Env) (config : LoraConfig.t) (host : HostNetwork) (g : rng),
    LoraConfig.enable_lora config <> None ->
    snd (LoraModel_init env config host g) <> None
    /\ model (fst (fst (LoraModel_init env config host g))) = host.
Proof.
  intros env config host g Hel.
  destruct (LoraConfig.enable_lora config) as [el|] eqn:Eel; [clear Hel|contradiction].
  unfold LoraModel_init, _find_and_replace. cbn [model peft_config].
  destruct (is_loaded_in_8bit host && negb (is_bnb_available env)).
  { cbn [fst snd model]. split; [discriminate|reflexivity]. }
  destruct (@find_and_replace_loop_enable_lora env
              (map fst (named_modules "" (root host)))
              (mkLoraModel config host) (mkLocals false [] g) el Eel)
    as [->|(self' & loc' & e & -> & Hm)].
  - cbn [is_target_modules_in_base_model negb fst snd model]. split; [discriminate|reflexivity].
  - cbn [fst snd]. split; [discriminate|exact Hm].
Qed.

Lemma X12_enable_lora_always_fails_witness :
  snd (LoraModel_init sample_env
         (LoraConfig.mk 1 (Some (TargetSuffixes ["q"])) (Some 1%Q) (Some 0%Q) false false
            (Some [true; false; true]) "none" true false false)
         sample_host ones) <> None.
Proof.
  apply (@X12_enable_lora_always_fails sample_env
           (LoraConfig.mk 1 (Some (TargetSuffixes ["q"])) (Some 1%Q) (Some 0%Q) false false
              (Some [true; false; true]) "none" true false false)
           sample_host ones).
  discriminate.
Defined.

(** ** The first matched module *)

Lemma find_and_replace_loop_skip (env : Env) (pre rest : list string)
    (self : LoraModel) (loc : locals) :
  (forall k, In k pre -> target_module_found env (peft_config self) k = Ok false) ->
  find_and_replace_loop env (pre ++ rest) (self, loc)
  = find_and_replace_loop env rest (self, loc).
Proof.
  induction pre as [|k pre IH]; intros H; [reflexivity|].
  cbn [app find_and_replace_loop find_and_replace_step].
  rewrite (H k (or_introl eq_refl)).
  apply IH. intros k' Hk'. apply H. now right.
Qed.

(** X13: the loop aborts on the first matched module that is not a dense
    layer.  If that module has no [bias] attribute (a container, say) the
    construction raises the [AttributeError] of [target.bias]; if it has
    one but is not an [nn.Linear] (a [Conv1D] or a normalisation layer)
    and [enable_lora] is unset, no branch binds [new_module] and the
    construction raises [UnboundLocalError].  In both cases the host
    network is left as it was passed in. *)
Theorem X13_first_match_not_dense :
  forall (env : Env) (config : LoraConfig.t) (host : HostNetwork) (g : rng)
         (pre rest : list string) (key pk tn : string) (target : nn_Module),
    is_loaded_in_8bit host && negb (is_bnb_available env) = false ->
    map fst (named_modules "" (root host)) = pre ++ key :: rest ->
    (forall k, In k pre -> target_module_found env config k = Ok false) ->
    target_module_found env config key = Ok true ->
    _get_submodules (root host) key = Ok (pk, target, tn) ->
    (forall e, getattr_parameter target "bias" = Err e ->
       LoraModel_init env config host g = ((mkLoraModel config host, g), Some e))
    /\ (LoraConfig.enable_lora config = None ->
        is_ok (getattr_parameter target "bias") = true ->
        isinstance_nn_Linear target = false ->
        LoraModel_init env config host g
        = ((mkLoraModel config host, g), Some (UnboundLocalError "new_module"))).
Proof.
  intros env config host g pre rest key pk tn target Hguard Hkeys Hpre Hkey Hsub.
  unfold LoraModel_init, _find_and_replace. cbn [model peft_config].
  rewrite Hguard, Hkeys.
  rewrite find_and_replace_loop_skip by exact Hpre.
  cbn [find_and_replace_loop find_and_replace_step peft_config model].
  rewrite Hkey, Hsub. split.
  - intros e He. rewrite He. reflexivity.
  - intros Hel Hb Hlin.
    destruct (getattr_parameter target "bias") as [tb|e]; [|discriminate].
    unfold construct_new_module. cbn [peft_config model gen new_module].
    assert (H8 : isinstance_Linear8bitLt target = false).
    { unfold isinstance_nn_Linear in Hlin. unfold isinstance_Linear8bitLt.
      destruct (cls target); try reflexivity; discriminate. }
    rewrite H8, andb_false_r, Hlin, Hel. cbn [andb]. reflexivity.
Qed.

Lemma X13_first_match_not_dense_witness :
  LoraModel_init sample_env (sample_config (Some (TargetSuffixes ["block"]))) sample_host ones
  = ((mkLoraModel (sample_config (Some (TargetSuffixes ["block"]))) sample_host, ones),
     Some (AttributeError "bias")).
Proof.
  apply (proj1 (@X13_first_match_not_dense sample_env
                  (sample_config (Some (TargetSuffixes ["block"]))) sample_host ones
                  [""] ["block.q"; "block.k"; "head"] "block" ""
                  "block"
                  (mkModule ClsModule true [] [("q", sample_dense 4 4); ("k", sample_dense 4 4)])
                  eq_refl eq_refl
                  ltac:(intros k [<-|[]]; reflexivity) eq_refl eq_refl)).
  reflexivity.
Defined.

(** ** Replacing a module *)

Lemma getattr_module_setattr_same (m : nn_Module) (name : string) (c : nn_Module) :
  getattr_module (setattr_module m name c) name = Ok c.
Proof.
  destruct m as [k t ps ms]. unfold getattr_module, setattr_module. cbn [_modules].
  now rewrite dict_get_set_same.
Qed.

Lemma getattr_module_setattr_other (m : nn_Module) (name other : string) (c : nn_Module) :
  name <> other ->
  getattr_module (setattr_module m name c) other = getattr_module m other.
Proof.
  intros Hne. destruct m as [k t ps ms]. unfold getattr_module, setattr_module.
  cbn [_modules]. now rewrite dict_get_set_other.
Qed.

Lemma getattr_parameter_setattr_same (m : nn_Module) (name : string)
    (p : option nn_Parameter) :
  getattr_parameter (setattr_parameter m name p) name = Ok p.
Proof.
  destruct m as [k t ps ms]. unfold getattr_parameter, setattr_parameter. cbn [_parameters].
  now rewrite dict_get_set_same.
Qed.

Lemma getattr_parameter_setattr_other (m : nn_Module) (name other : string)
    (p : option nn_Parameter) :
  name <> other ->
  getattr_parameter (setattr_parameter m name p) other = getattr_parameter m other.
Proof.
  intros Hne. destruct m as [k t ps ms]. unfold getattr_parameter, setattr_parameter.
  cbn [_parameters]. now rewrite dict_get_set_other.
Qed.

(** Mutating the module found at a path: the path still leads to it. *)
Lemma update_atoms_get (f : nn_Module -> nn_Module) (atoms : list string) :
  forall m parent,
    get_atoms m atoms = Ok parent ->
    exists m1, update_atoms m atoms f = Ok m1 /\ get_atoms m1 atoms = Ok (f parent).
Proof.
  induction atoms as [|item atoms IH]; intros m parent Hget.
  - cbn [get_atoms] in Hget. injection Hget as <-. exists (f m). split; reflexivity.
  - cbn [get_atoms update_atoms] in *.
    destruct (getattr_module m item) as [c|e]; [|discriminate]. cbn [bind] in *.
    destruct (IH c parent Hget) as (c1 & -> & Hc1). cbn [bind].
    eexists. split; [reflexivity|].
    cbn [get_atoms]. rewrite getattr_module_setattr_same. exact Hc1.
Qed.

Lemma update_submodule_get (f : nn_Module -> nn_Module) (m parent : nn_Module)
    (target : string) :
  get_submodule m target = Ok parent ->
  exists m1,
    update_submodule m target f = Ok m1 /\ get_submodule m1 target = Ok (f parent).
Proof.
  unfold get_submodule, update_submodule. destruct (String.eqb target "").
  - intros H. injection H as <-. exists (f m). split; reflexivity.
  - apply update_atoms_get.
Qed.

(** What [_replace_module] does with a freshly built [new_module]. *)
Lemma replace_module_fresh :
  forall (m parent new old : nn_Module) (pk child : string)
         (weight bias : option nn_Parameter),
    get_submodule m pk = Ok parent ->
    getattr_parameter old "weight" = Ok weight ->
    getattr_parameter old "bias" = Ok bias ->
    exists m' parent' new',
      _replace_module m pk child new [(pk, child)] old = (m', None)
      /\ get_submodule m' pk = Ok parent'
      /\ getattr_module parent' child = Ok new'
      /\ getattr_parameter new' "weight" = Ok weight
      /\ getattr_parameter new' "bias"
         = match bias with Some _ => Ok bias | None => getattr_parameter new "bias" end
      /\ (forall k, k <> "weight" -> k <> "bias" ->
            getattr_parameter new' k = getattr_parameter new k)
      /\ cls new' = cls new /\ _modules new' = _modules new
      /\ cls parent' = cls parent /\ _parameters parent' = _parameters parent
      /\ (forall other, other <> child ->
            getattr_module parent' other = getattr_module parent other).
Proof.
  intros m parent new old pk child weight bias Hget Hw Hb.
  unfold _replace_module. rewrite Hw, Hb.
  destruct (update_submodule_get (fun parent => setattr_module parent child new) _ _ Hget)
    as (m1 & -> & Hget1).
  cbn [fold_right]. unfold transplant. cbn [fst snd].
  set (install := fun parent0 : nn_Module =>
                    match dict_get (_modules parent0) child with
                    | Some new0 =>
                        setattr_module parent0 child
                          match bias with
                          | Some _ =>
                              setattr_parameter (setattr_parameter new0 "weight" weight)
                                "bias" bias
                          | None => setattr_parameter new0 "weight" weight
                          end
                    | None => parent0
                    end).
  destruct (update_submodule_get install _ _ Hget1) as (m2 & -> & Hget2).
  pose (new' := match bias with
                | Some _ => setattr_parameter (setattr_parameter new "weight" weight)
                              "bias" bias
                | None => setattr_parameter new "weight" weight
                end).
  assert (Hinst : install (setattr_module parent child new)
                  = setattr_module (setattr_module parent child new) child new').
  { unfold install. destruct parent as [c t ps ms]. cbn [setattr_module _modules].
    rewrite dict_get_set_same. reflexivity. }
  rewrite Hinst in Hget2.
  exists m2, (setattr_module (setattr_module parent child new) child new'), new'.
  split; [reflexivity|]. split; [exact Hget2|].
  split; [apply getattr_module_setattr_same|].
  split.
  { unfold new'. destruct bias.
    - rewrite getattr_parameter_setattr_other by discriminate.
      apply getattr_parameter_setattr_same.
    - apply getattr_parameter_setattr_same. }
  split.
  { unfold new'. destruct bias.
    - apply getattr_parameter_setattr_same.
    - apply getattr_parameter_setattr_other. discriminate. }
  split.
  { intros k Hkw Hkb. unfold new'. destruct bias.
    - rewrite !getattr_parameter_setattr_other by congruence. reflexivity.
    - rewrite getattr_parameter_setattr_other by congruence. reflexivity. }
  split; [unfold new'; destruct bias, new; reflexivity|].
  split; [unfold new'; destruct bias, new; reflexivity|].
  split; [destruct parent; reflexivity|].
  split; [destruct parent; reflexivity|].
  intros other Hne. rewrite !getattr_module_setattr_other by congruence. reflexivity.
Qed.

(** X14: [_replace_module] with a freshly built [new_module]: when the
    parent can be reached and the old module has [weight] and [bias]
    attributes, the call succeeds; afterwards the parent holds under
    [child_name] the new module carrying the old module's [weight]
    parameter (contents and [requires_grad] flag alike) and, unless the old
    [bias] is [None], its [bias].  The new module keeps its class, its
    sub-modules and its other parameters; the parent keeps its class, its
    parameters and its other children. *)
Theorem X14_replace_module_installs :
  forall (m parent new old : nn_Module) (pk child : string)
         (weight bias : option nn_Parameter),
    get_submodule m pk = Ok parent ->
    getattr_parameter old "weight" = Ok weight ->
    getattr_parameter old "bias" = Ok bias ->
    exists m' parent' new',
      _replace_module m pk child new [(pk, child)] old = (m', None)
      /\ get_submodule m' pk = Ok parent'
      /\ getattr_module parent' child = Ok new'
      /\ getattr_parameter new' "weight" = Ok weight
      /\ getattr_parameter new' "bias"
         = match bias with Some _ => Ok bias | None => getattr_parameter new "bias" end
      /\ (forall k, k <> "weight" -> k <> "bias" ->
            getattr_parameter new' k = getattr_parameter new k)
      /\ cls new' = cls new /\ _modules new' = _modules new
      /\ cls parent' = cls parent /\ _parameters parent' = _parameters parent
      /\ (forall other, other <> child ->
            getattr_module parent' other = getattr_module parent other).
Proof. exact replace_module_fresh. Qed.

Lemma X14_replace_module_installs_witness :
  snd (_replace_module (root sample_host) "block" "q" (layer_of (sample_layer 1 true))
         [("block", "q")] (sample_dense 4 4)) = None.
Proof.
  destruct (@X14_replace_module_installs (root sample_host)
              (mkModule ClsModule true [] [("q", sample_dense 4 4); ("k", sample_dense 4 4)])
              (layer_of (sample_layer 1 true)) (sample_dense 4 4) "block" "q"
              (Some (mkParameter (full [4; 4] 1%R) true))
              (Some (mkParameter (full [4] 1%R) true))
              eq_refl eq_refl eq_refl)
    as (m' & parent' & new' & E & _).
  rewrite E. reflexivity.
Defined.

Lemma _get_submodules_inv (m : nn_Module) (key pk tn : string) (target : nn_Module) :
  _get_submodules m key = Ok (pk, target, tn) ->
  (exists parent, get_submodule m pk = Ok parent) /\ get_submodule m key = Ok target.
Proof.
  unfold _get_submodules.
  destruct (get_submodule m (join_dot (removelast (split_dot key)))) as [parent|e] eqn:Ep;
    [|discriminate].
  cbn [bind]. destruct (get_submodule m key) as [t|e]; [|discriminate]. cbn [bind].
  intros H. injection H as <- <- <-. split; [exists parent; exact Ep|reflexivity].
Qed.

(** One iteration of the loop on a matched [nn.Linear]. *)
Lemma step_adapts_dense_layer :
  forall (env : Env) (self : LoraModel) (loc : locals) (key pk tn : string)
         (target : nn_Module) (i o : nat) (tw tb : option nn_Parameter) (p : Q),
    LoraConfig.enable_lora (peft_config self) = None ->
    target_module_found env (peft_config self) key = Ok true ->
    _get_submodules (root (model self)) key = Ok (pk, target, tn) ->
    cls target = ClsLinear i o ->
    getattr_parameter target "weight" = Ok tw ->
    getattr_parameter target "bias" = Ok tb ->
    LoraConfig.lora_dropout (peft_config self) = Some p ->
    (p <= 1)%Q ->
    ((LoraConfig.r (peft_config self) > 0)%Z ->
     LoraConfig.lora_alpha (peft_config self) <> None) ->
    exists m' parent' new' a g',
      find_and_replace_step env key (self, loc)
      = ((set_root self m', mkLocals true [(pk, tn)] g'), None)
      /\ get_submodule m' pk = Ok parent'
      /\ getattr_module parent' tn = Ok new'
      /\ getattr_parameter new' "weight" = Ok tw
      /\ (tb <> None -> getattr_parameter new' "bias" = Ok tb)
      /\ (tb = None -> getattr_parameter new' "bias" = Ok None)
      /\ cls new' = ClsLoraLinear a
      /\ in_features a = i /\ out_features a = o
      /\ r a = LoraConfig.r (peft_config self)
      /\ lora_router a = LoraConfig.lora_router (peft_config self)
      /\ lora_router_mixer a = LoraConfig.lora_router_mixer (peft_config self)
      /\ disable_adapters a = false
      /\ ((LoraConfig.r (peft_config self) > 0)%Z ->
          is_ok (getattr_module new' "lora_A") = true
          /\ is_ok (getattr_module new' "lora_B") = true
          /\ is_ok (getattr_module new' "lora_R")
             = LoraConfig.lora_router (peft_config self)).
Proof.
  intros env self loc key pk tn target i o tw tb p Hel Hkey Hsub Hcls Hw Hb Hd Hp Hal.
  destruct (_get_submodules_inv _ _ Hsub) as ((parent & Hparent) & _).
  set (cfg := peft_config self) in *.
  set (bias := match tb with Some _ => true | None => false end).
  set (merge := (LoraConfig.merge_weights cfg || LoraConfig.inference_mode cfg)
                && negb (hf_device_map (model self))).
  pose proof (@Linear_init_accepts i o (LoraConfig.r cfg) (LoraConfig.lora_alpha cfg) p
                (LoraConfig.fan_in_fan_out cfg) merge (LoraConfig.lora_router cfg)
                (LoraConfig.lora_router_mixer cfg) bias (gen loc) Hp Hal) as Hok.
  destruct (Linear_init i o (LoraConfig.r cfg) (LoraConfig.lora_alpha cfg) (Some p)
              (LoraConfig.fan_in_fan_out cfg) merge (LoraConfig.lora_router cfg)
              (LoraConfig.lora_router_mixer cfg) bias (gen loc))
    as [[new g']|e] eqn:Einit; [clear Hok|discriminate].
  assert (Hnewbias : tb = None -> getattr_parameter new "bias" = Ok None).
  { intros ->. apply Linear_init_inv in Einit.
    destruct Einit as (p0 & tW & tb0 & tA & tR & _ & _ & Hl). cbv zeta in Hl.
    destruct Hl as (-> & _). reflexivity. }
  destruct (@replace_module_fresh (root (model self)) parent new target pk tn tw tb
              Hparent Hw Hb)
    as (m' & parent' & new' & Erep & Hget & Hchild & Hnw & Hnb & _ & Hc & Hms & _).
  pose proof Einit as Hinv. apply Linear_init_inv in Hinv.
  destruct Hinv as (p0 & tW & tb0 & tA & tR & _ & _ & Hl). cbv zeta in Hl.
  destruct Hl as (Hnew & _).
  eexists m', parent', new', _, g'.
  split.
  { unfold find_and_replace_step. fold cfg. rewrite Hkey, Hsub, Hb.
    unfold construct_new_module. fold cfg. cbn [gen new_module].
    assert (H8 : isinstance_Linear8bitLt target = false)
      by (unfold isinstance_Linear8bitLt; now rewrite Hcls).
    assert (HL : isinstance_nn_Linear target = true)
      by (unfold isinstance_nn_Linear; now rewrite Hcls).
    assert (HF : getattr_features target = Ok (i, o))
      by (unfold getattr_features; now rewrite Hcls).
    rewrite H8, andb_false_r, HL, Hel, HF, Hd. cbn [andb].
    fold merge. fold bias. rewrite Einit. rewrite Erep. reflexivity. }
  split; [exact Hget|]. split; [exact Hchild|]. split; [exact Hnw|].
  split; [intros Hne; rewrite Hnb; destruct tb; [reflexivity|contradiction]|].
  split; [intros ->; rewrite Hnb; now apply Hnewbias|].
  split; [rewrite Hc, Hnew; reflexivity|].
  cbn [in_features out_features r lora_router lora_router_mixer disable_adapters].
  repeat (split; [reflexivity|]).
  intros Hr. unfold getattr_module. rewrite Hms, Hnew.
  apply Z.gt_lt, Z.gtb_lt in Hr.
  unfold adapter_layer, adapter_children. cbn [_modules r lora_router lora_dropout_is_lambda].
  rewrite Hr.
  destruct (Qlt_le_dec 0 p0), (LoraConfig.lora_router cfg); repeat split; reflexivity.
Qed.

(** X15: one iteration of the loop on a matched [nn.Linear].  When
    [enable_lora] is unset and the configuration is one the constructor
    accepts, the iteration completes without an exception: the module
    found at the key is replaced, under the same name in the same parent,
    by an adapter layer with the same [in_features] and [out_features] and
    the configured rank and router flags, which carries the old [weight]
    parameter; the layer is built with a bias exactly when the old module
    has one. *)
Theorem X15_step_adapts_dense_layer :
  forall (env : Env) (self : LoraModel) (loc : locals) (key pk tn : string)
         (target : nn_Module) (i o : nat) (tw tb : option nn_Parameter) (p : Q),
    LoraConfig.enable_lora (peft_config self) = None ->
    target_module_found env (peft_config self) key = Ok true ->
    _get_submodules (root (model self)) key = Ok (pk, target, tn) ->
    cls target = ClsLinear i o ->
    getattr_parameter target "weight" = Ok tw ->
    getattr_parameter target "bias" = Ok tb ->
    LoraConfig.lora_dropout (peft_config self) = Some p ->
    (p <= 1)%Q ->
    ((LoraConfig.r (peft_config self) > 0)%Z ->
     LoraConfig.lora_alpha (peft_config self) <> None) ->
    exists m' parent' new' a g',
      find_and_replace_step env key (self, loc)
      = ((set_root self m', mkLocals true [(pk, tn)] g'), None)
      /\ get_submodule m' pk = Ok parent'
      /\ getattr_module parent' tn = Ok new'
      /\ getattr_parameter new' "weight" = Ok tw
      /\ (tb <> None -> getattr_parameter new' "bias" = Ok tb)
      /\ (tb = None -> getattr_parameter new' "bias" = Ok None)
      /\ cls new' = ClsLoraLinear a
      /\ in_features a = i /\ out_features a = o
      /\ r a = LoraConfig.r (peft_config self)
      /\ lora_router a = LoraConfig.lora_router (peft_config self)
      /\ lora_router_mixer a = LoraConfig.lora_router_mixer (peft_config self)
      /\ disable_adapters a = false
      /\ ((LoraConfig.r (peft_config self) > 0)%Z ->
          is_ok (getattr_module new' "lora_A") = true
          /\ is_ok (getattr_module new' "lora_B") = true
          /\ is_ok (getattr_module new' "lora_R")
             = LoraConfig.lora_router (peft_config self)).
Proof. exact step_adapts_dense_layer. Qed.

Lemma X15_step_adapts_dense_layer_witness :
  snd (find_and_replace_step sample_env "block.q"
         (mkLoraModel (sample_config (Some (TargetSuffixes ["q"]))) sample_host,
          mkLocals false [] ones)) = None.
Proof.
  destruct (@X15_step_adapts_dense_layer sample_env
              (mkLoraModel (sample_config (Some (TargetSuffixes ["q"]))) sample_host)
              (mkLocals false [] ones) "block.q" "block" "q" (sample_dense 4 4) 4 4
              (Some (mkParameter (full [4; 4] 1%R) true))
              (Some (mkParameter (full [4] 1%R) true)) 0%Q
              eq_refl eq_refl eq_refl eq_refl eq_refl eq_refl eq_refl
              ltac:(discriminate) ltac:(intros _; discriminate))
    as (m' & parent' & new' & a & g' & E & _).
  rewrite E. reflexivity.
Defined.

(** ** [train] and [eval] on a whole network *)

Lemma train_eq (mode : bool) (c : mclass) (t : bool)
    (ps : list (string * option nn_Parameter)) (ms : list (string * nn_Module)) :
  train mode (mkModule c t ps ms)
  = (ms' <- train_children mode ms ;;
     match c with
     | ClsLoraLinear a =>
         let self' := mkModule (ClsLoraLinear (set_merged a false)) mode ps ms' in
         _ <- getattr_module self' "lora_A" ;;
         _ <- (if lora_router a then getattr_module self' "lora_R" else Ok self') ;;
         _ <- getattr_module self' "lora_B" ;;
         Ok self'
     | _ => Ok (mkModule c mode ps ms')
     end).
Proof. reflexivity. Qed.

Lemma train_children_inv (mode : bool) (ms : list (string * nn_Module)) :
  forall ms', train_children mode ms = Ok ms' ->
    Forall2 (fun nc nc' => fst nc' = fst nc /\ train mode (snd nc) = Ok (snd nc')) ms ms'.
Proof.
  induction ms as [|[n ch] ms IH]; intros ms' H; cbn [train_children] in H.
  - injection H as <-. constructor.
  - destruct (train mode ch) as [ch'|e] eqn:E; [|discriminate]. cbn [bind] in H.
    fold (train_children mode) in H.
    destruct (train_children mode ms) as [rest|e]; [|discriminate]. cbn [bind] in H.
    injection H as <-. constructor; [split; [reflexivity|exact E]|]. now apply IH.
Qed.

Lemma train_children_intro (mode : bool) (ms ms' : list (string * nn_Module)) :
  Forall2 (fun nc nc' => fst nc' = fst nc /\ train mode (snd nc) = Ok (snd nc')) ms ms' ->
  train_children mode ms = Ok ms'.
Proof.
  induction 1 as [|[n ch] [n' ch'] ms ms' [Hn Hch] _ IH]; [reflexivity|].
  cbn [fst snd] in Hn, Hch. subst n'. cbn [train_children]. rewrite Hch. cbn [bind].
  fold (train_children mode). rewrite IH. reflexivity.
Qed.

Lemma train_children_ok (mode : bool) (ms : list (string * nn_Module)) :
  (forall nc, In nc ms -> is_ok (train mode (snd nc)) = true) ->
  is_ok (train_children mode ms) = true.
Proof.
  induction ms as [|[n ch] ms IH]; intros H; [reflexivity|].
  cbn [train_children]. pose proof (H (n, ch) (or_introl eq_refl)) as Hch. cbn [snd] in Hch.
  destruct (train mode ch); [|discriminate]. cbn [bind]. fold (train_children mode).
  assert (Hrest : is_ok (train_children mode ms) = true).
  { apply IH. intros nc Hin. apply H. now right. }
  destruct (train_children mode ms); [reflexivity|discriminate].
Qed.

Lemma dict_get_same_names {V W : Type} (R : V -> W -> Prop)
    (d : list (string * V)) (d' : list (string * W)) (k : string) :
  Forall2 (fun nc nc' => fst nc' = fst nc /\ R (snd nc) (snd nc')) d d' ->
  match dict_get d k, dict_get d' k with
  | Some v, Some v' => R v v'
  | None, None => True
  | _, _ => False
  end.
Proof.
  induction 1 as [|[n v] [n' v'] d d' [Hn Hv] _ IH]; cbn [dict_get]; [exact I|].
  cbn [fst snd] in Hn, Hv. subst n'. destruct (String.eqb n k); [exact Hv|exact IH].
Qed.

Lemma Forall2_flat_map {A B C D : Type} (R : C -> D -> Prop) (Q : A -> B -> Prop)
    (f : A -> list C) (g : B -> list D) (l : list A) (l' : list B) :
  Forall2 Q l l' ->
  (forall x y, In x l -> Q x y -> Forall2 R (f x) (g y)) ->
  Forall2 R (flat_map f l) (flat_map g l').
Proof.
  induction 1 as [|x y l l' Hxy _ IH]; intros H; cbn [flat_map]; [constructor|].
  apply Forall2_app.
  - apply H; [now left|exact Hxy].
  - apply IH. intros x0 y0 Hin. apply H. now right.
Qed.

Lemma train_inv (mode : bool) (c : mclass) (t : bool)
    (ps : list (string * option nn_Parameter)) (ms : list (string * nn_Module))
    (m' : nn_Module) :
  train mode (mkModule c t ps ms) = Ok m' ->
  exists ms',
    train_children mode ms = Ok ms'
    /\ m' = mkModule (cls_after_train c) mode ps ms'
    /\ forall a, c = ClsLoraLinear a ->
         is_ok (getattr_module m' "lora_A") = true
         /\ (lora_router a = true -> is_ok (getattr_module m' "lora_R") = true)
         /\ is_ok (getattr_module m' "lora_B") = true.
Proof.
  rewrite train_eq. destruct (train_children mode ms) as [ms'|e]; [|discriminate].
  cbn [bind]. intros H. exists ms'. split; [reflexivity|].
  destruct c as [| | | | |a]; try (injection H as <-; split; [reflexivity|discriminate]).
  cbv zeta in H.
  destruct (getattr_module (mkModule (ClsLoraLinear (set_merged a false)) mode ps ms') "lora_A")
    as [mA|e] eqn:EA; [|discriminate]. cbn [bind] in H.
  destruct (lora_router a) eqn:Er.
  - destruct (getattr_module (mkModule (ClsLoraLinear (set_merged a false)) mode ps ms')
                "lora_R") as [mR|e] eqn:ER; [|discriminate]. cbn [bind] in H.
    destruct (getattr_module (mkModule (ClsLoraLinear (set_merged a false)) mode ps ms')
                "lora_B") as [mB|e] eqn:EB; [|discriminate]. cbn [bind] in H.
    injection H as <-. split; [reflexivity|].
    intros a0 Ha. injection Ha as <-. rewrite EA, ER, EB. repeat split.
  - cbn [bind] in H.
    destruct (getattr_module (mkModule (ClsLoraLinear (set_merged a false)) mode ps ms')
                "lora_B") as [mB|e] eqn:EB; [|discriminate]. cbn [bind] in H.
    injection H as <-. split; [reflexivity|].
    intros a0 Ha. injection Ha as <-. rewrite EA, EB, Er. repeat split. discriminate.
Qed.

Lemma train_intro (mode : bool) (c : mclass) (t : bool)
    (ps : list (string * option nn_Parameter)) (ms ms' : list (string * nn_Module)) :
  train_children mode ms = Ok ms' ->
  (forall a, c = ClsLoraLinear a ->
     is_ok (getattr_module (mkModule (cls_after_train c) mode ps ms') "lora_A") = true
     /\ (lora_router a = true ->
         is_ok (getattr_module (mkModule (cls_after_train c) mode ps ms') "lora_R") = true)
     /\ is_ok (getattr_module (mkModule (cls_after_train c) mode ps ms') "lora_B") = true) ->
  train mode (mkModule c t ps ms) = Ok (mkModule (cls_after_train c) mode ps ms').
Proof.
  intros Hch Hlook. rewrite train_eq, Hch. cbn [bind].
  destruct c as [| | | | |a]; try reflexivity.
  destruct (Hlook a eq_refl) as (HA & HR & HB). cbn [cls_after_train] in *. cbv zeta.
  destruct (getattr_module (mkModule (ClsLoraLinear (set_merged a false)) mode ps ms') "lora_A");
    [|discriminate]. cbn [bind].
  destruct (getattr_module (mkModule (ClsLoraLinear (set_merged a false)) mode ps ms') "lora_B");
    [|discriminate].
  destruct (lora_router a).
  - specialize (HR eq_refl).
    destruct (getattr_module (mkModule (ClsLoraLinear (set_merged a false)) mode ps ms')
                "lora_R"); [|discriminate].
    reflexivity.
  - reflexivity.
Qed.

Lemma hasattr_same_names (R : nn_Module -> nn_Module -> Prop)
    (c c' : mclass) (t t' : bool) (ps ps' : list (string * option nn_Parameter))
    (ms ms' : list (string * nn_Module)) (k : string) :
  Forall2 (fun nc nc' => fst nc' = fst nc /\ R (snd nc) (snd nc')) ms ms' ->
  is_ok (getattr_module (mkModule c' t' ps' ms') k) = hasattr_module (mkModule c t ps ms) k.
Proof.
  intros H. pose proof (dict_get_same_names R k H) as Hk.
  unfold getattr_module, hasattr_module. cbn [_modules].
  destruct (dict_get ms k), (dict_get ms' k); try reflexivity; contradiction.
Qed.

Lemma Forall2_In_l {A B : Type} (R : A -> B -> Prop) (l : list A) (l' : list B) (x : A) :
  Forall2 R l l' -> In x l -> exists y, In y l' /\ R x y.
Proof.
  induction 1 as [|x0 y0 l l' Hxy _ IH]; intros Hin; [destruct Hin|].
  destruct Hin as [->|Hin].
  - exists y0. split; [now left|exact Hxy].
  - destruct (IH Hin) as (y & Hy & Hr). exists y. split; [now right|exact Hr].
Qed.

Lemma Forall2_In_r {A B : Type} (R : A -> B -> Prop) (l : list A) (l' : list B) (y : B) :
  Forall2 R l l' -> In y l' -> exists x, In x l /\ R x y.
Proof.
  induction 1 as [|x0 y0 l l' Hxy _ IH]; intros Hin; [destruct Hin|].
  destruct Hin as [->|Hin].
  - exists x0. split; [now left|exact Hxy].
  - destruct (IH Hin) as (x & Hx & Hr). exists x. split; [now right|exact Hr].
Qed.

(** [train] succeeds exactly on the networks all of whose adapter layers
    have their projections. *)
Lemma train_ok_iff (mode : bool) (m : nn_Module) :
  is_ok (train mode m) = true <-> forall l, In l (modules m) -> has_projections l.
Proof.
  induction m as [c t ps ms IH] using nn_Module_ind. rewrite Forall_forall in IH. split.
  - intros Hok l Hin.
    destruct (train mode (mkModule c t ps ms)) as [m'|e] eqn:E; [|discriminate].
    destruct (train_inv _ _ _ _ _ E) as (ms' & Hch & -> & Hlook).
    pose proof (train_children_inv _ _ Hch) as Hall.
    apply In_modules_inv in Hin. destruct Hin as [->|(n & ch & Hch' & Hin)].
    + intros a Ha. cbn [cls] in Ha. destruct (Hlook a Ha) as (HA & HR & HB).
      assert (Hh : forall k,
                 is_ok (getattr_module (mkModule (cls_after_train c) mode ps ms') k)
                 = hasattr_module (mkModule c t ps ms) k).
      { intros k. exact (@hasattr_same_names (fun x y => train mode x = Ok y)
                           c (cls_after_train c) t mode ps ps ms ms' k Hall). }
      rewrite <- !Hh. repeat split; auto.
    + destruct (Forall2_In_l _ Hall Hch') as ([n' ch'] & _ & _ & Htr). cbn [snd] in Htr.
      apply (proj1 (IH (n, ch) Hch')); [|exact Hin]. cbn [snd]. now rewrite Htr.
  - intros Hall.
    assert (Hkids : is_ok (train_children mode ms) = true).
    { apply train_children_ok. intros [n ch] Hin. cbn [snd].
      apply (proj2 (IH (n, ch) Hin)). intros l Hl. apply Hall.
      eapply In_modules_child; eauto. }
    destruct (train_children mode ms) as [ms'|e] eqn:Hch; [|discriminate].
    pose proof (train_children_inv _ _ Hch) as Hrel.
    rewrite (@train_intro mode c t ps ms ms' Hch); [reflexivity|].
    intros a Ha. destruct (Hall _ (In_modules_self _) a) as (HA & HR & HB); [exact Ha|].
    assert (Hh : forall k,
               is_ok (getattr_module (mkModule (cls_after_train c) mode ps ms') k)
               = hasattr_module (mkModule c t ps ms) k).
    { intros k. exact (@hasattr_same_names (fun x y => train mode x = Ok y)
                         c (cls_after_train c) t mode ps ps ms ms' k Hrel). }
    rewrite !Hh. repeat split; auto.
Qed.

Lemma train_idempotent (mode : bool) (m : nn_Module) :
  forall m', train mode m = Ok m' -> train mode m' = Ok m'.
Proof.
  induction m as [c t ps ms IH] using nn_Module_ind. rewrite Forall_forall in IH.
  intros m' E.
  destruct (train_inv _ _ _ _ _ E) as (ms' & Hch & -> & Hlook).
  pose proof (train_children_inv _ _ Hch) as Hall.
  assert (Hfix : train_children mode ms' = Ok ms').
  { apply train_children_intro. clear -Hall IH.
    induction Hall as [|[n ch] [n' ch'] ms ms' [Hn Htr] _ IH']; constructor.
    - split; [reflexivity|]. cbn [snd] in *.
      exact (IH (n, ch) (or_introl eq_refl) ch' Htr).
    - apply IH'. intros nc Hin. apply IH. now right. }
  rewrite (@train_intro mode (cls_after_train c) mode ps ms' ms' Hfix).
  - destruct c; reflexivity.
  - intros a Ha. destruct c as [| | | | |a0]; try discriminate.
    cbn [cls_after_train] in *. injection Ha as <-.
    destruct (Hlook a0 eq_refl) as (HA & HR & HB). cbn [cls_after_train] in *.
    unfold getattr_module in *. cbn [_modules] in *. repeat split; auto.
Qed.

Lemma dict_get_In {V : Type} (d : list (string * V)) (k : string) (v : V) :
  dict_get d k = Some v -> In (k, v) d.
Proof.
  induction d as [|[k0 v0] d IH]; cbn [dict_get]; [discriminate|].
  destruct (String.eqb_spec k0 k) as [->|Hne].
  - intros H. injection H as ->. now left.
  - intros H. right. now apply IH.
Qed.

Lemma dict_set_get_same {V : Type} (d : list (string * V)) (k : string) (v : V) :
  dict_get d k = Some v -> dict_set d k v = d.
Proof.
  induction d as [|[k0 v0] d IH]; cbn [dict_get dict_set]; [discriminate|].
  destruct (String.eqb k0 k).
  - intros H. injection H as ->. reflexivity.
  - intros H. now rewrite IH.
Qed.

(** Re-running [eval] on a child of a module that [train(False)] has just
    returned changes nothing. *)
Lemma eval_child_again (c : mclass) (ps : list (string * option nn_Parameter))
    (ms ms' : list (string * nn_Module)) (k : string) :
  Forall2 (fun nc nc' => fst nc' = fst nc /\ train false (snd nc) = Ok (snd nc')) ms ms' ->
  is_ok (getattr_module (mkModule c false ps ms') k) = true ->
  (ch <- getattr_module (mkModule c false ps ms') k ;;
   ch <- nn_Module_eval ch ;;
   Ok (setattr_module (mkModule c false ps ms') k ch))
  = Ok (mkModule c false ps ms').
Proof.
  intros Hall Hok. unfold getattr_module in *. cbn [_modules] in *.
  destruct (dict_get ms' k) as [ch'|] eqn:Ek; [|discriminate]. cbn [bind].
  destruct (Forall2_In_r _ Hall (dict_get_In _ _ Ek)) as ([n ch] & _ & _ & Htr).
  cbn [snd] in Htr. unfold nn_Module_eval.
  rewrite (train_idempotent _ _ Htr). cbn [bind setattr_module].
  now rewrite (dict_set_get_same _ _ Ek).
Qed.

Lemma eval_eq_train (m : nn_Module) : eval m = train false m.
Proof.
  destruct m as [c t ps ms]. unfold eval. cbn [cls].
  destruct c as [| | | | |a]; try reflexivity.
  unfold Linear_eval, nn_Module_eval.
  destruct (train false (mkModule (ClsLoraLinear a) t ps ms)) as [m'|e] eqn:E;
    [|reflexivity].
  destruct (train_inv _ _ _ _ _ E) as (ms' & Hch & -> & Hlook).
  destruct (Hlook a eq_refl) as (HA & HR & HB). cbn [cls_after_train] in *.
  pose proof (train_children_inv _ _ Hch) as Hall.
  cbn [bind].
  pose proof (@eval_child_again (ClsLoraLinear (set_merged a false)) ps ms ms' "lora_A"
                Hall HA) as EA.
  pose proof (@eval_child_again (ClsLoraLinear (set_merged a false)) ps ms ms' "lora_B"
                Hall HB) as EB.
  unfold nn_Module_eval in EA, EB.
  destruct (getattr_module (mkModule (ClsLoraLinear (set_merged a false)) false ps ms')
              "lora_A") as [cA|e]; [|discriminate]. cbn [bind] in *.
  destruct (train false cA) as [cA'|e]; [|discriminate]. cbn [bind] in *.
  injection EA as EA. cbn [setattr_module]. rewrite EA.
  destruct (lora_router a).
  - pose proof (@eval_child_again (ClsLoraLinear (set_merged a false)) ps ms ms' "lora_R"
                  Hall (HR eq_refl)) as ER.
    unfold nn_Module_eval in ER.
    destruct (getattr_module (mkModule (ClsLoraLinear (set_merged a false)) false ps ms')
                "lora_R") as [cR|e]; [|discriminate]. cbn [bind] in *.
    destruct (train false cR) as [cR'|e]; [|discriminate]. cbn [bind] in *.
    injection ER as ER. cbn [setattr_module]. rewrite ER. exact EB.
  - cbn [bind]. exact EB.
Qed.

Lemma train_named_modules (mode : bool) (m : nn_Module) :
  forall m' prefix,
    train mode m = Ok m' ->
    Forall2
      (fun nm nm' =>
         fst nm' = fst nm
         /\ cls (snd nm') = cls_after_train (cls (snd nm))
         /\ training (snd nm') = mode
         /\ _parameters (snd nm') = _parameters (snd nm))
      (named_modules prefix m) (named_modules prefix m').
Proof.
  induction m as [c t ps ms IH] using nn_Module_ind. rewrite Forall_forall in IH.
  intros m' prefix E.
  destruct (train_inv _ _ _ _ _ E) as (ms' & Hch & -> & _).
  pose proof (train_children_inv _ _ Hch) as Hall.
  rewrite !named_modules_eq. constructor; [repeat split|].
  apply Forall2_flat_map
    with (Q := fun nc nc' => fst nc' = fst nc /\ train mode (snd nc) = Ok (snd nc'));
    [exact Hall|].
  intros [n ch] [n' ch'] Hin [Hn Htr]. cbn [fst snd] in *. subst n'.
  exact (IH (n, ch) Hin ch' (qualify prefix n) Htr).
Qed.

(** X17: [train(mode)] and [eval()] called on a network succeed exactly
    when every adapter layer in it has the sub-modules ["lora_A"],
    ["lora_B"] and, with the router on, ["lora_R"]; the outcome does not
    depend on the mode. *)
Theorem X17_train_succeeds_iff :
  forall (mode : bool) (m : nn_Module),
    (is_ok (train mode m) = true <-> forall l, In l (modules m) -> has_projections l)
    /\ (is_ok (eval m) = true <-> forall l, In l (modules m) -> has_projections l).
Proof.
  intros mode m. split; [apply train_ok_iff|].
  rewrite eval_eq_train. apply train_ok_iff.
Qed.

(** X18: what [train(mode)] does to a network on which it succeeds: every
    module keeps its name and its parameters (no weight is merged or
    changed), every [training] flag becomes [mode], every adapter layer
    gets [merged = False] and nothing else changes.  Calling it again with
    the same mode changes nothing, and the network can afterwards be put in
    either mode. *)
Theorem X18_train_effect :
  forall (mode : bool) (m m' : nn_Module),
    train mode m = Ok m' ->
    Forall2
      (fun nm nm' =>
         fst nm' = fst nm
         /\ cls (snd nm') = cls_after_train (cls (snd nm))
         /\ training (snd nm') = mode
         /\ _parameters (snd nm') = _parameters (snd nm))
      (named_modules "" m) (named_modules "" m')
    /\ train mode m' = Ok m'
    /\ forall mode', is_ok (train mode' m') = true.
Proof.
  intros mode m m' E. split; [now apply train_named_modules|].
  pose proof (train_idempotent _ _ E) as Hid. split; [exact Hid|].
  intros mode'. apply train_ok_iff. apply (train_ok_iff mode). now rewrite Hid.
Qed.

(** X19: the [eval] override of the adapter layer adds nothing to
    [nn.Module.eval]: on every network, [eval()] returns what
    [train(False)] returns and raises what it raises. *)
Theorem X19_eval_is_train_false :
  forall m : nn_Module, eval m = train false m.
Proof. exact eval_eq_train. Qed.

Lemma X17_train_succeeds_iff_witness :
  hasattr_module (layer_of (sample_layer 1 true)) "lora_R" = true.
Proof.
  pose proof (proj1 (proj1 (X17_train_succeeds_iff true (layer_of (sample_layer 1 true))))
                eq_refl (layer_of (sample_layer 1 true)) (In_modules_self _)) as H.
  unfold has_projections in H.
  destruct (H _ eq_refl) as (_ & HR & _). apply HR. reflexivity.
Defined.

Lemma X18_train_effect_witness :
  exists m',
    train false (layer_of (sample_layer 1 true)) = Ok m' /\ train false m' = Ok m'.
Proof.
  assert (Hok : is_ok (train false (layer_of (sample_layer 1 true))) = true) by reflexivity.
  destruct (train false (layer_of (sample_layer 1 true))) as [m'|e] eqn:E; [|discriminate].
  exists m'. split; [reflexivity|].
  exact (proj1 (proj2 (@X18_train_effect false (layer_of (sample_layer 1 true)) m' E))).
Defined.

(** ** Building a [LoraModel] around one dense layer *)

Lemma find_and_replace_loop_skip_all (env : Env) (rest : list string)
    (self : LoraModel) (loc : locals) :
  (forall k, In k rest -> target_module_found env (peft_config self) k = Ok false) ->
  find_and_replace_loop env rest (self, loc) = ((self, loc), None).
Proof.
  intros H. rewrite <- (app_nil_r rest). rewrite find_and_replace_loop_skip by exact H.
  reflexivity.
Qed.

(** X20: when the selector matches exactly one module of the host, that
    module is an [nn.Linear], [enable_lora] is unset, the configuration is
    one the constructor accepts and the [bias] mode is one of the three
    known ones, [LoraModel(config, model)] returns without an exception.
    The configuration is unchanged, and the network it holds is the host
    with the matched layer replaced (as one iteration of the loop leaves
    it) and then passed through [mark_only_lora_as_trainable]. *)
Theorem X20_one_dense_target_succeeds :
  forall (env : Env) (config : LoraConfig.t) (host : HostNetwork) (g : rng)
         (pre rest : list string) (key pk tn : string)
         (target : nn_Module) (i o : nat) (tw tb : option nn_Parameter) (p : Q),
    is_loaded_in_8bit host && negb (is_bnb_available env) = false ->
    LoraConfig.enable_lora config = None ->
    map fst (named_modules "" (root host)) = pre ++ key :: rest ->
    (forall k, In k (pre ++ rest) -> target_module_found env config k = Ok false) ->
    target_module_found env config key = Ok true ->
    _get_submodules (root host) key = Ok (pk, target, tn) ->
    cls target = ClsLinear i o ->
    getattr_parameter target "weight" = Ok tw ->
    getattr_parameter target "bias" = Ok tb ->
    LoraConfig.lora_dropout config = Some p ->
    (p <= 1)%Q ->
    ((LoraConfig.r config > 0)%Z -> LoraConfig.lora_alpha config <> None) ->
    LoraConfig.bias config = "none" \/ LoraConfig.bias config = "all"
    \/ LoraConfig.bias config = "lora_only" ->
    exists m1 parent' new' a g',
      find_and_replace_step env key (mkLoraModel config host, mkLocals false [] g)
      = ((mkLoraModel config (mkHost m1 (is_loaded_in_8bit host) (hf_device_map host)),
          mkLocals true [(pk, tn)] g'), None)
      /\ LoraModel_init env config host g
         = ((mkLoraModel config
               (mkHost (fst (mark_only_lora_as_trainable m1 (LoraConfig.bias config)))
                  (is_loaded_in_8bit host) (hf_device_map host)), g'), None)
      /\ get_submodule m1 pk = Ok parent'
      /\ getattr_module parent' tn = Ok new'
      /\ cls new' = ClsLoraLinear a
      /\ in_features a = i /\ out_features a = o
      /\ getattr_parameter new' "weight" = Ok tw.
Proof.
  intros env config host g pre rest key pk tn target i o tw tb p
         Hguard Hel Hkeys Hothers Hkey Hsub Hcls Hw Hb Hd Hp Hal Hbias.
  destruct (@step_adapts_dense_layer env (mkLoraModel config host) (mkLocals false [] g)
              key pk tn target i o tw tb p Hel Hkey Hsub Hcls Hw Hb Hd Hp Hal)
    as (m1 & parent' & new' & a & g' & Estep & Hget & Hchild & Hnw & _ & _ & Hc & Hi & Ho & _).
  exists m1, parent', new', a, g'.
  split; [exact Estep|].
  split; [|repeat split; assumption].
  unfold LoraModel_init, _find_and_replace. cbn [model peft_config].
  rewrite Hguard, Hkeys.
  rewrite find_and_replace_loop_skip
    by (intros k Hk; apply Hothers, in_or_app; now left).
  cbn [find_and_replace_loop]. rewrite Estep.
  unfold set_root. cbn [model peft_config is_loaded_in_8bit hf_device_map].
  rewrite find_and_replace_loop_skip_all
    by (intros k Hk; apply Hothers, in_or_app; now right).
  cbn [is_target_modules_in_base_model negb gen model root peft_config].
  unfold set_root. cbn [model peft_config is_loaded_in_8bit hf_device_map].
  destruct Hbias as [Hbm|[Hbm|Hbm]]; rewrite Hbm; reflexivity.
Qed.

Lemma X20_one_dense_target_succeeds_witness :
  snd (LoraModel_init sample_env (sample_config (Some (TargetSuffixes ["head"])))
         sample_host ones) = None.
Proof.
  destruct (@X20_one_dense_target_succeeds sample_env
              (sample_config (Some (TargetSuffixes ["head"]))) sample_host ones
              [""; "block"; "block.q"; "block.k"] [] "head" "" "head"
              (sample_dense 4 2) 4 2
              (Some (mkParameter (full [2; 4] 1%R) true))
              (Some (mkParameter (full [2] 1%R) true)) 0%Q
              eq_refl eq_refl eq_refl
              ltac:(intros k Hk; cbn in Hk;
                    repeat (destruct Hk as [<-|Hk]; [reflexivity|]); destruct Hk)
              eq_refl eq_refl eq_refl eq_refl eq_refl eq_refl
              ltac:(discriminate) ltac:(intros _; discriminate)
              (or_introl eq_refl))
    as (m1 & parent' & new' & a & g' & _ & E & _).
  rewrite E. reflexivity.
Defined.

(** ** Names and paths: [named_modules], [get_submodule], [_get_submodules] *)

Lemma split_dot_not_nil (s : string) : split_dot s <> [].
Proof.
  induction s as [|c s IH]; cbn [split_dot]; [discriminate|].
  destruct (Ascii.eqb c "."); [discriminate|].
  destruct (split_dot s); [contradiction|discriminate].
Qed.

Lemma split_dot_dot_free (n : string) : dot_free n = true -> split_dot n = [n].
Proof.
  induction n as [|c n IH]; cbn [dot_free split_dot]; [reflexivity|].
  intros H. apply andb_prop in H. destruct H as [Hc Hn].
  apply negb_true_iff in Hc. rewrite Hc, (IH Hn). reflexivity.
Qed.

Lemma split_dot_app_dot (p s : string) :
  split_dot (p ++ "." ++ s) = split_dot p ++ split_dot s.
Proof.
  induction p as [|c p IH]; [reflexivity|].
  cbn [String.append split_dot]. cbn [String.append] in IH. rewrite IH.
  destruct (Ascii.eqb c "."); [reflexivity|].
  pose proof (split_dot_not_nil p) as Hp.
  destruct (split_dot p) as [|h t]; [contradiction|reflexivity].
Qed.

Lemma string_append_assoc (a b c : string) :
  ((a ++ b) ++ c)%string = (a ++ (b ++ c))%string.
Proof.
  induction a as [|x a IH]; cbn [String.append]; [reflexivity|]. now rewrite IH.
Qed.

Lemma append_not_empty_l (p s : string) : p <> EmptyString -> (p ++ s)%string <> EmptyString.
Proof. destruct p; [contradiction|discriminate]. Qed.

Lemma qualify_empty (n : string) : qualify "" n = n.
Proof. reflexivity. Qed.

Lemma qualify_not_empty (p n : string) :
  p <> EmptyString -> qualify p n = (p ++ "." ++ n)%string.
Proof.
  intros Hp. unfold qualify. destruct (String.eqb_spec p ""); [contradiction|reflexivity].
Qed.

Lemma split_dot_path_name (atoms : list string) :
  forall p, p <> EmptyString ->
    (forall n, In n atoms -> n <> EmptyString /\ dot_free n = true) ->
    split_dot (path_name p atoms) = split_dot p ++ atoms
    /\ path_name p atoms <> EmptyString.
Proof.
  unfold path_name.
  induction atoms as [|n atoms IH]; intros p Hp Hgood; cbn [fold_left].
  - rewrite app_nil_r. split; [reflexivity|exact Hp].
  - destruct (Hgood n (or_introl eq_refl)) as [Hn Hdf].
    assert (Hq : qualify p n <> EmptyString).
    { rewrite qualify_not_empty by exact Hp. now apply append_not_empty_l. }
    destruct (IH (qualify p n) Hq (fun k Hk => Hgood k (or_intror Hk))) as [Hs Hne].
    split; [|exact Hne].
    rewrite Hs, qualify_not_empty by exact Hp.
    rewrite split_dot_app_dot, (split_dot_dot_free _ Hdf), <- app_assoc. reflexivity.
Qed.

(** The name of a path from the root is its atoms joined by dots; it is
    empty for the empty path only. *)
Lemma split_dot_path_name_root (atoms : list string) :
  (forall n, In n atoms -> n <> EmptyString /\ dot_free n = true) ->
  atoms <> [] ->
  split_dot (path_name "" atoms) = atoms /\ path_name "" atoms <> EmptyString.
Proof.
  intros Hgood Hne. destruct atoms as [|n atoms]; [contradiction|].
  unfold path_name. cbn [fold_left]. rewrite qualify_empty.
  destruct (Hgood n (or_introl eq_refl)) as [Hn Hdf].
  destruct (@split_dot_path_name atoms n Hn (fun k Hk => Hgood k (or_intror Hk))) as [Hs Hp].
  unfold path_name in Hs, Hp. split; [|exact Hp].
  now rewrite Hs, (split_dot_dot_free _ Hdf).
Qed.

Lemma join_dot_path_name (atoms : list string) :
  (forall n, In n atoms -> n <> EmptyString /\ dot_free n = true) ->
  join_dot atoms = path_name "" atoms.
Proof.
  intros Hgood. destruct atoms as [|n atoms]; [reflexivity|].
  unfold path_name. cbn [fold_left]. rewrite qualify_empty.
  destruct (Hgood n (or_introl eq_refl)) as [Hn _].
  assert (Hrest : forall k, In k atoms -> k <> EmptyString /\ dot_free k = true)
    by (intros k Hk; apply Hgood; now right).
  clear Hgood. revert n Hn.
  induction atoms as [|n' atoms IH]; intros n Hn; [reflexivity|].
  cbn [fold_left]. rewrite qualify_not_empty by exact Hn.
  destruct (Hrest n' (or_introl eq_refl)) as [Hn' _].
  assert (Hq : (n ++ "." ++ n')%string <> EmptyString) by now apply append_not_empty_l.
  rewrite <- (IH (fun k Hk => Hrest k (or_intror Hk)) _ Hq).
  unfold join_dot. cbn [String.concat].
  destruct atoms as [|n'' atoms].
  - reflexivity.
  - cbn [String.concat]. rewrite string_append_assoc. reflexivity.
Qed.

Lemma dict_get_NoDup {V : Type} (d : list (string * V)) (k : string) (v : V) :
  NoDup (map fst d) -> In (k, v) d -> dict_get d k = Some v.
Proof.
  induction d as [|[k0 v0] d IH]; intros Hnd Hin; [destruct Hin|].
  cbn [map fst] in Hnd. inversion Hnd as [|? ? Hnotin Hnd']; subst.
  cbn [dict_get]. destruct Hin as [Heq|Hin].
  - injection Heq as -> ->. now rewrite String.eqb_refl.
  - destruct (String.eqb_spec k0 k) as [->|Hne]; [|now apply IH].
    exfalso. apply Hnotin. apply in_map_iff. exists (k, v). split; [reflexivity|exact Hin].
Qed.

Lemma get_atoms_app (l1 l2 : list string) :
  forall m, get_atoms m (l1 ++ l2) = (p <- get_atoms m l1 ;; get_atoms p l2).
Proof.
  induction l1 as [|n l1 IH]; intros m; [reflexivity|].
  cbn [app get_atoms]. destruct (getattr_module m n) as [c|e]; [|reflexivity].
  cbn [bind]. apply IH.
Qed.

Lemma well_named_child (c : mclass) (t : bool) (ps : list (string * option nn_Parameter))
    (ms : list (string * nn_Module)) (n : string) (ch : nn_Module) :
  well_named (mkModule c t ps ms) -> In (n, ch) ms -> well_named ch.
Proof.
  intros Hw Hin l Hl. apply Hw. eapply In_modules_child; eauto.
Qed.

(** Every name listed by [named_modules] is the name of a path of child
    names that leads to the listed module. *)
Lemma named_modules_path (m : nn_Module) :
  well_named m ->
  forall prefix key md,
    In (key, md) (named_modules prefix m) ->
    exists atoms,
      key = path_name prefix atoms
      /\ get_atoms m atoms = Ok md
      /\ forall n, In n atoms -> n <> EmptyString /\ dot_free n = true.
Proof.
  induction m as [c t ps ms IH] using nn_Module_ind. rewrite Forall_forall in IH.
  intros Hw prefix key md Hin. rewrite named_modules_eq in Hin.
  destruct Hin as [Heq|Hin].
  - injection Heq as <- <-. exists []. split; [reflexivity|]. split; [reflexivity|].
    intros n [].
  - apply in_flat_map in Hin. destruct Hin as [[n ch] [Hch Hin]]. cbn [fst snd] in Hin.
    destruct (IH (n, ch) Hch (@well_named_child c t ps ms n ch Hw Hch) _ _ _ Hin)
      as (atoms & -> & Hget & Hgood).
    destruct (Hw _ (In_modules_self _)) as [Hnd Hnames]. cbn [_modules] in Hnd, Hnames.
    exists (n :: atoms). split; [reflexivity|]. split.
    + cbn [get_atoms]. unfold getattr_module. cbn [_modules].
      rewrite (@dict_get_NoDup _ ms n ch Hnd Hch). exact Hget.
    + intros k [<-|Hk]; [|now apply Hgood].
      apply Hnames. apply in_map_iff. exists (n, ch). split; [reflexivity|exact Hch].
Qed.

(** X21: on a well-named module tree, every name that [named_modules]
    lists leads back to the module it is listed with: [get_submodule]
    returns that module, and for a name other than the root's
    [_get_submodules] returns it together with the key of its parent and
    its own child name, the parent holding it under that name.  On the
    root's name, the empty string, [_get_submodules] returns the root as
    its own parent. *)
Theorem X21_get_submodules_round_trip :
  forall (m : nn_Module) (key : string) (md : nn_Module),
    well_named m ->
    In (key, md) (named_modules "" m) ->
    get_submodule m key = Ok md
    /\ (key = EmptyString -> md = m /\ _get_submodules m key = Ok ("", m, ""))
    /\ (key <> EmptyString ->
        exists pk parent tn,
          _get_submodules m key = Ok (pk, md, tn)
          /\ get_submodule m pk = Ok parent
          /\ getattr_module parent tn = Ok md
          /\ key = qualify pk tn).
Proof.
  intros m key md Hw Hin.
  destruct (@named_modules_path m Hw "" key md Hin) as (atoms & -> & Hget & Hgood).
  destruct atoms as [|n0 atoms0].
  { cbn [get_atoms] in Hget. injection Hget as <-. unfold path_name. cbn [fold_left].
    split; [reflexivity|]. split; [intros _; split; reflexivity|]. intros H. now elim H. }
  set (atoms := n0 :: atoms0) in *.
  assert (Hne : atoms <> []) by discriminate.
  destruct (@split_dot_path_name_root atoms Hgood Hne) as [Hsplit Hkey].
  assert (Hsub : get_submodule m (path_name "" atoms) = Ok md).
  { unfold get_submodule. apply String.eqb_neq in Hkey. rewrite Hkey, Hsplit. exact Hget. }
  split; [exact Hsub|]. split; [intros H; contradiction|]. intros _.
  pose proof (@app_removelast_last _ atoms EmptyString Hne) as Hlast.
  set (init := removelast atoms) in *. set (tn := last atoms EmptyString) in *.
  assert (Hgood_init : forall n, In n init -> n <> EmptyString /\ dot_free n = true).
  { intros n Hn. apply Hgood. rewrite Hlast. apply in_or_app. now left. }
  assert (Hparent : exists parent,
             get_submodule m (join_dot init) = Ok parent
             /\ getattr_module parent tn = Ok md).
  { rewrite Hlast, get_atoms_app in Hget.
    destruct (get_atoms m init) as [parent|e] eqn:Einit; [|discriminate].
    cbn [bind get_atoms] in Hget. exists parent. split.
    - unfold get_submodule. rewrite (@join_dot_path_name _ Hgood_init).
      destruct init as [|i0 init0] eqn:Ei.
      + cbn [get_atoms] in Einit. exact Einit.
      + assert (Hi : i0 :: init0 <> []) by discriminate.
        destruct (@split_dot_path_name_root (i0 :: init0) Hgood_init Hi) as [Hs Hk].
        apply String.eqb_neq in Hk. rewrite Hk, Hs. exact Einit.
    - destruct (getattr_module parent tn) as [c|e]; [|discriminate]. exact Hget. }
  destruct Hparent as (parent & Hp & Hc).
  exists (join_dot init), parent, tn. split; [|split; [exact Hp|split; [exact Hc|]]].
  - unfold _get_submodules. rewrite Hsplit. fold init. fold tn. rewrite Hp. cbn [bind].
    rewrite Hsub. reflexivity.
  - rewrite (@join_dot_path_name _ Hgood_init). unfold path_name.
    rewrite Hlast at 1. rewrite fold_left_app. reflexivity.
Qed.

Lemma X21_get_submodules_round_trip_witness :
  exists pk tn,
    _get_submodules (root sample_host) "block.q" = Ok (pk, sample_dense 4 4, tn).
Proof.
  assert (Hw : well_named (root sample_host)).
  { intros l Hl. unfold modules in Hl. cbn in Hl.
    repeat (destruct Hl as [<-|Hl];
            [split;
             [cbn; repeat constructor; cbn; intuition discriminate
             |intros n Hn; cbn in Hn;
              repeat (destruct Hn as [<-|Hn]; [split; [discriminate|reflexivity]|]);
              destruct Hn]|]).
    destruct Hl. }
  assert (Hin : In ("block.q", sample_dense 4 4) (named_modules "" (root sample_host))).
  { cbn. right. right. left. reflexivity. }
  destruct (@X21_get_submodules_round_trip (root sample_host) "block.q" (sample_dense 4 4)
              Hw Hin) as (_ & _ & H).
  destruct (H ltac:(discriminate)) as (pk & parent & tn & E & _).
  exists pk, tn. exact E.
Defined.

(** ** The heads are processed independently *)

Lemma indices_complete (sh : list nat) :
  forall idx, Forall2 lt idx sh -> In idx (indices sh).
Proof.
  induction sh as [|n sh IH]; intros idx H; inversion H as [|i n' idx' sh' Hi Hrest]; subst.
  - now left.
  - cbn [indices]. apply in_flat_map. exists i. split; [apply in_seq; lia|].
    apply in_map. now apply IH.
Qed.

Lemma In_indices3 (b s d i j k : nat) :
  i < b -> j < s -> k < d -> In [i; j; k] (indices [b; s; d]).
Proof. intros. apply indices_complete. repeat constructor; assumption. Qed.

Lemma In_indices4 (b s d e i j k l : nat) :
  i < b -> j < s -> k < d -> l < e -> In [i; j; k; l] (indices [b; s; d; e]).
Proof. intros. apply indices_complete. repeat constructor; assumption. Qed.

Lemma linear_out_same_row (t t' w : tensor) (B S D out_f in_f bi si : nat) :
  shape t = [B; S; D] -> shape t' = [B; S; D] ->
  bi < B -> si < S ->
  same_row t t' bi si in_f ->
  same_row (linear_out t w None out_f in_f) (linear_out t' w None out_f in_f) bi si out_f.
Proof.
  intros Ht Ht' Hb Hs Hrow j Hj. unfold linear_out. rewrite Ht, Ht'.
  cbn [removelast app].
  rewrite !tget_tabulate by (apply In_indices3; assumption).
  cbn [removelast last app]. f_equal. f_equal.
  apply map_ext_in. intros k Hk. apply in_seq in Hk. rewrite Hrow by lia. reflexivity.
Qed.

Lemma softmax_same_row (t t' : tensor) (B S D bi si : nat) :
  shape t = [B; S; D] -> shape t' = [B; S; D] ->
  bi < B -> si < S ->
  same_row t t' bi si D ->
  same_row (softmax t) (softmax t') bi si D.
Proof.
  intros Ht Ht' Hb Hs Hrow j Hj. unfold softmax. rewrite Ht, Ht'.
  rewrite !tget_tabulate by (apply In_indices3; assumption).
  cbn [removelast last app]. rewrite (Hrow j Hj). f_equal. f_equal.
  apply map_ext_in. intros k Hk. apply in_seq in Hk. rewrite Hrow by lia. reflexivity.
Qed.

Lemma gate_same_row (a : LoraAttrs) (rw rw' : tensor) (B S bi si : nat) :
  (r a > 0)%Z ->
  shape rw = [B; S; if lora_router_mixer a then Z.to_nat (r a ^ 2) else Z.to_nat (r a)] ->
  shape rw' = [B; S; if lora_router_mixer a then Z.to_nat (r a ^ 2) else Z.to_nat (r a)] ->
  bi < B -> si < S ->
  same_row rw rw' bi si
    (if lora_router_mixer a then Z.to_nat (r a ^ 2) else Z.to_nat (r a)) ->
  forall ri ki, ri < Z.to_nat (r a) -> ki < Z.to_nat (r a) ->
    tget (gate_of a rw) [bi; si; ri; ki] = tget (gate_of a rw') [bi; si; ri; ki].
Proof.
  intros Hr Hrw Hrw' Hb Hs Hrow ri ki Hri Hki.
  pose proof (softmax_same_row Hrw Hrw' Hb Hs Hrow) as Hsm.
  unfold gate_of. destruct (lora_router_mixer a).
  - rewrite Z_to_nat_square in * by lia.
    set (rn := Z.to_nat (r a)) in *.
    assert (Hq : ri * rn + ki < rn * rn) by nia.
    specialize (Hsm (ri * rn + ki) Hq).
    unfold tget in *. cbn [shape data softmax tabulate] in *.
    rewrite Hrw, Hrw' in *. cbn [removelast app].
    assert (Hoff : ravel [B; S; rn; rn] [bi; si; ri; ki]
                   = ravel [B; S; rn * rn] [bi; si; ri * rn + ki]).
    { cbn [ravel numel fold_right]. ring. }
    rewrite Hoff. exact Hsm.
  - unfold diag_out. cbn [shape softmax tabulate]. rewrite Hrw, Hrw'. cbn [app].
    rewrite !tget_tabulate by (apply In_indices4; assumption).
    cbn [removelast last]. destruct (ri =? ki); [|reflexivity].
    apply Hsm. exact Hri.
Qed.

Lemma einsum_out_same_row (left left' gate gate' : tensor) (B S rn bi si : nat) :
  bi < B -> si < S ->
  same_row left left' bi si rn ->
  (forall ri ki, ri < rn -> ki < rn ->
     tget gate [bi; si; ri; ki] = tget gate' [bi; si; ri; ki]) ->
  same_row (einsum_out left gate B S rn rn) (einsum_out left' gate' B S rn rn) bi si rn.
Proof.
  intros Hb Hs Hleft Hgate k Hk. unfold einsum_out.
  rewrite !tget_tabulate by (apply In_indices3; assumption).
  f_equal. apply map_ext_in. intros ri Hri. apply in_seq in Hri.
  rewrite Hleft, Hgate by lia. reflexivity.
Qed.

Lemma head_index (h d i j : nat) :
  j < d -> (i * h + j / d = i * h + 0 /\ j mod d = j).
Proof.
  intros Hj. rewrite Nat.div_small, Nat.mod_small by exact Hj. split; reflexivity.
Qed.

(** The low-rank contribution at one head of one position reads the input
    at that head of that position only. *)
Lemma lora_result_3d_head_local (keep : nat -> bool) (a : LoraAttrs) (p : Q) (tr : bool)
    (wA wR wB : tensor) (s : Q) (x x' : tensor) (bsz sq bi si h : nat) :
  (r a > 0)%Z ->
  lora_dropout_is_lambda a = true \/ tr = false ->
  bi < bsz -> si < sq -> h < lora_head ->
  (forall d, d < in_features a / lora_head ->
     tget x [bi; si; h * (in_features a / lora_head) + d]
     = tget x' [bi; si; h * (in_features a / lora_head) + d]) ->
  forall j, j < out_features a / lora_head ->
    tget (lora_result_3d keep a p tr wA wR wB s x bsz sq)
      [bi; si; h * (out_features a / lora_head) + j]
    = tget (lora_result_3d keep a p tr wA wR wB s x' bsz sq)
        [bi; si; h * (out_features a / lora_head) + j].
Proof.
  intros Hr Hdrop Hbi Hsi Hh Hx j Hj.
  unfold lora_result_3d. cbv zeta.
  set (in_h := in_features a / lora_head) in *.
  set (out_h := out_features a / lora_head) in *.
  set (rn := Z.to_nat (r a)).
  assert (Hdx : forall y, (if lora_dropout_is_lambda a then y else F_dropout keep p tr y) = y).
  { intros y. destruct Hdrop as [->| ->]; [reflexivity|].
    destruct (lora_dropout_is_lambda a); reflexivity. }
  rewrite !Hdx.
  assert (Hbh : bi * lora_head + h < bsz * lora_head) by (unfold lora_head in *; lia).
  assert (Hdiv : (bi * lora_head + h) / lora_head = bi).
  { symmetry. apply (Nat.div_unique _ _ _ h); [exact Hh|]. unfold lora_head. lia. }
  assert (Hmod : (bi * lora_head + h) mod lora_head = h).
  { symmetry. apply (Nat.mod_unique _ _ bi); [exact Hh|]. unfold lora_head. lia. }
  (* the split input *)
  assert (Hsplit : same_row (split3_out lora_head x bsz sq in_h)
                     (split3_out lora_head x' bsz sq in_h) (bi * lora_head + h) si in_h).
  { intros k Hk. unfold split3_out.
    rewrite !tget_tabulate by (apply In_indices3; assumption).
    rewrite Hdiv, Hmod. now apply Hx. }
  (* the two projections *)
  set (xs := split3_out lora_head x bsz sq in_h) in *.
  set (xs' := split3_out lora_head x' bsz sq in_h) in *.
  set (rr := if lora_router_mixer a then Z.to_nat (r a ^ 2) else rn).
  pose proof (@linear_out_same_row xs xs' wA (bsz * lora_head) sq in_h rn in_h
                (bi * lora_head + h) si eq_refl eq_refl Hbh Hsi Hsplit) as Hleft.
  pose proof (@linear_out_same_row xs xs' wR (bsz * lora_head) sq in_h rr in_h
                (bi * lora_head + h) si eq_refl eq_refl Hbh Hsi Hsplit) as Hrouter.
  (* the gate and the mixture *)
  pose proof (@gate_same_row a (linear_out xs wR None rr in_h) (linear_out xs' wR None rr in_h)
                (bsz * lora_head) sq (bi * lora_head + h) si
                Hr eq_refl eq_refl Hbh Hsi Hrouter) as Hgate.
  pose proof (@einsum_out_same_row
                (linear_out xs wA None rn in_h) (linear_out xs' wA None rn in_h)
                (gate_of a (linear_out xs wR None rr in_h))
                (gate_of a (linear_out xs' wR None rr in_h))
                (bsz * lora_head) sq rn
                (bi * lora_head + h) si Hbh Hsi Hleft Hgate) as Hmoe.
  pose proof (@linear_out_same_row
                (einsum_out (linear_out xs wA None rn in_h)
                   (gate_of a (linear_out xs wR None rr in_h)) (bsz * lora_head) sq rn rn)
                (einsum_out (linear_out xs' wA None rn in_h)
                   (gate_of a (linear_out xs' wR None rr in_h)) (bsz * lora_head) sq rn rn)
                wB (bsz * lora_head) sq rn out_h rn
                (bi * lora_head + h) si eq_refl eq_refl Hbh Hsi Hmoe) as Hout.
  (* merging the heads *)
  unfold merge3_out.
  assert (Hidx : In [bi; si; h * out_h + j]
                   (indices [bsz * lora_head / lora_head; sq; lora_head * out_h])).
  { apply In_indices3; [|exact Hsi|].
    - rewrite Nat.div_mul by (unfold lora_head; lia). exact Hbi.
    - unfold lora_head in *. nia. }
  rewrite !tget_tabulate by exact Hidx.
  assert (Hq : (h * out_h + j) / out_h = h).
  { symmetry. apply (Nat.div_unique _ _ _ j); [exact Hj|]. lia. }
  assert (Hm : (h * out_h + j) mod out_h = j).
  { symmetry. apply (Nat.mod_unique _ _ h); [exact Hj|]. lia. }
  rewrite Hq, Hm, !tget_mul_scalar. f_equal. now apply Hout.
Qed.

(** X22: the four heads are processed independently.  On an accepted
    3-D input [forward] returns the sum of the low-rank term [lora_result]
    and the frozen base path.  Outside training mode (or with the identity
    dropout), for two inputs of the same shape that agree, at one batch
    entry and one position, on the slice of input features of head [h],
    the low-rank term is the same at that batch entry and position on the
    slice of output features of head [h], whatever the inputs are
    elsewhere.  The two sides are the same operations applied to the same
    entries: no law of arithmetic is used. *)
Theorem X22_heads_are_independent :
  forall (keep : nat -> bool) (a : LoraAttrs) (p : Q) (tr : bool)
         (w : nn_Parameter) (b : option nn_Parameter) (wA wR wB : nn_Parameter)
         (s : Q) (x x' : tensor) (bsz sq bi si h : nat),
    (r a > 0)%Z ->
    disable_adapters a = false ->
    lora_router a = true ->
    scaling a = Some s ->
    adapter_shapes a w b wA wR wB ->
    in_features a mod lora_head = 0 ->
    lora_dropout_is_lambda a = true \/ tr = false ->
    shape x = [bsz; sq; in_features a] ->
    shape x' = [bsz; sq; in_features a] ->
    bi < bsz -> si < sq -> h < lora_head ->
    (forall d, d < in_features a / lora_head ->
       tget x [bi; si; h * (in_features a / lora_head) + d]
       = tget x' [bi; si; h * (in_features a / lora_head) + d]) ->
    forward keep (adapter_instance a p tr w b wA wR wB) x
    = add (lora_result_3d keep a p tr (param_data wA) (param_data wR) (param_data wB)
             s x bsz sq)
          (org_result_of a (param_data w) (option_map param_data b) x)
    /\ forward keep (adapter_instance a p tr w b wA wR wB) x'
       = add (lora_result_3d keep a p tr (param_data wA) (param_data wR) (param_data wB)
                s x' bsz sq)
             (org_result_of a (param_data w) (option_map param_data b) x')
    /\ forall j, j < out_features a / lora_head ->
         tget (lora_result_3d keep a p tr (param_data wA) (param_data wR) (param_data wB)
                 s x bsz sq)
           [bi; si; h * (out_features a / lora_head) + j]
         = tget (lora_result_3d keep a p tr (param_data wA) (param_data wR) (param_data wB)
                   s x' bsz sq)
             [bi; si; h * (out_features a / lora_head) + j].
Proof.
  intros keep a p tr w b wA wR wB s x x' bsz sq bi si h
         Hr Hdis Hrt Hsc Hs Hin Hdrop Hx Hx' Hbi Hsi Hh Hagree.
  split; [|split].
  - exact (@forward_3d_router_steps keep a p tr w b wA wR wB s x bsz sq
             Hr Hdis Hrt Hsc Hs Hin Hx).
  - exact (@forward_3d_router_steps keep a p tr w b wA wR wB s x' bsz sq
             Hr Hdis Hrt Hsc Hs Hin Hx').
  - intros j Hj.
    exact (@lora_result_3d_head_local keep a p tr (param_data wA) (param_data wR)
             (param_data wB) s x x' bsz sq bi si h Hr Hdrop Hbi Hsi Hh Hagree j Hj).
Qed.

Lemma X22_heads_are_independent_witness :
  tget (lora_result_3d (fun _ => true) sample_attrs 0 true
          (full [1; 1] 1%R) (full [1; 1] 1%R) (full [1; 1] 2%R)
          (1 / inject_Z 1)%Q sample_input3 1 1) [0; 0; 0]
  = tget (lora_result_3d (fun _ => true) sample_attrs 0 true
            (full [1; 1] 1%R) (full [1; 1] 1%R) (full [1; 1] 2%R)
            (1 / inject_Z 1)%Q sample_input3_other 1 1) [0; 0; 0].
Proof.
  apply (proj2 (proj2 (@X22_heads_are_independent (fun _ => true) sample_attrs 0 true
                  (mkParameter (full [4; 4] 1%R) false)
                  (Some (mkParameter (full [4] 1%R) true))
                  (mkParameter (full [1; 1] 1%R) true)
                  (mkParameter (full [1; 1] 1%R) true)
                  (mkParameter (full [1; 1] 2%R) true)
                  (1 / inject_Z 1)%Q sample_input3 sample_input3_other 1 1 0 0 0
                  ltac:(reflexivity) eq_refl eq_refl eq_refl sample_adapter_shapes
                  eq_refl (or_introl eq_refl) eq_refl eq_refl
                  ltac:(lia) ltac:(lia) ltac:(unfold lora_head; lia)
                  ltac:(intros d Hd; cbn in Hd; assert (d = 0) by lia; subst d;
                        reflexivity))) 0).
  cbn. lia.
Defined.

(** ** A selector that cannot be evaluated *)

Lemma named_modules_root_first (m : nn_Module) :
  exists rest, map fst (named_modules "" m) = "" :: rest.
Proof.
  destruct m as [c t ps ms]. rewrite named_modules_eq. cbn [map fst]. eexists. reflexivity.
Qed.

(** X23: the selector is evaluated on the root of the host first, whose
    name is the empty string.  With [target_modules] left unset, the
    default of [LoraConfig], that test raises [TypeError], and with a
    pattern on which [re.fullmatch] raises, its exception; either way the
    construction of the [LoraModel] ends there, with the host network and
    the configuration as they were passed in. *)
Theorem X23_selector_fails_on_root :
  forall (env : Env) (config : LoraConfig.t) (host : HostNetwork) (g : rng),
    is_loaded_in_8bit host && negb (is_bnb_available env) = false ->
    (LoraConfig.target_modules config = None ->
     LoraModel_init env config host g = ((mkLoraModel config host, g), Some TypeError))
    /\ (forall pattern e,
          LoraConfig.target_modules config = Some (TargetRegex pattern) ->
          re_fullmatch env pattern "" = Err e ->
          LoraModel_init env config host g = ((mkLoraModel config host, g), Some e)).
Proof.
  intros env config host g Hguard.
  destruct (named_modules_root_first (root host)) as (rest & Hkeys).
  split.
  - intros Hsel. unfold LoraModel_init, _find_and_replace. cbn [model peft_config].
    rewrite Hguard, Hkeys.
    cbn [find_and_replace_loop find_and_replace_step peft_config].
    unfold target_module_found. rewrite Hsel. reflexivity.
  - intros pattern e Hsel Hre. unfold LoraModel_init, _find_and_replace.
    cbn [model peft_config]. rewrite Hguard, Hkeys.
    cbn [find_and_replace_loop find_and_replace_step peft_config].
    unfold target_module_found. rewrite Hsel, Hre. reflexivity.
Qed.

Lemma X23_selector_fails_on_root_witness :
  LoraModel_init sample_env (sample_config None) sample_host ones
  = ((mkLoraModel (sample_config None) sample_host, ones), Some TypeError).
Proof.
  apply (proj1 (@X23_selector_fails_on_root sample_env (sample_config None) sample_host ones
                  eq_refl)).
  reflexivity.
Defined.
